(** * kortschak/polar: ring buffer and Polar Measurement Data codec

    A shallow embedding of

    - [cmd/internal/ring]: the generic ring buffer [Buffer[T]];
    - [pmd]: the setting codec ([Uint8], [Uint16], [Float32], [setCommand],
      [parseSetting]), the control point exchange ([querySettings],
      [sendCommand]), the ECG frame decoder ([ECG.UnmarshalBinary],
      [leInt24]) and the notification [Listener] ([dispatch], [SetHandler]).

    Go values are modelled as follows.  An [int] is a [Z] (no operation
    below comes near the 64-bit bounds), a [byte] is [Init.Byte.byte] read
    through [byte.unsigned], a slice is a [list] whose capacity equals its
    length (every slice of the program is made by [make] or by a literal),
    and a [nil] slice is the empty list.  A Go run-time panic is an explicit
    outcome of every function that indexes or slices. *)

From Stdlib Require Import ZArith List Lia Bool.
From coqutil Require Import Byte Z.bitblast.
Import ListNotations.
Local Open Scope Z_scope.

(** ** Go run-time model *)

Module Go.

(** The two run-time panics the embedded code can raise. *)
Inductive panic : Type :=
| IndexOutOfRange
| SliceBoundsOutOfRange.

(** Outcome of running a Go function: it returns, it panics, or the
    model's loop bound was too small (shown unreachable for every loop
    below). *)
Inductive outcome (A : Type) : Type :=
| Done (a : A)
| Panic (p : panic)
| OutOfFuel.
Arguments Done {A} a.
Arguments Panic {A} p.
Arguments OutOfFuel {A}.

Definition bind {A B} (m : outcome A) (k : A -> outcome B) : outcome B :=
  match m with
  | Done a => k a
  | Panic p => Panic p
  | OutOfFuel => OutOfFuel
  end.

Section Slices.
Context {A : Type}.

(** [len(s)] *)
Definition len (s : list A) : Z := Z.of_nat (length s).

(** [s[i]] *)
Definition index (s : list A) (i : Z) : outcome A :=
  if (0 <=? i) && (i <? len s) then
    match nth_error s (Z.to_nat i) with
    | Some a => Done a
    | None => Panic IndexOutOfRange
    end
  else Panic IndexOutOfRange.

(** [s[lo:hi]] *)
Definition slice (s : list A) (lo hi : Z) : outcome (list A) :=
  if (0 <=? lo) && (lo <=? hi) && (hi <=? len s) then
    Done (firstn (Z.to_nat (hi - lo)) (skipn (Z.to_nat lo) s))
  else Panic SliceBoundsOutOfRange.

(** [s[lo:]] *)
Definition slice_from (s : list A) (lo : Z) : outcome (list A) :=
  slice s lo (len s).

(** [s[:hi]] *)
Definition slice_to (s : list A) (hi : Z) : outcome (list A) :=
  slice s 0 hi.

(** [copy(dst, src)]: the destination after the copy and the number of
    elements copied, [min(len(dst), len(src))]. *)
Definition copy (dst src : list A) : list A * Z :=
  let n := Z.min (len dst) (len src) in
  (firstn (Z.to_nat n) src ++ skipn (Z.to_nat n) dst, n).

(** The slice [s] after its tail [s[lo:]] was overwritten by [sub]; a
    write through a sub-slice is a write to the shared backing array. *)
Definition splice (s : list A) (lo : Z) (sub : list A) : list A :=
  firstn (Z.to_nat lo) s ++ sub.

(** [s[i] = v] *)
Definition store (s : list A) (i : Z) (v : A) : outcome (list A) :=
  if (0 <=? i) && (i <? len s) then
    Done (firstn (Z.to_nat i) s ++ v :: skipn (S (Z.to_nat i)) s)
  else Panic IndexOutOfRange.
End Slices.

End Go.
Import Go.

Notation "x <- m ;; k" := (bind m (fun x => k))
  (at level 61, m at next level, right associativity).
Notation "' p <- m ;; k" := (bind m (fun x => let p := x in k))
  (at level 61, p pattern, m at next level, right associativity).

(** ** Package ring *)

Module ring.

Section Buffer.
Context {T : Type}.
(** The zero value of [T], which [make] fills a new slice with. *)
Variable zero : T.

(** [type Buffer[T any] struct { data []T; head, tail int }] *)
Record Buffer : Type := mkBuffer {
  data : list T;
  head : Z;
  tail : Z
}.

(** [NewBuffer] *)
Definition NewBuffer (n : nat) : Buffer :=
  {| data := repeat zero n; head := 0; tail := 0 |}.

(** [Len] *)
Definition Len (r : Buffer) : Z :=
  if head r <=? tail r then tail r - head r
  else len (data r) - head r + tail r.

(** [Size] *)
Definition Size (r : Buffer) : Z := len (data r).

(** [Write] *)
Definition Write (r : Buffer) (src : list T) : outcome Buffer :=
  if len (data r) <=? len src then
    s <- slice_from src (len src - len (data r)) ;;
    Done {| data := fst (copy (data r) s);
            head := 0;
            tail := len (data r) |}
  else
    d <- slice_from (data r) (tail r) ;;
    let '(d', n) := copy d src in
    let data1 := splice (data r) (tail r) d' in
    if len src <=? n then
      Done {| data := data1; head := head r; tail := tail r + n |}
    else
      s <- slice_from src n ;;
      let '(data2, t) := copy data1 s in
      Done {| data := data2;
              head := if head r <? t then t else head r;
              tail := t |}.

(** [CopyTo]: the buffer after the call (the code assigns to none of its
    fields), the destination after the call and the count returned. *)
Definition CopyTo (r : Buffer) (dst : list T) : outcome (Buffer * list T * Z) :=
  if head r <? tail r then
    s <- slice (data r) (head r) (tail r) ;;
    let '(dst', n) := copy dst s in
    Done (r, dst', n)
  else
    s1 <- slice_from (data r) (head r) ;;
    let '(dst1, n) := copy dst s1 in
    d <- slice_from dst1 n ;;
    s2 <- slice_to (data r) (tail r) ;;
    let '(d', m) := copy d s2 in
    Done (r, splice dst1 n d', n + m).

(** [Advance] *)
Definition Advance (r : Buffer) (n : Z) : Buffer :=
  if head r <? tail r then
    {| data := data r;
       head := head r + Z.min n (tail r - head r);
       tail := tail r |}
  else
    let front := len (data r) - head r in
    if n <=? front then
      {| data := data r; head := head r + n; tail := tail r |}
    else
      {| data := data r; head := n - front; tail := tail r |}.

(** [Read] *)
Definition Read (r : Buffer) (dst : list T) : outcome (Buffer * list T * Z) :=
  '(r1, dst', n) <- CopyTo r dst ;;
  Done (Advance r1 n, dst', n).

(** Both cursors lie within the backing array (either may sit one past
    its last element, as after a capacity-sized [Write]). *)
Definition wf (r : Buffer) : Prop :=
  0 <= head r <= len (data r) /\ 0 <= tail r <= len (data r).

(** The valid region as the specification describes it: the (possibly
    wrapped) span from [head] to [tail], oldest element first. *)
Definition valid_span (r : Buffer) : list T :=
  if head r <=? tail r then
    firstn (Z.to_nat (tail r - head r)) (skipn (Z.to_nat (head r)) (data r))
  else
    skipn (Z.to_nat (head r)) (data r) ++ firstn (Z.to_nat (tail r)) (data r).

End Buffer.

Arguments Buffer T : clear implicits.
Arguments mkBuffer {T} data head tail.

End ring.


(** ** Go standard library functions the package calls *)

(** [encoding/binary], the [LittleEndian] byte order. *)
Module binary.

(** [LittleEndian.Uint16] *)
Definition Uint16 (b : list byte) : outcome Z :=
  _ <- index b 1 ;;
  b0 <- index b 0 ;;
  b1 <- index b 1 ;;
  Done (Z.lor (byte.unsigned b0) (Z.shiftl (byte.unsigned b1) 8)).

(** [LittleEndian.PutUint16] *)
Definition PutUint16 (b : list byte) (v : Z) : outcome (list byte) :=
  _ <- index b 1 ;;
  b <- store b 0 (byte.of_Z v) ;;
  store b 1 (byte.of_Z (Z.shiftr v 8)).

(** [LittleEndian.Uint32] *)
Definition Uint32 (b : list byte) : outcome Z :=
  _ <- index b 3 ;;
  b0 <- index b 0 ;;
  b1 <- index b 1 ;;
  b2 <- index b 2 ;;
  b3 <- index b 3 ;;
  Done (Z.lor (Z.lor (Z.lor (byte.unsigned b0)
                            (Z.shiftl (byte.unsigned b1) 8))
                     (Z.shiftl (byte.unsigned b2) 16))
              (Z.shiftl (byte.unsigned b3) 24)).

(** [LittleEndian.PutUint32] *)
Definition PutUint32 (b : list byte) (v : Z) : outcome (list byte) :=
  _ <- index b 3 ;;
  b <- store b 0 (byte.of_Z v) ;;
  b <- store b 1 (byte.of_Z (Z.shiftr v 8)) ;;
  b <- store b 2 (byte.of_Z (Z.shiftr v 16)) ;;
  store b 3 (byte.of_Z (Z.shiftr v 24)).

(** [LittleEndian.Uint64] *)
Definition Uint64 (b : list byte) : outcome Z :=
  _ <- index b 7 ;;
  b0 <- index b 0 ;;
  b1 <- index b 1 ;;
  b2 <- index b 2 ;;
  b3 <- index b 3 ;;
  b4 <- index b 4 ;;
  b5 <- index b 5 ;;
  b6 <- index b 6 ;;
  b7 <- index b 7 ;;
  Done (Z.lor (Z.lor (Z.lor (Z.lor (Z.lor (Z.lor (Z.lor
          (byte.unsigned b0)
          (Z.shiftl (byte.unsigned b1) 8))
          (Z.shiftl (byte.unsigned b2) 16))
          (Z.shiftl (byte.unsigned b3) 24))
          (Z.shiftl (byte.unsigned b4) 32))
          (Z.shiftl (byte.unsigned b5) 40))
          (Z.shiftl (byte.unsigned b6) 48))
          (Z.shiftl (byte.unsigned b7) 56)).

End binary.

(** [math]: a [float32] is modelled by its IEEE-754 bit pattern, a number
    below [2^32]; the two conversions reinterpret the same 32 bits. *)
Module math.

Record float32 : Type := mkFloat32 { bits : Z }.

(** [math.Float32bits] *)
Definition Float32bits (f : float32) : Z := bits f.

(** [math.Float32frombits] *)
Definition Float32frombits (b : Z) : float32 := mkFloat32 b.

End math.

(** [time]: a [Time] is modelled by the seconds and the nanoseconds within
    the second that have elapsed since the Unix epoch. *)
Module time.

Record Time : Type := mkTime { sec : Z; nsec : Z }.

(** [time.Unix]: [nsec] outside [[0, 999999999]] is carried into [sec]. *)
Definition Unix (sec nsec : Z) : Time :=
  if (nsec <? 0) || (1000000000 <=? nsec) then
    let n := Z.quot nsec 1000000000 in
    let sec := sec + n in
    let nsec := nsec - n * 1000000000 in
    if nsec <? 0 then mkTime (sec - 1) (nsec + 1000000000)
    else mkTime sec nsec
  else mkTime sec nsec.

(** [Time.UnixNano] without its 64-bit wrap: the instant as a count of
    nanoseconds since the Unix epoch. *)
Definition UnixNano (t : Time) : Z := sec t * 1000000000 + nsec t.

End time.

(** Conversions between Go integer types. *)

(** [int8(b)] for a byte [b] *)
Definition int8 (b : byte) : Z :=
  let u := byte.unsigned b in
  if u <? 128 then u else u - 256.

(** [int64(u)] for a [uint64] [u] *)
Definition int64 (u : Z) : Z :=
  if u <? 2 ^ 63 then u else u - 2 ^ 64.

(** [int16(u)] for a [uint16] [u] *)
Definition int16 (u : Z) : Z :=
  if u <? 2 ^ 15 then u else u - 2 ^ 16.

(** ** Package pmd *)

Module pmd.

(** [epoch]: 2000 January 1st 00:00:00 UTC *)
Definition epoch : Z := 946684800.

(** [Command], [RecordingType], [MeasureType], [FrameType] and
    [SettingType] are all [uint8]. *)
Definition Command := byte.
Definition MeasureSettings : Command := Byte.x01.
Definition MeasureStart : Command := Byte.x02.
Definition MeasureStop : Command := Byte.x03.

Definition RecordingType := byte.
Definition Online : RecordingType := Byte.x00.
Definition Offline : RecordingType := Byte.x01.

Definition MeasureType := byte.
Definition FrameType := byte.

Definition ECGType : MeasureType := Byte.x00.
Definition ECGFrameType0 : FrameType := Byte.x00.
Definition ECGSamplingStride : Z := 3.
Definition AccType : MeasureType := Byte.x02.
Definition measurementTypes : Z := 13.

(** Packet offsets. *)
Definition sampleTypeOffset : Z := 0.
Definition timeStampOffset : Z := 1.
Definition frameTypeOffset : Z := 9.
Definition dataOffset : Z := 10.

Definition SettingType := byte.
Definition SampleRateSetting : SettingType := Byte.x00.
Definition ResolutionSetting : SettingType := Byte.x01.
Definition RangeUnitSetting : SettingType := Byte.x02.
Definition ChannelsSetting : SettingType := Byte.x04.
Definition ConversionFactorSetting : SettingType := Byte.x05.

Definition headerSize : Z := 2.

Definition uint8Kind : Z := 1.
Definition uint16Kind : Z := 2.
Definition float32Kind : Z := 3.

Definition uint8Size : Z := 1.
Definition uint16Size : Z := 2.
Definition int24Size : Z := 3.
Definition float32Size : Z := 4.

(** An entry of [settingTypes]: [struct { typ, n, size byte }]; the field
    [n] is [count] here. *)
Record settingInfo : Type := mkInfo { typ : Z; count : Z; size : Z }.

(** [settingTypes]: an array literal keyed by [SettingType]; index 3 has
    no key and holds the zero entry. *)
Definition settingTypes : list settingInfo :=
  [ mkInfo uint16Kind 1 uint16Size;     (* SampleRateSetting *)
    mkInfo uint16Kind 1 uint16Size;     (* ResolutionSetting *)
    mkInfo uint16Kind 1 uint16Size;     (* RangeUnitSetting *)
    mkInfo 0 0 0;
    mkInfo uint8Kind 1 uint8Size;       (* ChannelsSetting *)
    mkInfo float32Kind 1 float32Size ]. (* ConversionFactorSetting *)

(** [ctx.Err()] *)
Inductive ctx_error : Type := DeadlineExceeded | Canceled.

(** The errors the package returns, one constructor per message. *)
Inductive error : Type :=
| ErrUnexpectedEOF                            (* io.ErrUnexpectedEOF *)
| ErrDstTooShort                              (* dst too short *)
| ErrInvalidSettingType (t : SettingType)     (* invalid setting type: %d *)
| ErrUnknownSettingType (b : byte)            (* unknown setting type: %x *)
| ErrShortResponse (resp : list byte)         (* short response: %#x *)
| ErrInvalidResponse (resp : list byte)       (* invalid response: %#x *)
| ErrInvalidMeasurementType (m : MeasureType) (* invalid measurement type: %d *)
| ErrExpectedSampleTypeECG (b : byte)         (* expected sample type ecg: %v *)
| ErrExpectedFrameTypeECG (b : byte)          (* expected frame type ecg: %v *)
| ErrSamplesNotFactorOf3 (r : Z)              (* number of samples not a factor of 3: %v *)
| ErrContext (e : ctx_error).                 (* ctx.Err() *)

(** What a [write] method leaves: the destination, the count and the
    error it returns. *)
Definition written : Type := list byte * Z * option error.

(** [setCommand] *)
Module setCommand.
Record t : Type := mk { Command_ : Command; Record_ : RecordingType; Measure : MeasureType }.

Definition zero : t := mk Byte.x00 Byte.x00 Byte.x00.

Definition Size (w : t) : Z := 2.

Definition write (w : t) (dst : list byte) : outcome written :=
  let size := 2 in
  if len dst <? size then Done (dst, 0, Some ErrDstTooShort)
  else
    dst <- store dst 0 (Command_ w) ;;
    dst <- store dst 1
             (byte.of_Z (Z.lor (byte.wrap (Z.shiftl (byte.unsigned (Record_ w)) 7))
                               (byte.unsigned (Measure w)))) ;;
    Done (dst, size, None).
End setCommand.

(** [Uint8] *)
Module Uint8.
Record t : Type := mk { Type_ : SettingType; Val : list byte }.

Definition zero : t := mk Byte.x00 [].

Definition size (n : Z) : Z := headerSize + n * uint8Size.
Definition Size (w : t) : Z := size (len (Val w)).

Definition write (w : t) (dst : list byte) : outcome written :=
  let size := uint8Size in
  let n := len (Val w) in
  let invalid := Done (dst, 0, Some (ErrInvalidSettingType (Type_ w))) in
  if len settingTypes <=? byte.unsigned (Type_ w) then invalid
  else
    l <- index settingTypes (byte.unsigned (Type_ w)) ;;
    if negb (count l =? n) || negb (pmd.size l =? size) then invalid
    else if len dst <? Size w then Done (dst, 0, Some ErrDstTooShort)
    else
      dst <- store dst 0 (Type_ w) ;;
      dst <- store dst 1 (byte.of_Z n) ;;
      sub <- slice_from dst headerSize ;;
      let dst := splice dst headerSize (fst (copy sub (Val w))) in
      Done (dst, Size w, None).

Definition UnmarshalBinary (w : t) (data : list byte) : outcome (t * option error) :=
  if len data <? headerSize then Done (w, Some ErrUnexpectedEOF)
  else
    d1 <- index data 1 ;;
    let n := byte.unsigned d1 in
    if len data <? size n then Done (w, Some ErrUnexpectedEOF)
    else
      d0 <- index data 0 ;;
      sub <- slice_from data headerSize ;;
      Done (mk d0 (fst (copy (repeat Byte.x00 (Z.to_nat n)) sub)), None).
End Uint8.

(** [Uint16]; a value of [Val] is a number below [2^16]. *)
Module Uint16.
Record t : Type := mk { Type_ : SettingType; Val : list Z }.

Definition zero : t := mk Byte.x00 [].

Definition size (n : Z) : Z := headerSize + n * uint16Size.
Definition Size (w : t) : Z := size (len (Val w)).

(** [for i, e := range w.Val { PutUint16(dst[headerSize+i*int(l.size):], e) }] *)
Fixpoint put_all (lsize : Z) (i : Z) (val : list Z) (dst : list byte) : outcome (list byte) :=
  match val with
  | [] => Done dst
  | e :: val =>
      let off := headerSize + i * lsize in
      sub <- slice_from dst off ;;
      sub <- binary.PutUint16 sub e ;;
      put_all lsize (i + 1) val (splice dst off sub)
  end.

Definition write (w : t) (dst : list byte) : outcome written :=
  let size := uint16Size in
  let n := len (Val w) in
  let invalid := Done (dst, 0, Some (ErrInvalidSettingType (Type_ w))) in
  if len settingTypes <=? byte.unsigned (Type_ w) then invalid
  else
    l <- index settingTypes (byte.unsigned (Type_ w)) ;;
    if negb (count l =? n) || negb (pmd.size l =? size) then invalid
    else if len dst <? Size w then Done (dst, 0, Some ErrDstTooShort)
    else
      l <- index settingTypes (byte.unsigned (Type_ w)) ;;
      if negb (pmd.size l =? size) then invalid
      else
        dst <- store dst 0 (Type_ w) ;;
        dst <- store dst 1 (byte.of_Z (len (Val w))) ;;
        dst <- put_all (pmd.size l) 0 (Val w) dst ;;
        Done (dst, Size w, None).

(** [for i := range w.Val { w.Val[i] = Uint16(data); data = data[uint16Size:] }] *)
Fixpoint get_all (n : nat) (data : list byte) : outcome (list Z) :=
  match n with
  | O => Done []
  | S n =>
      v <- binary.Uint16 data ;;
      data <- slice_from data uint16Size ;;
      val <- get_all n data ;;
      Done (v :: val)
  end.

Definition UnmarshalBinary (w : t) (data : list byte) : outcome (t * option error) :=
  if len data <? headerSize then Done (w, Some ErrUnexpectedEOF)
  else
    d1 <- index data 1 ;;
    let n := byte.unsigned d1 in
    if len data <? size n then Done (w, Some ErrUnexpectedEOF)
    else
      d0 <- index data 0 ;;
      data <- slice_from data headerSize ;;
      val <- get_all (Z.to_nat n) data ;;
      Done (mk d0 val, None).
End Uint16.

(** [Float32] *)
Module Float32.
Record t : Type := mk { Type_ : SettingType; Val : list math.float32 }.

Definition zero : t := mk Byte.x00 [].

Definition size (n : Z) : Z := headerSize + n * float32Size.
Definition Size (w : t) : Z := size (len (Val w)).

(** [for i, e := range w.Val { PutUint32(dst[headerSize+i*int(l.size):], math.Float32bits(e)) }] *)
Fixpoint put_all (lsize : Z) (i : Z) (val : list math.float32) (dst : list byte) : outcome (list byte) :=
  match val with
  | [] => Done dst
  | e :: val =>
      let off := headerSize + i * lsize in
      sub <- slice_from dst off ;;
      sub <- binary.PutUint32 sub (math.Float32bits e) ;;
      put_all lsize (i + 1) val (splice dst off sub)
  end.

Definition write (w : t) (dst : list byte) : outcome written :=
  let size := float32Size in
  let n := len (Val w) in
  let invalid := Done (dst, 0, Some (ErrInvalidSettingType (Type_ w))) in
  if len settingTypes <=? byte.unsigned (Type_ w) then invalid
  else
    l <- index settingTypes (byte.unsigned (Type_ w)) ;;
    if negb (count l =? n) || negb (pmd.size l =? size) then invalid
    else if len dst <? Size w then Done (dst, 0, Some ErrDstTooShort)
    else
      l <- index settingTypes (byte.unsigned (Type_ w)) ;;
      if negb (pmd.size l =? size) then invalid
      else
        dst <- store dst 0 (Type_ w) ;;
        dst <- store dst 1 (byte.of_Z (len (Val w))) ;;
        dst <- put_all (pmd.size l) 0 (Val w) dst ;;
        Done (dst, Size w, None).

(** [for i := range w.Val { w.Val[i] = Float32frombits(Uint32(data)); data = data[float32Size:] }] *)
Fixpoint get_all (n : nat) (data : list byte) : outcome (list math.float32) :=
  match n with
  | O => Done []
  | S n =>
      v <- binary.Uint32 data ;;
      data <- slice_from data float32Size ;;
      val <- get_all n data ;;
      Done (math.Float32frombits v :: val)
  end.

Definition UnmarshalBinary (w : t) (data : list byte) : outcome (t * option error) :=
  if len data <? headerSize then Done (w, Some ErrUnexpectedEOF)
  else
    d1 <- index data 1 ;;
    let n := byte.unsigned d1 in
    if len data <? size n then Done (w, Some ErrUnexpectedEOF)
    else
      d0 <- index data 0 ;;
      data <- slice_from data headerSize ;;
      val <- get_all (Z.to_nat n) data ;;
      Done (mk d0 val, None).
End Float32.

(** The [Setting] interface, closed over the types that implement it. *)
Inductive Setting : Type :=
| OfCommand (w : setCommand.t)
| OfUint8 (w : Uint8.t)
| OfUint16 (w : Uint16.t)
| OfFloat32 (w : Float32.t).

(** [Setting.Size] *)
Definition Size (s : Setting) : Z :=
  match s with
  | OfCommand w => setCommand.Size w
  | OfUint8 w => Uint8.Size w
  | OfUint16 w => Uint16.Size w
  | OfFloat32 w => Float32.Size w
  end.

(** [Setting.write] *)
Definition write (s : Setting) (dst : list byte) : outcome written :=
  match s with
  | OfCommand w => setCommand.write w dst
  | OfUint8 w => Uint8.write w dst
  | OfUint16 w => Uint16.write w dst
  | OfFloat32 w => Float32.write w dst
  end.

(** [settingSize] *)
Definition settingSize (s : list Setting) : Z :=
  fold_left (fun n t => n + Size t) s 0.

(** [parseSetting]'s loop; each turn consumes at least the two header
    bytes, so [fuel = len(data)] turns are enough. *)
Fixpoint parseSetting_loop (fuel : nat) (data : list byte) (settings : list Setting)
  : outcome (list Setting * option error) :=
  if len data =? 0 then Done (settings, None)
  else
    match fuel with
    | O => OutOfFuel
    | S fuel =>
        d0 <- index data 0 ;;
        let unknown := Done (settings, Some (ErrUnknownSettingType d0)) in
        if len settingTypes <=? byte.unsigned d0 then unknown
        else
          l <- index settingTypes (byte.unsigned d0) ;;
          if typ l =? 0 then unknown
          else
            r <- (if typ l =? uint8Kind then
                    '(s, err) <- Uint8.UnmarshalBinary Uint8.zero data ;;
                    Done (Some (OfUint8 s, err))
                  else if typ l =? uint16Kind then
                    '(s, err) <- Uint16.UnmarshalBinary Uint16.zero data ;;
                    Done (Some (OfUint16 s, err))
                  else if typ l =? float32Kind then
                    '(s, err) <- Float32.UnmarshalBinary Float32.zero data ;;
                    Done (Some (OfFloat32 s, err))
                  else Done None) ;;
            match r with
            | None => unknown
            | Some (_, Some err) => Done (settings, Some err)
            | Some (set, None) =>
                data <- slice_from data (Size set) ;;
                parseSetting_loop fuel data (settings ++ [set])
            end
    end.

(** [parseSetting] *)
Definition parseSetting (data : list byte) : outcome (list Setting * option error) :=
  parseSetting_loop (length data) data [].

(** What the [select] of a control point exchange observes after the
    message was written: the context is done first ([resp] is what the
    notification callback has stored by then, empty when it never ran), or
    the callback has run with [buf]. *)
Inductive select_event : Type :=
| CtxDone (e : ctx_error) (resp : list byte)
| Notified (buf : list byte).

(** The context and the control point characteristic of an exchange: the
    event that follows the write of a message. *)
Definition exchange : Type := list byte -> select_event.

(** [querySettings] *)
Definition querySettings (dev : exchange) (com : Command) (rec : RecordingType)
    (measure : MeasureType) : outcome (list Setting * option error) :=
  let msg := repeat Byte.x00 (Z.to_nat (settingSize [OfCommand setCommand.zero])) in
  let off := 0 in
  sub <- slice_from msg off ;;
  '(sub, _, err) <- setCommand.write (setCommand.mk com rec measure) sub ;;
  let msg := splice msg off sub in
  match err with
  | Some e => Done ([], Some e)
  | None =>
      (* [err = ctx.Err()] in the first case; [err] is not read again *)
      let '(settings, err) :=
        match dev msg with
        | CtxDone e resp => (resp, Some (ErrContext e))
        | Notified buf => (buf, None)
        end in
      if len settings <? 5 then Done ([], Some (ErrShortResponse settings))
      else
        s0 <- index settings 0 ;;
        bad <- (if negb (byte.unsigned s0 =? 240) then Done true
                else s1 <- index settings 1 ;;
                     Done (negb (byte.unsigned s1 =? byte.unsigned com))) ;;
        if bad : bool then Done ([], Some (ErrInvalidResponse settings))
        else
          s3 <- index settings 3 ;;
          if negb (byte.unsigned s3 =? 0) then
            s <- slice_to settings 5 ;;
            Done ([], Some (ErrInvalidResponse s))
          else
            s <- slice_from settings 5 ;;
            parseSetting s
  end.

(** [for _, w := range settings { n, err := w.write(msg[off:]); ... }] of
    [sendCommand]: the message, the offset and the error that ends it. *)
Fixpoint write_all (settings : list Setting) (msg : list byte) (off : Z)
  : outcome (list byte * Z * option error) :=
  match settings with
  | [] => Done (msg, off, None)
  | w :: settings =>
      sub <- slice_from msg off ;;
      '(sub, n, err) <- write w sub ;;
      let msg := splice msg off sub in
      match err with
      | Some e => Done (msg, off, Some e)
      | None => write_all settings msg (off + n)
      end
  end.

(** [sendCommand] *)
Definition sendCommand (dev : exchange) (com : Command) (rec : RecordingType)
    (measure : MeasureType) (settings : list Setting)
  : outcome (list byte * option error) :=
  let msg := repeat Byte.x00
               (Z.to_nat (settingSize [OfCommand setCommand.zero] + settingSize settings)) in
  let off := 0 in
  sub <- slice_from msg off ;;
  '(sub, n, err) <- setCommand.write (setCommand.mk com rec measure) sub ;;
  let msg := splice msg off sub in
  match err with
  | Some e => Done ([], Some e)
  | None =>
      let off := off + n in
      '(msg, _, err) <- write_all settings msg off ;;
      match err with
      | Some e => Done ([], Some e)
      | None =>
          match dev msg with
          | CtxDone e resp => Done (resp, Some (ErrContext e))
          | Notified buf => Done (buf, None)
          end
      end
  end.

(** [leInt24] *)
Definition leInt24 (b : list byte) : outcome Z :=
  _ <- index b 2 ;;
  b0 <- index b 0 ;;
  b1 <- index b 1 ;;
  b2 <- index b 2 ;;
  Done (Z.lor (Z.lor (byte.unsigned b0) (Z.shiftl (byte.unsigned b1) 8))
              (Z.shiftl (int8 b2) 16)).

(** [ECG] *)
Module ECG.
Record t : Type := mk { Timestamp : time.Time; Trace : list Z }.

Definition zero : t := mk (time.mkTime 0 0) [].

(** [for i := 0; i < len(trace); i += ECGSamplingStride { ... }]; [i]
    grows by three each turn, so [fuel = len(trace)] turns are enough. *)
Fixpoint samples (fuel : nat) (trace : list byte) (i : Z) (ecgTrace : list Z)
  : outcome (list Z) :=
  if i <? len trace then
    match fuel with
    | O => OutOfFuel
    | S fuel =>
        b <- slice trace i (i + ECGSamplingStride) ;;
        v <- leInt24 b ;;
        samples fuel trace (i + ECGSamplingStride) (ecgTrace ++ [v])
    end
  else Done ecgTrace.

Definition UnmarshalBinary (m : t) (data : list byte) : outcome (t * option error) :=
  d0 <- index data sampleTypeOffset ;;
  if negb (byte.unsigned d0 =? byte.unsigned ECGType) then
    Done (m, Some (ErrExpectedSampleTypeECG d0))
  else
    d9 <- index data frameTypeOffset ;;
    if negb (byte.unsigned d9 =? byte.unsigned ECGFrameType0) then
      Done (m, Some (ErrExpectedFrameTypeECG d9))
    else
      ts <- slice_from data timeStampOffset ;;
      timestamp <- binary.Uint64 ts ;;
      trace <- slice_from data dataOffset ;;
      if negb (Z.rem (len trace) ECGSamplingStride =? 0) then
        Done (m, Some (ErrSamplesNotFactorOf3 (Z.rem (len trace) 3)))
      else
        ecgTrace <- samples (length trace) trace 0 [] ;;
        Done (mk (time.Unix (Z.quot (int64 timestamp) 1000000000 + epoch)
                            (Z.rem (int64 timestamp) 1000000000))
                 ecgTrace,
              None).
End ECG.

(** The [Listener]; [W] is the state the notification handlers act on. *)
Section Listener.
Context {W : Type}.

(** [func([]byte)]: a handler may change the state or panic. *)
Definition handler : Type := list byte -> W -> outcome W.

(** [Listener]: [features] and the array [handlers] of
    [measurementTypes] slots, [None] for a nil slot. *)
Record Listener : Type := mkListener {
  features : byte * byte;
  handlers : list (option handler)
}.

(** The [handlers] array of a new [Listener]. *)
Definition no_handlers : list (option handler) :=
  repeat None (Z.to_nat measurementTypes).

(** [Listener.dispatch] *)
Definition dispatch (l : Listener) (buf : list byte) (w : W) : outcome W :=
  if len buf =? 0 then Done w
  else
    b <- index buf sampleTypeOffset ;;
    handle <- index (handlers l) (byte.unsigned b) ;;
    match handle with
    | Some handle => handle buf w
    | None => Done w
    end.

(** The [Handler] interface: [Handle] returns the command, the
    measurement type, the settings and the notification function. *)
Class Handler (H : Type) : Type :=
  Handle : H -> Command * MeasureType * list Setting * option handler.

(** [ECGHandler] is a [func([]byte)], possibly nil. *)
Definition ECGHandler : Type := option handler.
Definition ECGSampleFreq : Z := 130.
Definition ECGResolution : Z := 14.

#[export] Instance ECGHandler_Handle : Handler ECGHandler :=
  fun h =>
    match h with
    | None => (MeasureStop, ECGType, [], None)
    | Some _ =>
        (MeasureStart, ECGType,
         [ OfUint16 (Uint16.mk SampleRateSetting [ECGSampleFreq]);
           OfUint16 (Uint16.mk ResolutionSetting [ECGResolution]) ],
         h)
    end.

(** [Listener.SetHandler]: the listener after the call, and what the call
    returns. *)
Definition SetHandler {H} `{Handler H} (dev : exchange) (l : Listener) (h : H)
  : Listener * outcome (list byte * option error) :=
  let '(com, measureTyp, settings, handle) := Handle h in
  if len (handlers l) <=? byte.unsigned measureTyp then
    (l, Done ([], Some (ErrInvalidMeasurementType measureTyp)))
  else
    match store (handlers l) (byte.unsigned measureTyp) handle with
    | Done hs =>
        (mkListener (features l) hs,
         sendCommand dev com Online measureTyp settings)
    | Panic p => (l, Panic p)
    | OutOfFuel => (l, OutOfFuel)
    end.

(** [Listener.Settings] *)
Definition Settings (dev : exchange) (l : Listener) (m : MeasureType)
  : outcome (list Setting * option error) :=
  querySettings dev MeasureSettings Online m.
End Listener.

Arguments handler W : clear implicits.
Arguments Listener W : clear implicits.
Arguments ECGHandler W : clear implicits.

Definition AccFrameType0 : FrameType := Byte.x00.
Definition AccFrameType1 : FrameType := Byte.x01.
Definition AccFrameType2 : FrameType := Byte.x02.

(** [Acc] *)
Module Acc.
Record t : Type := mk { Timestamp : time.Time; X : Z; Y : Z; Z_ : Z }.

Definition zero : t := mk (time.mkTime 0 0) 0 0 0.

(** The two errors of [Acc.UnmarshalBinary]. *)
Inductive error : Type :=
| ErrExpectedSampleTypeAcc (b : byte)   (* expected sample type acc: %v *)
| ErrExpectedFrameTypeAcc (b : byte).   (* expected frame type acc0/acc1/acc2: %v *)

Definition UnmarshalBinary (m : t) (data : list byte) : outcome (t * option error) :=
  d0 <- index data sampleTypeOffset ;;
  if negb (byte.unsigned d0 =? byte.unsigned AccType) then
    Done (m, Some (ErrExpectedSampleTypeAcc d0))
  else
    d9 <- index data frameTypeOffset ;;
    xyz <- (if byte.unsigned d9 =? byte.unsigned AccFrameType0 then
              bx <- index data dataOffset ;;
              by_ <- index data (dataOffset + 1) ;;
              bz <- index data (dataOffset + 2) ;;
              Done (Some (int8 bx, int8 by_, int8 bz))
            else if byte.unsigned d9 =? byte.unsigned AccFrameType1 then
              sx <- slice_from data dataOffset ;;
              ux <- binary.Uint16 sx ;;
              sy <- slice_from data (dataOffset + uint16Size) ;;
              uy <- binary.Uint16 sy ;;
              sz <- slice_from data (dataOffset + 2 * uint16Size) ;;
              uz <- binary.Uint16 sz ;;
              Done (Some (int16 ux, int16 uy, int16 uz))
            else if byte.unsigned d9 =? byte.unsigned AccFrameType2 then
              sx <- slice_from data dataOffset ;;
              x <- leInt24 sx ;;
              sy <- slice_from data (dataOffset + int24Size) ;;
              y <- leInt24 sy ;;
              sz <- slice_from data (dataOffset + 2 * int24Size) ;;
              z <- leInt24 sz ;;
              Done (Some (x, y, z))
            else Done None) ;;
    match xyz with
    | None => Done (m, Some (ErrExpectedFrameTypeAcc d9))
    | Some (x, y, z) =>
        ts <- slice_from data timeStampOffset ;;
        timestamp <- binary.Uint64 ts ;;
        Done (mk (time.Unix (Z.quot (int64 timestamp) 1000000000 + epoch)
                            (Z.rem (int64 timestamp) 1000000000))
                 x y z,
              None)
    end.
End Acc.

Section AccHandler.
Context {W : Type}.

(** [AccHandler]; [SampleFreq] and [Range] are [uint16]. *)
Record AccHandler : Type := mkAccHandler {
  SampleFreq : Z;
  Range : Z;
  Handler_ : option (handler W)
}.

#[export] Instance AccHandler_Handle : Handler AccHandler :=
  fun h =>
    match Handler_ h with
    | None => (MeasureStop, AccType, [], None)
    | Some _ =>
        (MeasureStart, AccType,
         [ OfUint16 (Uint16.mk SampleRateSetting [SampleFreq h]);
           OfUint16 (Uint16.mk ResolutionSetting [16]);
           OfUint16 (Uint16.mk RangeUnitSetting [Range h]) ],
         Handler_ h)
    end.
End AccHandler.

Arguments AccHandler W : clear implicits.

End pmd.

(** ** Package heart *)

Module heart.

(** [errors.New("no sensor contact")] *)
Inductive error : Type := ErrNoSensorContact.

(** [Rate]; [RR] holds [time.Duration] values, counts of nanoseconds. *)
Record Rate : Type := mkRate {
  HR : Z;
  RR : list Z;
  Energy : Z;
  EnergyExpended : bool;
  Contact : bool;
  ContactSupported : bool
}.

(** The zero [Rate]. *)
Definition zero : Rate := mkRate 0 [] 0 false false false.

(** [for i := 0; i < len(rrData); i += 2 { rr = append(rr, ...) }]; [i]
    grows by two each turn, so [fuel = len(rrData)] turns are enough. *)
Fixpoint intervals (fuel : nat) (rrData : list byte) (i : Z) (rr : list Z)
  : outcome (list Z) :=
  if i <? len rrData then
    match fuel with
    | O => OutOfFuel
    | S fuel =>
        s <- slice_from rrData i ;;
        v <- binary.Uint16 s ;;
        intervals fuel rrData (i + 2) (rr ++ [Z.quot (v * 1000000000) 1024])
    end
  else Done rr.

(** [Rate.UnmarshalBinary] *)
Definition UnmarshalBinary (m : Rate) (data : list byte) : outcome (Rate * option error) :=
  d0 <- index data 0 ;;
  let hrFormat := Z.land (byte.unsigned d0) 1 in
  let contact := Z.land (byte.unsigned d0) 6 =? 6 in
  let contactSupported := negb (Z.land (byte.unsigned d0) 4 =? 0) in
  let energyExpended := negb (Z.land (byte.unsigned d0) 8 =? 0) in
  let rrPresent := negb (Z.land (byte.unsigned d0) 16 =? 0) in
  let offset := 1 in
  if contactSupported && negb contact then
    Done (mkRate 0 [] 0 false false true, Some ErrNoSensorContact)
  else
    hrValue <- (if hrFormat =? 1 then
                  s <- slice_from data offset ;;
                  binary.Uint16 s
                else
                  b <- index data offset ;;
                  Done (byte.unsigned b)) ;;
    let offset := offset + (1 + hrFormat) in
    '(energy, offset) <- (if energyExpended then
                            s <- slice_from data offset ;;
                            e <- binary.Uint16 s ;;
                            Done (e, offset + 2)
                          else Done (-1, offset)) ;;
    rr <- (if rrPresent then
             rrData <- slice_from data offset ;;
             intervals (length rrData) rrData 0 []
           else Done []) ;;
    Done (mkRate hrValue rr energy energyExpended contact contactSupported, None).

End heart.

(** ** Command monitor: the ECG notification handler *)

Module monitor.

(** The state the handler closes over: the skin contact flag [ok], the
    ring [traceRing] and the last timestamp offered on [ecgTick]. *)
Record world : Type := mkWorld {
  ok : bool;
  traceRing : ring.Buffer Z;
  ecgTick : option time.Time
}.

(** The function passed to [SetHandler] as a [pmd.ECGHandler]; a decode
    error is logged and the notification is given up. *)
Definition ecgHandler : pmd.handler world :=
  fun buf w =>
    if negb (ok w) then Done w
    else
      '(ecg, err) <- pmd.ECG.UnmarshalBinary pmd.ECG.zero buf ;;
      match err with
      | Some _ => Done w
      | None =>
          r <- ring.Write (traceRing w) (pmd.ECG.Trace ecg) ;;
          Done (mkWorld (ok w) r (Some (pmd.ECG.Timestamp ecg)))
      end.

End monitor.

(** ** Vocabulary of the statements *)

Definition uint16 (v : Z) : Prop := 0 <= v < 2 ^ 16.
Definition uint32 (v : Z) : Prop := 0 <= v < 2 ^ 32.

(** The [SettingType] tag a setting carries; [setCommand] carries none. *)
Definition setting_type (s : pmd.Setting) : option pmd.SettingType :=
  match s with
  | pmd.OfCommand _ => None
  | pmd.OfUint8 w => Some (pmd.Uint8.Type_ w)
  | pmd.OfUint16 w => Some (pmd.Uint16.Type_ w)
  | pmd.OfFloat32 w => Some (pmd.Float32.Type_ w)
  end.

(** The element count of a setting. *)
Definition setting_count (s : pmd.Setting) : Z :=
  match s with
  | pmd.OfCommand _ => 0
  | pmd.OfUint8 w => len (pmd.Uint8.Val w)
  | pmd.OfUint16 w => len (pmd.Uint16.Val w)
  | pmd.OfFloat32 w => len (pmd.Float32.Val w)
  end.

(** The setting names a [SettingType] of the table, and its kind, element
    count and element width are those the table requires. *)
Definition matches_table (s : pmd.Setting) : bool :=
  let entry (t : pmd.SettingType) (kind n width : Z) :=
    match nth_error pmd.settingTypes (Z.to_nat (byte.unsigned t)) with
    | Some l => (pmd.typ l =? kind) && (pmd.count l =? n) && (pmd.size l =? width)
    | None => false
    end in
  match s with
  | pmd.OfCommand _ => false
  | pmd.OfUint8 w =>
      entry (pmd.Uint8.Type_ w) pmd.uint8Kind (len (pmd.Uint8.Val w)) pmd.uint8Size
  | pmd.OfUint16 w =>
      entry (pmd.Uint16.Type_ w) pmd.uint16Kind (len (pmd.Uint16.Val w)) pmd.uint16Size
  | pmd.OfFloat32 w =>
      entry (pmd.Float32.Type_ w) pmd.float32Kind (len (pmd.Float32.Val w)) pmd.float32Size
  end.

(** Every value of the setting is a value of its Go element type. *)
Definition values_in_range (s : pmd.Setting) : Prop :=
  match s with
  | pmd.OfUint16 w => Forall uint16 (pmd.Uint16.Val w)
  | pmd.OfFloat32 w => Forall (fun f => uint32 (math.bits f)) (pmd.Float32.Val w)
  | _ => True
  end.

(** [UnmarshalBinary] of the setting's own type, on any receiver, returns
    no error and leaves the setting [s] in the receiver. *)
Definition unmarshals_to (data : list byte) (s : pmd.Setting) : Prop :=
  match s with
  | pmd.OfCommand _ => False
  | pmd.OfUint8 w =>
      forall w0, pmd.Uint8.UnmarshalBinary w0 data = Done (w, None)
  | pmd.OfUint16 w =>
      forall w0, pmd.Uint16.UnmarshalBinary w0 data = Done (w, None)
  | pmd.OfFloat32 w =>
      forall w0, pmd.Float32.UnmarshalBinary w0 data = Done (w, None)
  end.

(** The bytes of a setting on the wire: the type tag, the element count
    and the elements, least significant byte first; for [setCommand], the
    command byte and the recording type packed above the measurement type. *)
Definition encoding (s : pmd.Setting) : list byte :=
  match s with
  | pmd.OfCommand w =>
      [ pmd.setCommand.Command_ w;
        byte.of_Z (Z.lor (byte.wrap (Z.shiftl (byte.unsigned (pmd.setCommand.Record_ w)) 7))
                         (byte.unsigned (pmd.setCommand.Measure w))) ]
  | pmd.OfUint8 w =>
      pmd.Uint8.Type_ w :: byte.of_Z (len (pmd.Uint8.Val w)) :: pmd.Uint8.Val w
  | pmd.OfUint16 w =>
      pmd.Uint16.Type_ w :: byte.of_Z (len (pmd.Uint16.Val w))
        :: flat_map (fun v => [byte.of_Z v; byte.of_Z (Z.shiftr v 8)]) (pmd.Uint16.Val w)
  | pmd.OfFloat32 w =>
      pmd.Float32.Type_ w :: byte.of_Z (len (pmd.Float32.Val w))
        :: flat_map (fun f => [ byte.of_Z (math.bits f);
                                byte.of_Z (Z.shiftr (math.bits f) 8);
                                byte.of_Z (Z.shiftr (math.bits f) 16);
                                byte.of_Z (Z.shiftr (math.bits f) 24) ])
                    (pmd.Float32.Val w)
  end.

(** A setting [write] accepts: a [setCommand], or a setting that matches
    the table. *)
Definition encodable (s : pmd.Setting) : bool :=
  match s with
  | pmd.OfCommand _ => true
  | _ => matches_table s
  end.

(** A record too short for [UnmarshalBinary] of elements [width] bytes
    wide: no two-byte header, or fewer bytes than the declared count
    needs. *)
Definition short_record (width : Z) (data : list byte) : bool :=
  match data with
  | _ :: c :: _ => len data <? pmd.headerSize + byte.unsigned c * width
  | _ => true
  end.

(** The byte is a setting type of the table. *)
Definition known_type (b : byte) : bool :=
  match nth_error pmd.settingTypes (Z.to_nat (byte.unsigned b)) with
  | Some l => negb (pmd.typ l =? 0)
  | None => false
  end.

(** A 24-bit pattern read as a two's complement number. *)
Definition signed24 (u : Z) : Z := if u <? 2 ^ 23 then u else u - 2 ^ 24.

(** Three bytes, least significant first, as a signed 24-bit integer. *)
Definition int24 (b0 b1 b2 : byte) : Z :=
  signed24 (byte.unsigned b0 + 2 ^ 8 * byte.unsigned b1 + 2 ^ 16 * byte.unsigned b2).

(** The samples of a trace as the specification describes them: each group
    of three bytes is one signed 24-bit little-endian integer. *)
Fixpoint int24_groups (trace : list byte) : list Z :=
  match trace with
  | b0 :: b1 :: b2 :: trace => int24 b0 b1 b2 :: int24_groups trace
  | _ => []
  end.

(** The unsigned number a sequence of bytes denotes, least significant
    byte first. *)
Definition le_value (bs : list byte) : Z :=
  fold_right (fun b acc => byte.unsigned b + 2 ^ 8 * acc) 0 bs.

(** Nanoseconds in a second. *)
Definition second : Z := 1000000000.

(** A bit of the flags byte of a heart rate measurement, given by its mask. *)
Definition flag (d0 : byte) (mask : Z) : bool :=
  negb (Z.land (byte.unsigned d0) mask =? 0).

(** RR intervals as durations: each pair of bytes is a little-endian count
    of 1/1024 s, converted to whole nanoseconds. *)
Fixpoint rr_intervals (rrData : list byte) : list Z :=
  match rrData with
  | a :: b :: rest => Z.quot (le_value [a; b] * second) 1024 :: rr_intervals rest
  | _ => []
  end.

(** * Properties *)

(** ** Slices *)

Section SliceFacts.
Context {A : Type}.
Implicit Types s dst src : list A.

Lemma len_nonneg s : 0 <= len s.
Proof. unfold len. lia. Qed.

Lemma len_cons a s : len (a :: s) = len s + 1.
Proof. unfold len. cbn [length]. lia. Qed.

Lemma len_app s1 s2 : len (s1 ++ s2) = len s1 + len s2.
Proof. unfold len. rewrite length_app. lia. Qed.

Lemma len_firstn n s : len (firstn n s) = Z.min (Z.of_nat n) (len s).
Proof. unfold len. rewrite length_firstn. lia. Qed.

Lemma len_skipn n s : len (skipn n s) = Z.max 0 (len s - Z.of_nat n).
Proof. unfold len. rewrite length_skipn. lia. Qed.

Lemma index_ok s i :
  0 <= i < len s ->
  index s i = match nth_error s (Z.to_nat i) with
              | Some a => Done a
              | None => Panic IndexOutOfRange
              end.
Proof.
  intros H. unfold index.
  replace (0 <=? i) with true by (symmetry; apply Z.leb_le; lia).
  replace (i <? len s) with true by (symmetry; apply Z.ltb_lt; lia).
  reflexivity.
Qed.

Lemma index_out s i : len s <= i -> index s i = Panic IndexOutOfRange.
Proof.
  intros H. unfold index.
  replace (i <? len s) with false by (symmetry; apply Z.ltb_ge; lia).
  rewrite andb_false_r. reflexivity.
Qed.

Lemma index_nth_error s i a :
  0 <= i -> nth_error s (Z.to_nat i) = Some a -> index s i = Done a.
Proof.
  intros Hi H. rewrite index_ok, H; [reflexivity|].
  assert (Z.to_nat i < length s)%nat by (apply nth_error_Some; congruence).
  unfold len. lia.
Qed.

Lemma slice_ok s lo hi :
  0 <= lo <= hi -> hi <= len s ->
  slice s lo hi = Done (firstn (Z.to_nat (hi - lo)) (skipn (Z.to_nat lo) s)).
Proof.
  intros H1 H2. unfold slice.
  replace (0 <=? lo) with true by (symmetry; apply Z.leb_le; lia).
  replace (lo <=? hi) with true by (symmetry; apply Z.leb_le; lia).
  replace (hi <=? len s) with true by (symmetry; apply Z.leb_le; lia).
  reflexivity.
Qed.

Lemma slice_from_ok s lo :
  0 <= lo <= len s -> slice_from s lo = Done (skipn (Z.to_nat lo) s).
Proof.
  intros H. unfold slice_from. rewrite slice_ok by lia. f_equal.
  apply firstn_all2. rewrite length_skipn. unfold len in *. lia.
Qed.

Lemma slice_from_out s lo :
  len s < lo -> slice_from s lo = Panic SliceBoundsOutOfRange.
Proof.
  intros H. unfold slice_from, slice.
  replace (lo <=? len s) with false by (symmetry; apply Z.leb_gt; lia).
  rewrite andb_false_r. reflexivity.
Qed.

Lemma slice_to_ok s hi :
  0 <= hi <= len s -> slice_to s hi = Done (firstn (Z.to_nat hi) s).
Proof.
  intros H. unfold slice_to. rewrite slice_ok by lia.
  rewrite Z.sub_0_r. reflexivity.
Qed.

Lemma store_ok s i v :
  0 <= i < len s ->
  store s i v = Done (firstn (Z.to_nat i) s ++ v :: skipn (S (Z.to_nat i)) s).
Proof.
  intros H. unfold store.
  replace (0 <=? i) with true by (symmetry; apply Z.leb_le; lia).
  replace (i <? len s) with true by (symmetry; apply Z.ltb_lt; lia).
  reflexivity.
Qed.

Lemma len_store s i v s' : store s i v = Done s' -> len s' = len s.
Proof.
  unfold store. destruct (0 <=? i) eqn:H0; [|discriminate].
  destruct (i <? len s) eqn:H1; [|discriminate]. cbn [andb].
  intros E.
  assert (s' = firstn (Z.to_nat i) s ++ v :: skipn (S (Z.to_nat i)) s)
    as -> by congruence.
  apply Z.leb_le in H0. apply Z.ltb_lt in H1.
  rewrite len_app, len_cons, len_firstn, len_skipn. lia.
Qed.

Lemma firstn_app_split n m s1 s2 :
  (n <= length s1)%nat -> (n < length s1 -> m = 0)%nat ->
  firstn (n + m) (s1 ++ s2) = firstn n s1 ++ firstn m s2.
Proof.
  intros Hn Hm. rewrite firstn_app.
  destruct (Nat.eq_dec n (length s1)) as [->|Hne].
  - rewrite firstn_all2 by lia. rewrite (firstn_all2 (n := length s1)) by lia.
    f_equal. f_equal. lia.
  - assert (m = 0)%nat as -> by lia.
    rewrite Nat.add_0_r. replace (n - length s1)%nat with 0%nat by lia.
    reflexivity.
Qed.
End SliceFacts.

(** Side conditions on the length of a list given by its first cells. *)
Ltac len_side := unfold len in *; cbn [length] in *; lia.

(** ** The ring buffer *)

Import ring.

Section RingFacts.
Context {T : Type}.
Implicit Types (r : Buffer T) (dst : list T).

Lemma CopyTo_unwrapped r dst :
  wf r -> head r < tail r ->
  CopyTo r dst =
    let n := Z.min (len dst) (Len r) in
    Done (r, firstn (Z.to_nat n) (valid_span r) ++ skipn (Z.to_nat n) dst, n).
Proof.
  intros [Hh Ht] Hlt. unfold CopyTo, Len, valid_span.
  replace (head r <? tail r) with true by (symmetry; apply Z.ltb_lt; lia).
  replace (head r <=? tail r) with true by (symmetry; apply Z.leb_le; lia).
  rewrite slice_ok by lia. cbn [bind]. unfold copy.
  rewrite len_firstn, len_skipn.
  replace (Z.min (len dst) (Z.min (Z.of_nat (Z.to_nat (tail r - head r)))
                                  (Z.max 0 (len (data r) - Z.of_nat (Z.to_nat (head r))))))
    with (Z.min (len dst) (tail r - head r)) by lia.
  reflexivity.
Qed.

Lemma CopyTo_wrapped r dst :
  wf r -> tail r < head r ->
  CopyTo r dst =
    let n := Z.min (len dst) (Len r) in
    Done (r, firstn (Z.to_nat n) (valid_span r) ++ skipn (Z.to_nat n) dst, n).
Proof.
  intros [Hh Ht] Hlt. unfold CopyTo, Len, valid_span.
  replace (head r <? tail r) with false by (symmetry; apply Z.ltb_ge; lia).
  replace (head r <=? tail r) with false by (symmetry; apply Z.leb_gt; lia).
  rewrite slice_from_ok by lia. cbn [bind]. unfold copy at 1.
  set (s1 := skipn (Z.to_nat (head r)) (data r)).
  assert (Hs1 : len s1 = len (data r) - head r)
    by (unfold s1; rewrite len_skipn; lia).
  set (n := Z.min (len dst) (len s1)).
  set (dst1 := firstn (Z.to_nat n) s1 ++ skipn (Z.to_nat n) dst).
  pose proof (len_nonneg dst) as Hd.
  assert (Hn1 : len (firstn (Z.to_nat n) s1) = n)
    by (rewrite len_firstn; lia).
  assert (Hdst1 : len dst1 = len dst)
    by (unfold dst1; rewrite len_app, Hn1, len_skipn; lia).
  rewrite slice_from_ok by lia. cbn [bind].
  rewrite slice_to_ok by lia. cbn [bind]. unfold copy, splice.
  assert (Hpre : firstn (Z.to_nat n) dst1 = firstn (Z.to_nat n) s1).
  { unfold dst1. rewrite firstn_app.
    replace (Z.to_nat n - length (firstn (Z.to_nat n) s1))%nat with 0%nat
      by (unfold len in Hn1; lia).
    cbn [firstn]. rewrite app_nil_r. apply firstn_all2.
    unfold len in Hn1. lia. }
  assert (Hsuf : skipn (Z.to_nat n) dst1 = skipn (Z.to_nat n) dst).
  { unfold dst1. rewrite skipn_app.
    replace (Z.to_nat n - length (firstn (Z.to_nat n) s1))%nat with 0%nat
      by (unfold len in Hn1; lia).
    cbn [skipn]. rewrite skipn_all2 by (unfold len in Hn1; lia).
    reflexivity. }
  rewrite Hpre, Hsuf.
  set (s2 := firstn (Z.to_nat (tail r)) (data r)).
  assert (Hs2 : len s2 = tail r) by (unfold s2; rewrite len_firstn; lia).
  rewrite len_skipn, Hs2.
  set (m := Z.min (Z.max 0 (len dst - Z.of_nat (Z.to_nat n))) (tail r)).
  assert (Hnm : n + m = Z.min (len dst) (len (data r) - head r + tail r))
    by (unfold m, n; lia).
  cbv zeta. rewrite <- Hnm. f_equal. f_equal.
  rewrite skipn_skipn.
  replace (Z.to_nat (n + m)) with (Z.to_nat n + Z.to_nat m)%nat by lia.
  rewrite firstn_app_split.
  - rewrite <- app_assoc.
    replace (Z.to_nat m + Z.to_nat n)%nat with (Z.to_nat n + Z.to_nat m)%nat by lia.
    reflexivity.
  - subst n. unfold len in *. lia.
  - subst m n. unfold len in *. lia.
Qed.

Lemma CopyTo_same_buffer r dst r' dst' n :
  CopyTo r dst = Done (r', dst', n) -> r' = r.
Proof.
  unfold CopyTo. destruct (head r <? tail r).
  - destruct (slice _ _ _); cbn [bind]; try discriminate.
    destruct (copy dst a). intros E. injection E as <- _ _. reflexivity.
  - destruct (slice_from _ _); cbn [bind]; try discriminate.
    destruct (copy dst a) as [dst1 k].
    destruct (slice_from dst1 k); cbn [bind]; try discriminate.
    destruct (slice_to _ _); cbn [bind]; try discriminate.
    destruct (copy a0 a1). intros E. injection E as <- _ _. reflexivity.
Qed.

Lemma CopyTo_from_head r dst :
  wf r -> tail r <= head r ->
  CopyTo r dst =
    let span := skipn (Z.to_nat (head r)) (data r)
                ++ firstn (Z.to_nat (tail r)) (data r) in
    let n := Z.min (len dst) (len (data r) - head r + tail r) in
    Done (r, firstn (Z.to_nat n) span ++ skipn (Z.to_nat n) dst, n).
Proof.
  intros [Hh Ht] Hle. unfold CopyTo.
  replace (head r <? tail r) with false by (symmetry; apply Z.ltb_ge; lia).
  rewrite slice_from_ok by lia. cbn [bind]. unfold copy at 1.
  set (s1 := skipn (Z.to_nat (head r)) (data r)).
  assert (Hs1 : len s1 = len (data r) - head r)
    by (unfold s1; rewrite len_skipn; lia).
  set (n := Z.min (len dst) (len s1)).
  set (dst1 := firstn (Z.to_nat n) s1 ++ skipn (Z.to_nat n) dst).
  pose proof (len_nonneg dst) as Hd.
  assert (Hn1 : len (firstn (Z.to_nat n) s1) = n)
    by (rewrite len_firstn; lia).
  assert (Hdst1 : len dst1 = len dst)
    by (unfold dst1; rewrite len_app, Hn1, len_skipn; lia).
  rewrite slice_from_ok by lia. cbn [bind].
  rewrite slice_to_ok by lia. cbn [bind]. unfold copy, splice.
  assert (Hpre : firstn (Z.to_nat n) dst1 = firstn (Z.to_nat n) s1).
  { unfold dst1. rewrite firstn_app.
    replace (Z.to_nat n - length (firstn (Z.to_nat n) s1))%nat with 0%nat
      by (unfold len in Hn1; lia).
    cbn [firstn]. rewrite app_nil_r. apply firstn_all2.
    unfold len in Hn1. lia. }
  assert (Hsuf : skipn (Z.to_nat n) dst1 = skipn (Z.to_nat n) dst).
  { unfold dst1. rewrite skipn_app.
    replace (Z.to_nat n - length (firstn (Z.to_nat n) s1))%nat with 0%nat
      by (unfold len in Hn1; lia).
    cbn [skipn]. rewrite skipn_all2 by (unfold len in Hn1; lia).
    reflexivity. }
  rewrite Hpre, Hsuf.
  set (s2 := firstn (Z.to_nat (tail r)) (data r)).
  assert (Hs2 : len s2 = tail r) by (unfold s2; rewrite len_firstn; lia).
  rewrite len_skipn, Hs2.
  set (m := Z.min (Z.max 0 (len dst - Z.of_nat (Z.to_nat n))) (tail r)).
  assert (Hnm : n + m = Z.min (len dst) (len (data r) - head r + tail r))
    by (unfold m, n; lia).
  cbv zeta. rewrite <- Hnm. f_equal. f_equal.
  rewrite skipn_skipn.
  replace (Z.to_nat (n + m)) with (Z.to_nat n + Z.to_nat m)%nat by lia.
  rewrite firstn_app_split.
  - rewrite <- app_assoc.
    replace (Z.to_nat m + Z.to_nat n)%nat with (Z.to_nat n + Z.to_nat m)%nat by lia.
    reflexivity.
  - subst n. unfold len in *. lia.
  - subst m n. unfold len in *. lia.
Qed.
End RingFacts.

(** C2, as the code has it: in a buffer of capacity 4 that holds [1,2,3]
    after [Write([1,2])] and [Write([3])] (head 0, tail 3), [Write([4,5,6])]
    leaves the backing array [5,6,3,4] with head 2 and tail 2; [CopyTo] then
    yields [3,4,5,6], oldest first. *)
Theorem Write_456_overwrites_two :
  let r := mkBuffer [1; 2; 3; 0] 0 3 in
  (r0 <- Write (NewBuffer 0 4) [1; 2] ;; Write r0 [3]) = Done r /\
  Write r [4; 5; 6] = Done (mkBuffer [5; 6; 3; 4] 2 2) /\
  CopyTo (mkBuffer [5; 6; 3; 4] 2 2) [0; 0; 0; 0]
    = Done (mkBuffer [5; 6; 3; 4] 2 2, [3; 4; 5; 6], 4).
Proof. repeat split; vm_compute; reflexivity. Qed.

(** C2 as stated fails: the write does not leave [5,2,3,4] with head 1 and
    tail 1. *)
Lemma Write_456_counterexample :
  let r := mkBuffer [1; 2; 3; 0] 0 3 in
  (r0 <- Write (NewBuffer 0 4) [1; 2] ;; Write r0 [3]) = Done r /\
  Write r [4; 5; 6] <> Done (mkBuffer [5; 2; 3; 4] 1 1).
Proof. split; vm_compute; [reflexivity | discriminate]. Qed.

(** C3, as the code has it: for every buffer whose cursors lie within the
    backing array, [CopyTo] returns and leaves the buffer as it was.  When
    [head] and [tail] differ it copies exactly [min(len(dst), Len())]
    elements of the valid span, oldest first, and returns that count.  When
    they are equal it reads the buffer as full: it copies
    [min(len(dst), Size())] elements, from [head] to the end of the array
    and then from its start up to [head], and returns that count. *)
Theorem CopyTo_copies_valid_span {T : Type} (r : Buffer T) (dst : list T) :
  wf r ->
  exists dst' n,
    CopyTo r dst = Done (r, dst', n) /\
    (head r <> tail r ->
     n = Z.min (len dst) (Len r) /\
     dst' = firstn (Z.to_nat n) (valid_span r) ++ skipn (Z.to_nat n) dst) /\
    (head r = tail r ->
     n = Z.min (len dst) (ring.Size r) /\
     dst' = firstn (Z.to_nat n)
              (skipn (Z.to_nat (head r)) (data r)
               ++ firstn (Z.to_nat (head r)) (data r))
            ++ skipn (Z.to_nat n) dst).
Proof.
  intros Hwf.
  destruct (Z.lt_trichotomy (head r) (tail r)) as [Hlt | [Heq | Hgt]].
  - rewrite CopyTo_unwrapped by assumption. cbv zeta.
    do 2 eexists. split; [reflexivity|]. split; [auto | intros; lia].
  - rewrite CopyTo_from_head by (assumption || lia). cbv zeta.
    do 2 eexists. split; [reflexivity|]. split; [intros; contradiction|].
    intros _. unfold ring.Size. rewrite <- Heq.
    replace (len (data r) - head r + head r) with (len (data r)) by lia.
    split; reflexivity.
  - rewrite CopyTo_wrapped by assumption. cbv zeta.
    do 2 eexists. split; [reflexivity|]. split; [auto | intros; lia].
Qed.

Lemma CopyTo_copies_valid_span_witness :
  let instance (r : Buffer Z) (dst : list Z) :=
    wf r /\
    exists dst' n,
      CopyTo r dst = Done (r, dst', n) /\
      (head r <> tail r ->
       n = Z.min (len dst) (Len r) /\
       dst' = firstn (Z.to_nat n) (valid_span r) ++ skipn (Z.to_nat n) dst) /\
      (head r = tail r ->
       n = Z.min (len dst) (ring.Size r) /\
       dst' = firstn (Z.to_nat n)
                (skipn (Z.to_nat (head r)) (data r)
                 ++ firstn (Z.to_nat (head r)) (data r))
              ++ skipn (Z.to_nat n) dst) in
  instance (mkBuffer [5; 2; 3; 4] 2 1) [0; 0] /\
  instance (mkBuffer [5; 2; 3; 4] 1 1) [0; 0; 0; 0; 0].
Proof.
  intros instance.
  assert (H1 : wf (mkBuffer [5; 2; 3; 4] 2 1)) by (unfold wf; cbn; lia).
  assert (H2 : wf (mkBuffer [5; 2; 3; 4] 1 1)) by (unfold wf; cbn; lia).
  split; (split; [assumption|]).
  - exact (CopyTo_copies_valid_span (mkBuffer [5; 2; 3; 4] 2 1) [0; 0] H1).
  - exact (CopyTo_copies_valid_span (mkBuffer [5; 2; 3; 4] 1 1) [0; 0; 0; 0; 0] H2).
Defined.

(** C3 as stated fails on a new buffer: [Len()] is 0, yet [CopyTo] copies
    four elements. *)
Lemma CopyTo_new_buffer_counterexample :
  let r := NewBuffer 0 4 in
  let dst := [9; 9; 9; 9] in
  Len r = 0 /\
  CopyTo r dst = Done (r, [0; 0; 0; 0], 4) /\
  4 <> Z.min (len dst) (Len r).
Proof. repeat split; vm_compute; congruence. Qed.

(** The branch of [Advance] for [head < tail] does clamp: the head stops at
    the tail. *)
Lemma Advance_unwrapped_clamped {T : Type} (r : Buffer T) (n : Z) :
  head r < tail r -> 0 <= n ->
  Len (Advance r n) = Z.max (Len r - n) 0 /\ tail (Advance r n) = tail r.
Proof.
  intros Hlt Hn. unfold Advance, Len.
  replace (head r <? tail r) with true by (symmetry; apply Z.ltb_lt; lia).
  cbn [head tail data].
  replace (head r <=? tail r) with true by (symmetry; apply Z.leb_le; lia).
  replace (head r + Z.min n (tail r - head r) <=? tail r) with true
    by (symmetry; apply Z.leb_le; lia).
  lia.
Qed.

(** C4 on the code: in the wrapped, partially filled buffer that
    [Write([1,2,3,4])], [Advance(2)], [Write([5])] leave (head 2, tail 1,
    three valid elements), [Advance(4)] leaves the head at 2 and [Len()] at
    3, and [Advance(10)] sets the head to 8, outside the array of four, after
    which [Len()] is -3 and [CopyTo] panics. *)
Theorem Advance_wrapped_not_clamped :
  let r := mkBuffer [5; 2; 3; 4] 2 1 in
  (r0 <- Write (NewBuffer 0 4) [1; 2; 3; 4] ;; Write (Advance r0 2) [5]) = Done r /\
  Len r = 3 /\
  Advance r 4 = mkBuffer [5; 2; 3; 4] 2 1 /\
  Len (Advance r 4) = 3 /\
  Advance r 10 = mkBuffer [5; 2; 3; 4] 8 1 /\
  Len (Advance r 10) = -3 /\
  CopyTo (Advance r 10) [0; 0; 0; 0] = Panic SliceBoundsOutOfRange.
Proof. repeat split; vm_compute; reflexivity. Qed.

(** ** Little-endian reads and writes on a slice given by its first cells *)

Import pmd.

#[local] Arguments byte.unsigned : simpl never.
#[local] Arguments byte.of_Z : simpl never.
#[local] Arguments byte.wrap : simpl never.
#[local] Arguments Z.shiftl : simpl never.
#[local] Arguments Z.shiftr : simpl never.
#[local] Arguments Z.lor : simpl never.

(** Evaluation of indexing, slicing and storing on a list whose first cells
    are given. *)
Ltac closed_positive p :=
  lazymatch p with
  | xH => idtac
  | xO ?q => closed_positive q
  | xI ?q => closed_positive q
  end.

Ltac nat_consts :=
  repeat match goal with
    | |- context [Pos.to_nat ?p] =>
        closed_positive p;
        let n := eval vm_compute in (Pos.to_nat p) in
        change (Pos.to_nat p) with n
    | |- context [Z.to_nat (Z.pos ?p)] =>
        closed_positive p;
        let n := eval vm_compute in (Pos.to_nat p) in
        change (Z.to_nat (Z.pos p)) with n
    | |- context [Z.to_nat 0] => change (Z.to_nat 0) with 0%nat
    end.

Ltac go_eval :=
  repeat (first
    [ progress nat_consts
    | rewrite index_ok by len_side
    | rewrite store_ok by len_side
    | rewrite slice_from_ok by len_side
    | rewrite slice_to_ok by len_side
    | rewrite slice_ok by len_side
    | progress cbn ]).

Section BinaryFacts.
Implicit Types (a b c d : byte) (rest : list byte).

Lemma Uint16_cons a b rest :
  binary.Uint16 (a :: b :: rest)
  = Done (Z.lor (byte.unsigned a) (Z.shiftl (byte.unsigned b) 8)).
Proof. unfold binary.Uint16. go_eval. reflexivity. Qed.

Lemma PutUint16_cons a b rest v :
  binary.PutUint16 (a :: b :: rest) v
  = Done (byte.of_Z v :: byte.of_Z (Z.shiftr v 8) :: rest).
Proof. unfold binary.PutUint16. go_eval. reflexivity. Qed.

Lemma Uint32_cons a b c d rest :
  binary.Uint32 (a :: b :: c :: d :: rest)
  = Done (Z.lor (Z.lor (Z.lor (byte.unsigned a)
                              (Z.shiftl (byte.unsigned b) 8))
                       (Z.shiftl (byte.unsigned c) 16))
                (Z.shiftl (byte.unsigned d) 24)).
Proof. unfold binary.Uint32. go_eval. reflexivity. Qed.

Lemma PutUint32_cons a b c d rest v :
  binary.PutUint32 (a :: b :: c :: d :: rest) v
  = Done (byte.of_Z v :: byte.of_Z (Z.shiftr v 8) :: byte.of_Z (Z.shiftr v 16)
            :: byte.of_Z (Z.shiftr v 24) :: rest).
Proof. unfold binary.PutUint32. go_eval. reflexivity. Qed.

Lemma Uint64_cons b0 b1 b2 b3 b4 b5 b6 b7 rest :
  binary.Uint64 (b0 :: b1 :: b2 :: b3 :: b4 :: b5 :: b6 :: b7 :: rest)
  = Done (Z.lor (Z.lor (Z.lor (Z.lor (Z.lor (Z.lor (Z.lor
            (byte.unsigned b0)
            (Z.shiftl (byte.unsigned b1) 8))
            (Z.shiftl (byte.unsigned b2) 16))
            (Z.shiftl (byte.unsigned b3) 24))
            (Z.shiftl (byte.unsigned b4) 32))
            (Z.shiftl (byte.unsigned b5) 40))
            (Z.shiftl (byte.unsigned b6) 48))
            (Z.shiftl (byte.unsigned b7) 56)).
Proof. unfold binary.Uint64. go_eval. reflexivity. Qed.

Lemma leInt24_cons a b c :
  leInt24 [a; b; c]
  = Done (Z.lor (Z.lor (byte.unsigned a) (Z.shiftl (byte.unsigned b) 8))
                (Z.shiftl (int8 c) 16)).
Proof. unfold leInt24. go_eval. reflexivity. Qed.
End BinaryFacts.

(** ** The control point exchange *)

(** C5 on the code: when the context is done and no notification was
    delivered, [querySettings] returns the short-response error with the
    empty response, whichever error the context holds; [ctx.Err()] is
    assigned and not returned. *)
Theorem querySettings_no_response_is_short_response :
  forall (e : ctx_error) (com : Command) (rec : RecordingType) (measure : MeasureType),
    querySettings (fun _ => CtxDone e []) com rec measure
    = Done ([], Some (ErrShortResponse [])).
Proof.
  intros. unfold querySettings, setCommand.write. go_eval. reflexivity.
Qed.

(** ** The listener *)

Section ListenerFacts.
Context {W : Type}.
Implicit Types (l : Listener W) (w : W).

Lemma dispatch_out_of_range l b rest w :
  len (handlers l) <= byte.unsigned b ->
  dispatch l (b :: rest) w = Panic IndexOutOfRange.
Proof.
  intros H. unfold dispatch.
  replace (len (b :: rest) =? 0) with false
    by (symmetry; apply Z.eqb_neq; rewrite len_cons; pose proof (len_nonneg rest); lia).
  unfold sampleTypeOffset. go_eval.
  rewrite index_out by assumption. reflexivity.
Qed.

Lemma dispatch_empty l w : dispatch l [] w = Done w.
Proof. reflexivity. Qed.

Lemma index_store_same {A} (s : list A) i v s' :
  store s i v = Done s' -> index s' i = Done v.
Proof.
  intros E. pose proof (len_store _ _ _ _ E) as Hl. revert E.
  unfold store. destruct (0 <=? i) eqn:H0; [|discriminate].
  destruct (i <? len s) eqn:H1; [|discriminate]. cbn [andb].
  apply Z.leb_le in H0. apply Z.ltb_lt in H1. intros E.
  apply index_nth_error; [assumption|].
  assert (s' = firstn (Z.to_nat i) s ++ v :: skipn (S (Z.to_nat i)) s)
    as -> by congruence.
  rewrite nth_error_app2 by (rewrite length_firstn; unfold len in *; lia).
  rewrite length_firstn.
  replace (Z.to_nat i - Nat.min (Z.to_nat i) (length s))%nat with 0%nat
    by (unfold len in *; lia).
  reflexivity.
Qed.

Lemma index_store_other {A} (s : list A) i j v s' :
  store s i v = Done s' -> j <> i -> index s' j = index s j.
Proof.
  intros E Hne. pose proof (len_store _ _ _ _ E) as Hl. revert E.
  unfold store. destruct (0 <=? i) eqn:H0; [|discriminate].
  destruct (i <? len s) eqn:H1; [|discriminate]. cbn [andb].
  apply Z.leb_le in H0. apply Z.ltb_lt in H1. intros E.
  unfold index. rewrite Hl.
  destruct ((0 <=? j) && (j <? len s)) eqn:Hj; [|reflexivity].
  apply andb_prop in Hj. destruct Hj as [Hj0 Hj1].
  apply Z.leb_le in Hj0. apply Z.ltb_lt in Hj1.
  assert (s' = firstn (Z.to_nat i) s ++ v :: skipn (S (Z.to_nat i)) s)
    as -> by congruence.
  assert (Hlen : length (firstn (Z.to_nat i) s) = Z.to_nat i)
    by (rewrite length_firstn; unfold len in *; lia).
  replace (nth_error s (Z.to_nat j))
    with (nth_error (firstn (Z.to_nat i) s ++ skipn (Z.to_nat i) s) (Z.to_nat j))
    by (rewrite firstn_skipn; reflexivity).
  destruct (Z_lt_le_dec j i) as [Hlt | Hge].
  - rewrite !nth_error_app1 by lia. reflexivity.
  - rewrite !nth_error_app2 by lia. rewrite Hlen.
    destruct (Z.to_nat j - Z.to_nat i)%nat as [|k] eqn:Hk; [lia|].
    change (nth_error (v :: skipn (S (Z.to_nat i)) s) (S k))
      with (nth_error (skipn (S (Z.to_nat i)) s) k).
    rewrite !nth_error_skipn.
    replace (S (Z.to_nat i) + k)%nat with (Z.to_nat i + S k)%nat by lia.
    reflexivity.
Qed.
End ListenerFacts.

(** C1 on the code: a notification whose leading byte is 13 makes
    [dispatch] index past the [handlers] array and panic; [ECG.UnmarshalBinary]
    panics on a payload shorter than its header; and once the monitor's ECG
    handler is installed, [dispatch] of the three-byte payload [0,1,2] panics
    inside it.  An empty payload is dropped. *)
Theorem dispatch_and_decoder_panic :
  let l := mkListener (Byte.x0f, Byte.x05) (@no_handlers monitor.world) in
  let w := monitor.mkWorld true (NewBuffer 0 390) None in
  let dev : exchange := fun _ => Notified [Byte.xf0; Byte.x02; Byte.x00; Byte.x00; Byte.x00] in
  let l' := fst (SetHandler dev l (Some monitor.ecgHandler : ECGHandler monitor.world)) in
  len (handlers l) = measurementTypes /\
  dispatch l [] w = Done w /\
  dispatch l [Byte.x0d] w = Panic IndexOutOfRange /\
  ECG.UnmarshalBinary ECG.zero [Byte.x00] = Panic IndexOutOfRange /\
  ECG.UnmarshalBinary ECG.zero [] = Panic IndexOutOfRange /\
  dispatch l' [Byte.x0d] w = Panic IndexOutOfRange /\
  dispatch l' [Byte.x00; Byte.x01; Byte.x02] w = Panic IndexOutOfRange.
Proof. repeat split; vm_compute; reflexivity. Qed.

(** C10: for a measurement type within the [handlers] array, [SetHandler]
    leaves the function returned by [Handle] in that slot and every other
    slot (and the features) as they were, whatever [sendCommand] returns,
    and what it returns is what [sendCommand] returns. *)
Theorem SetHandler_stores_before_send {W H : Type} `{Handler W H}
    (dev : exchange) (l : Listener W) (h : H)
    (com : Command) (measureTyp : MeasureType) (settings : list Setting)
    (handle : option (handler W)) :
  Handle h = (com, measureTyp, settings, handle) ->
  len (handlers l) = measurementTypes ->
  byte.unsigned measureTyp < measurementTypes ->
  let l' := fst (SetHandler dev l h) in
  index (handlers l') (byte.unsigned measureTyp) = Done handle /\
  (forall i, i <> byte.unsigned measureTyp ->
             index (handlers l') i = index (handlers l) i) /\
  len (handlers l') = measurementTypes /\
  features l' = features l /\
  snd (SetHandler dev l h) = sendCommand dev com Online measureTyp settings.
Proof.
  intros HH Hlen Hm. unfold SetHandler. rewrite HH.
  replace (len (handlers l) <=? byte.unsigned measureTyp) with false
    by (symmetry; apply Z.leb_gt; lia).
  pose proof (byte.unsigned_range measureTyp) as Hr.
  destruct (store (handlers l) (byte.unsigned measureTyp) handle) as [hs | p |] eqn:E;
    try (rewrite store_ok in E by lia; discriminate).
  cbn [fst snd handlers features].
  repeat split.
  - eapply index_store_same; eassumption.
  - intros i Hi. eapply index_store_other; eassumption.
  - erewrite len_store by eassumption. assumption.
Qed.

Lemma SetHandler_stores_before_send_witness :
  let l := mkListener (Byte.x0f, Byte.x05) (@no_handlers monitor.world) in
  let h : ECGHandler monitor.world := Some monitor.ecgHandler in
  let dev : exchange := fun _ => CtxDone DeadlineExceeded [] in
  let l' := fst (SetHandler dev l h) in
  snd (SetHandler dev l h) = Done ([], Some (ErrContext DeadlineExceeded)) /\
  index (handlers l') (byte.unsigned ECGType) = Done (Some monitor.ecgHandler) /\
  (forall i, i <> byte.unsigned ECGType -> index (handlers l') i = index (handlers l) i).
Proof.
  intros l h dev l'.
  split; [vm_compute; reflexivity|].
  destruct (SetHandler_stores_before_send dev l h
              MeasureStart ECGType
              [ OfUint16 (Uint16.mk SampleRateSetting [ECGSampleFreq]);
                OfUint16 (Uint16.mk ResolutionSetting [ECGResolution]) ]
              (Some monitor.ecgHandler))
    as (Hslot & Hother & _).
  - reflexivity.
  - reflexivity.
  - vm_compute. reflexivity.
  - split; [exact Hslot | exact Hother].
Defined.

(** ** The setting codec *)

Section SettingFacts.

Lemma index_0 {A} (a : A) s : index (a :: s) 0 = Done a.
Proof. rewrite index_ok by len_side. reflexivity. Qed.

Lemma index_1 {A} (a b : A) s : index (a :: b :: s) 1 = Done b.
Proof. rewrite index_ok by len_side. reflexivity. Qed.

Lemma slice_from_2 {A} (a b : A) s : slice_from (a :: b :: s) 2 = Done s.
Proof. rewrite slice_from_ok by len_side. reflexivity. Qed.

Lemma slice_from_4 {A} (a b c d : A) s :
  slice_from (a :: b :: c :: d :: s) 4 = Done s.
Proof. rewrite slice_from_ok by len_side. reflexivity. Qed.

Lemma settingTypes_index t l :
  nth_error settingTypes (Z.to_nat (byte.unsigned t)) = Some l ->
  (len settingTypes <=? byte.unsigned t) = false /\
  index settingTypes (byte.unsigned t) = Done l.
Proof.
  intros E. pose proof (byte.unsigned_range t) as Hr.
  assert (Z.to_nat (byte.unsigned t) < length settingTypes)%nat
    by (apply nth_error_Some; congruence).
  split.
  - apply Z.leb_gt. unfold len. lia.
  - apply index_nth_error; [lia | assumption].
Qed.

Lemma Uint8_write_count_mismatch w l dst :
  nth_error settingTypes (Z.to_nat (byte.unsigned (Uint8.Type_ w))) = Some l ->
  count l <> len (Uint8.Val w) ->
  Uint8.write w dst = Done (dst, 0, Some (ErrInvalidSettingType (Uint8.Type_ w))).
Proof.
  intros E Hc. destruct (settingTypes_index _ _ E) as [H1 H2].
  unfold Uint8.write. rewrite H1, H2. cbn [bind].
  replace (count l =? len (Uint8.Val w)) with false
    by (symmetry; apply Z.eqb_neq; assumption).
  reflexivity.
Qed.

Lemma Uint16_write_count_mismatch w l dst :
  nth_error settingTypes (Z.to_nat (byte.unsigned (Uint16.Type_ w))) = Some l ->
  count l <> len (Uint16.Val w) ->
  Uint16.write w dst = Done (dst, 0, Some (ErrInvalidSettingType (Uint16.Type_ w))).
Proof.
  intros E Hc. destruct (settingTypes_index _ _ E) as [H1 H2].
  unfold Uint16.write. rewrite H1, H2. cbn [bind].
  replace (count l =? len (Uint16.Val w)) with false
    by (symmetry; apply Z.eqb_neq; assumption).
  reflexivity.
Qed.

Lemma Float32_write_count_mismatch w l dst :
  nth_error settingTypes (Z.to_nat (byte.unsigned (Float32.Type_ w))) = Some l ->
  count l <> len (Float32.Val w) ->
  Float32.write w dst = Done (dst, 0, Some (ErrInvalidSettingType (Float32.Type_ w))).
Proof.
  intros E Hc. destruct (settingTypes_index _ _ E) as [H1 H2].
  unfold Float32.write. rewrite H1, H2. cbn [bind].
  replace (count l =? len (Float32.Val w)) with false
    by (symmetry; apply Z.eqb_neq; assumption).
  reflexivity.
Qed.

Lemma Uint16_get_all_total n : forall data,
  2 * Z.of_nat n <= len data ->
  exists val, Uint16.get_all n data = Done val /\ length val = n.
Proof.
  induction n as [|n IH]; intros data Hd.
  - exists []. split; reflexivity.
  - destruct data as [|a [|b rest]]; try (exfalso; len_side).
    cbn [Uint16.get_all]. rewrite Uint16_cons. cbn [bind].
    unfold uint16Size. rewrite slice_from_2. cbn [bind].
    destruct (IH rest) as (val & E & Hl); [len_side|].
    rewrite E. cbn [bind]. eexists. split; [reflexivity|].
    cbn [length]. congruence.
Qed.

Lemma Float32_get_all_total n : forall data,
  4 * Z.of_nat n <= len data ->
  exists val, Float32.get_all n data = Done val /\ length val = n.
Proof.
  induction n as [|n IH]; intros data Hd.
  - exists []. split; reflexivity.
  - destruct data as [|a [|b [|c [|d rest]]]]; try (exfalso; len_side).
    cbn [Float32.get_all]. rewrite Uint32_cons. cbn [bind].
    unfold float32Size. rewrite slice_from_4. cbn [bind].
    destruct (IH rest) as (val & E & Hl); [len_side|].
    rewrite E. cbn [bind]. eexists. split; [reflexivity|].
    cbn [length]. congruence.
Qed.

Lemma Uint8_UnmarshalBinary_any_count w t c rest :
  byte.unsigned c <= len rest ->
  exists val, Uint8.UnmarshalBinary w (t :: c :: rest) = Done (Uint8.mk t val, None)
              /\ len val = byte.unsigned c.
Proof.
  intros Hc. pose proof (byte.unsigned_range c) as Hr.
  unfold Uint8.UnmarshalBinary, Uint8.size, headerSize, uint8Size.
  replace (len (t :: c :: rest) <? 2) with false
    by (symmetry; apply Z.ltb_ge; len_side).
  rewrite index_1. cbn [bind].
  replace (len (t :: c :: rest) <? 2 + byte.unsigned c * 1) with false
    by (symmetry; apply Z.ltb_ge; len_side).
  rewrite index_0, slice_from_2. cbn [bind]. eexists. split; [reflexivity|].
  unfold copy. cbn [fst]. rewrite len_app, len_firstn, len_skipn.
  assert (len (repeat Byte.x00 (Z.to_nat (byte.unsigned c))) = byte.unsigned c)
    as -> by (unfold len; rewrite repeat_length; lia).
  lia.
Qed.

Lemma Uint16_UnmarshalBinary_any_count w t c rest :
  2 * byte.unsigned c <= len rest ->
  exists val, Uint16.UnmarshalBinary w (t :: c :: rest) = Done (Uint16.mk t val, None)
              /\ len val = byte.unsigned c.
Proof.
  intros Hc. pose proof (byte.unsigned_range c) as Hr.
  unfold Uint16.UnmarshalBinary, Uint16.size, headerSize, uint16Size.
  replace (len (t :: c :: rest) <? 2) with false
    by (symmetry; apply Z.ltb_ge; len_side).
  rewrite index_1. cbn [bind].
  replace (len (t :: c :: rest) <? 2 + byte.unsigned c * 2) with false
    by (symmetry; apply Z.ltb_ge; len_side).
  rewrite index_0, slice_from_2. cbn [bind].
  destruct (Uint16_get_all_total (Z.to_nat (byte.unsigned c)) rest) as (val & E & Hl);
    [lia|].
  rewrite E. cbn [bind]. exists val. split; [reflexivity|]. unfold len. lia.
Qed.

Lemma Float32_UnmarshalBinary_any_count w t c rest :
  4 * byte.unsigned c <= len rest ->
  exists val, Float32.UnmarshalBinary w (t :: c :: rest) = Done (Float32.mk t val, None)
              /\ len val = byte.unsigned c.
Proof.
  intros Hc. pose proof (byte.unsigned_range c) as Hr.
  unfold Float32.UnmarshalBinary, Float32.size, headerSize, float32Size.
  replace (len (t :: c :: rest) <? 2) with false
    by (symmetry; apply Z.ltb_ge; len_side).
  rewrite index_1. cbn [bind].
  replace (len (t :: c :: rest) <? 2 + byte.unsigned c * 4) with false
    by (symmetry; apply Z.ltb_ge; len_side).
  rewrite index_0, slice_from_2. cbn [bind].
  destruct (Float32_get_all_total (Z.to_nat (byte.unsigned c)) rest) as (val & E & Hl);
    [lia|].
  rewrite E. cbn [bind]. exists val. split; [reflexivity|]. unfold len. lia.
Qed.
End SettingFacts.

(** C6, as the code has it: [write] rejects with an error every setting
    whose element count differs from the count the table gives for its
    [SettingType]; the three [UnmarshalBinary], which [parseSetting] calls,
    do not compare the count with the table: a record that declares any
    count [c] and carries the bytes of [c] elements is decoded into [c]
    values. *)
Theorem count_checked_by_write_not_by_UnmarshalBinary :
  (forall (s : Setting) (t : SettingType) (l : settingInfo) (dst : list byte),
      setting_type s = Some t ->
      nth_error settingTypes (Z.to_nat (byte.unsigned t)) = Some l ->
      count l <> setting_count s ->
      write s dst = Done (dst, 0, Some (ErrInvalidSettingType t)))
  /\
  (forall (t c : byte) (rest : list byte),
      (uint8Size * byte.unsigned c <= len rest ->
       exists val, Uint8.UnmarshalBinary Uint8.zero (t :: c :: rest)
                   = Done (Uint8.mk t val, None)
                   /\ len val = byte.unsigned c) /\
      (uint16Size * byte.unsigned c <= len rest ->
       exists val, Uint16.UnmarshalBinary Uint16.zero (t :: c :: rest)
                   = Done (Uint16.mk t val, None)
                   /\ len val = byte.unsigned c) /\
      (float32Size * byte.unsigned c <= len rest ->
       exists val, Float32.UnmarshalBinary Float32.zero (t :: c :: rest)
                   = Done (Float32.mk t val, None)
                   /\ len val = byte.unsigned c)).
Proof.
  split.
  - intros s t l dst Ht Hl Hc. destruct s as [w | w | w | w]; cbn in Ht, Hc;
      try discriminate; injection Ht as <-; cbn [write].
    + eapply Uint8_write_count_mismatch; eassumption.
    + eapply Uint16_write_count_mismatch; eassumption.
    + eapply Float32_write_count_mismatch; eassumption.
  - intros t c rest. unfold uint8Size, uint16Size, float32Size. repeat split; intros H.
    + apply Uint8_UnmarshalBinary_any_count. lia.
    + apply Uint16_UnmarshalBinary_any_count. lia.
    + apply Float32_UnmarshalBinary_any_count. lia.
Qed.

Lemma count_checked_by_write_not_by_UnmarshalBinary_witness :
  write (OfUint16 (Uint16.mk SampleRateSetting [25; 50])) (repeat Byte.x00 6)
  = Done (repeat Byte.x00 6, 0, Some (ErrInvalidSettingType SampleRateSetting))
  /\
  exists val,
    Uint16.UnmarshalBinary Uint16.zero
      [Byte.x00; Byte.x02; Byte.x19; Byte.x00; Byte.x32; Byte.x00]
    = Done (Uint16.mk SampleRateSetting val, None)
    /\ len val = 2.
Proof.
  split.
  - apply (proj1 count_checked_by_write_not_by_UnmarshalBinary
             (OfUint16 (Uint16.mk SampleRateSetting [25; 50]))
             SampleRateSetting (mkInfo uint16Kind 1 uint16Size)).
    + reflexivity.
    + reflexivity.
    + vm_compute. discriminate.
  - apply (proj1 (proj2 (proj2 count_checked_by_write_not_by_UnmarshalBinary
                           Byte.x00 Byte.x02
                           [Byte.x19; Byte.x00; Byte.x32; Byte.x00]))).
    vm_compute. discriminate.
Defined.

(** C6 as stated fails on the decoding side: a sample rate record that
    declares two elements, where the table requires one, is decoded by
    [Uint16.UnmarshalBinary] and by [parseSetting] without an error. *)
Lemma UnmarshalBinary_count_counterexample :
  let data := [Byte.x00; Byte.x02; Byte.x19; Byte.x00; Byte.x32; Byte.x00] in
  option_map count (nth_error settingTypes (Z.to_nat (byte.unsigned SampleRateSetting)))
    = Some 1 /\
  Uint16.UnmarshalBinary Uint16.zero data
    = Done (Uint16.mk SampleRateSetting [25; 50], None) /\
  parseSetting data
    = Done ([OfUint16 (Uint16.mk SampleRateSetting [25; 50])], None).
Proof. repeat split; vm_compute; reflexivity. Qed.

(** ** Bit patterns *)

Section BitFacts.

Lemma lor_shiftl_add a b k :
  0 <= k -> 0 <= a < 2 ^ k -> Z.lor a (Z.shiftl b k) = a + b * 2 ^ k.
Proof.
  intros Hk Ha.
  assert (Hland : Z.land a (Z.shiftl b k) = 0).
  { rewrite <- (Z.mod_small a (2 ^ k)) by assumption.
    rewrite <- Z.land_ones by assumption.
    Z.bitblast. subst l. rewrite (Z.testbit_neg_r b) by lia.
    apply andb_false_r. }
  pose proof (Z.add_lor_land a (Z.shiftl b k)) as H.
  rewrite Hland in H. rewrite <- (Z.shiftl_mul_pow2 b k) by assumption. lia.
Qed.

Lemma leInt24_value (a b c : byte) :
  Z.lor (Z.lor (byte.unsigned a) (Z.shiftl (byte.unsigned b) 8))
        (Z.shiftl (int8 c) 16)
  = int24 a b c.
Proof.
  pose proof (byte.unsigned_range a). pose proof (byte.unsigned_range b).
  pose proof (byte.unsigned_range c).
  rewrite (lor_shiftl_add _ _ 8) by lia.
  rewrite (lor_shiftl_add _ _ 16) by lia.
  unfold int24, signed24, int8.
  destruct (byte.unsigned c <? 128) eqn:Hc;
    [apply Z.ltb_lt in Hc | apply Z.ltb_ge in Hc].
  - replace (_ <? 2 ^ 23) with true by (symmetry; apply Z.ltb_lt; lia). lia.
  - replace (_ <? 2 ^ 23) with false by (symmetry; apply Z.ltb_ge; lia). lia.
Qed.

Lemma le_value_range bs : 0 <= le_value bs < 2 ^ (8 * len bs).
Proof.
  induction bs as [|b bs IH].
  - cbn. lia.
  - rewrite len_cons. pose proof (len_nonneg bs).
    replace (8 * (len bs + 1)) with (8 + 8 * len bs) by lia.
    rewrite Z.pow_add_r by lia.
    change (le_value (b :: bs)) with (byte.unsigned b + 2 ^ 8 * le_value bs).
    pose proof (byte.unsigned_range b). nia.
Qed.

Lemma Uint64_value b0 b1 b2 b3 b4 b5 b6 b7 rest :
  binary.Uint64 (b0 :: b1 :: b2 :: b3 :: b4 :: b5 :: b6 :: b7 :: rest)
  = Done (le_value [b0; b1; b2; b3; b4; b5; b6; b7]).
Proof.
  rewrite Uint64_cons. f_equal.
  pose proof (byte.unsigned_range b0). pose proof (byte.unsigned_range b1).
  pose proof (byte.unsigned_range b2). pose proof (byte.unsigned_range b3).
  pose proof (byte.unsigned_range b4). pose proof (byte.unsigned_range b5).
  pose proof (byte.unsigned_range b6). pose proof (byte.unsigned_range b7).
  rewrite (lor_shiftl_add _ _ 8) by lia.
  rewrite (lor_shiftl_add _ _ 16) by lia.
  rewrite (lor_shiftl_add _ _ 24) by lia.
  rewrite (lor_shiftl_add _ _ 32) by lia.
  rewrite (lor_shiftl_add _ _ 40) by lia.
  rewrite (lor_shiftl_add _ _ 48) by lia.
  rewrite (lor_shiftl_add _ _ 56) by lia.
  unfold le_value. cbn [fold_right]. lia.
Qed.
End BitFacts.

(** ** Time *)

Section TimeFacts.

Lemma Unix_UnixNano sec nsec :
  time.UnixNano (time.Unix sec nsec) = sec * second + nsec.
Proof.
  unfold time.Unix, time.UnixNano, second.
  destruct ((nsec <? 0) || (1000000000 <=? nsec)); [|reflexivity].
  destruct (_ <? 0); cbn [time.sec time.nsec]; lia.
Qed.

Lemma Unix_normalised sec nsec :
  0 <= time.nsec (time.Unix sec nsec) < second.
Proof.
  unfold time.Unix, second.
  destruct (nsec <? 0) eqn:H0; [apply Z.ltb_lt in H0 | apply Z.ltb_ge in H0];
    destruct (1000000000 <=? nsec) eqn:H1;
    [apply Z.leb_le in H1 | apply Z.leb_gt in H1
    |apply Z.leb_le in H1 | apply Z.leb_gt in H1]; cbn [orb].
  - lia.
  - pose proof (Z.quot_rem' nsec 1000000000) as Hq.
    pose proof (Z.rem_bound_abs nsec 1000000000) as Hb.
    replace (nsec - Z.quot nsec 1000000000 * 1000000000)
      with (Z.rem nsec 1000000000) by lia.
    destruct (Z.rem nsec 1000000000 <? 0) eqn:Hr;
      [apply Z.ltb_lt in Hr | apply Z.ltb_ge in Hr]; cbn [time.nsec]; lia.
  - pose proof (Z.quot_rem' nsec 1000000000) as Hq.
    pose proof (Z.rem_bound_abs nsec 1000000000) as Hb.
    replace (nsec - Z.quot nsec 1000000000 * 1000000000)
      with (Z.rem nsec 1000000000) by lia.
    destruct (Z.rem nsec 1000000000 <? 0) eqn:Hr;
      [apply Z.ltb_lt in Hr | apply Z.ltb_ge in Hr]; cbn [time.nsec]; lia.
  - cbn [time.nsec]. lia.
Qed.
End TimeFacts.

(** ** The ECG frame decoder *)

#[local] Arguments Z.rem : simpl never.
#[local] Arguments Z.quot : simpl never.
#[local] Arguments time.Unix : simpl never.
#[local] Arguments int64 : simpl never.

Section ECGFacts.

Lemma slice_three (pre : list byte) a b c rest :
  slice (pre ++ a :: b :: c :: rest) (len pre) (len pre + 3) = Done [a; b; c].
Proof.
  pose proof (len_nonneg pre). pose proof (len_nonneg rest).
  rewrite slice_ok by (rewrite ?len_app, ?len_cons; lia).
  replace (Z.to_nat (len pre + 3 - len pre)) with 3%nat by lia.
  replace (Z.to_nat (len pre)) with (length pre) by (unfold len; lia).
  rewrite skipn_app, skipn_all, Nat.sub_diag. reflexivity.
Qed.

Lemma rem3_step n : 0 <= n -> Z.rem (n + 3) 3 = 0 -> Z.rem n 3 = 0.
Proof.
  intros Hn H. rewrite Z.rem_mod_nonneg in * by lia.
  replace (n + 3) with (n + 1 * 3) in H by lia.
  rewrite Z_mod_plus_full in H. assumption.
Qed.

(** The loop of [ECG.UnmarshalBinary], started after [pre], appends the
    samples of the remaining bytes; the fuel never runs out. *)
Lemma samples_groups fuel : forall (pre rest : list byte) (acc : list Z),
  (length rest <= fuel)%nat ->
  Z.rem (len rest) 3 = 0 ->
  ECG.samples fuel (pre ++ rest) (len pre) acc = Done (acc ++ int24_groups rest).
Proof.
  assert (Hstop : forall f (pre : list byte) acc,
             ECG.samples f (pre ++ []) (len pre) acc = Done (acc ++ int24_groups [])).
  { intros f pre acc. rewrite app_nil_r. cbn [int24_groups]. rewrite app_nil_r.
    destruct f; cbn [ECG.samples]; rewrite Z.ltb_irrefl; reflexivity. }
  induction fuel as [|fuel IH]; intros pre rest acc Hf Hr.
  - destruct rest; [apply Hstop | cbn [length] in Hf; lia].
  - destruct rest as [|a [|b [|c rest]]];
      [apply Hstop | vm_compute in Hr; discriminate
      | vm_compute in Hr; discriminate | ].
    cbn [ECG.samples].
    pose proof (len_nonneg pre). pose proof (len_nonneg rest).
    replace (len pre <? len (pre ++ a :: b :: c :: rest)) with true
      by (symmetry; apply Z.ltb_lt; rewrite len_app, !len_cons; lia).
    unfold ECGSamplingStride. rewrite slice_three. cbn [bind].
    rewrite leInt24_cons, leInt24_value. cbn [bind].
    replace (pre ++ a :: b :: c :: rest) with ((pre ++ [a; b; c]) ++ rest)
      by (rewrite <- app_assoc; reflexivity).
    replace (len pre + 3) with (len (pre ++ [a; b; c]))
      by (rewrite len_app; reflexivity).
    rewrite IH.
    + rewrite <- app_assoc. reflexivity.
    + cbn [length] in Hf. lia.
    + apply rem3_step; [assumption|].
      rewrite !len_cons in Hr. replace (len rest + 3) with (len rest + 1 + 1 + 1) by lia.
      assumption.
Qed.

(** What [ECG.UnmarshalBinary] returns on a payload with type byte 0 and
    frame type byte 0. *)
Lemma ECG_UnmarshalBinary_frame (m : ECG.t) (t0 t1 t2 t3 t4 t5 t6 t7 : byte)
      (trace : list byte) :
  ECG.UnmarshalBinary m
    (ECGType :: t0 :: t1 :: t2 :: t3 :: t4 :: t5 :: t6 :: t7 :: ECGFrameType0 :: trace)
  = if Z.rem (len trace) 3 =? 0 then
      let t := int64 (le_value [t0; t1; t2; t3; t4; t5; t6; t7]) in
      Done (ECG.mk (time.Unix (Z.quot t second + epoch) (Z.rem t second))
                   (int24_groups trace),
            None)
    else Done (m, Some (ErrSamplesNotFactorOf3 (Z.rem (len trace) 3))).
Proof.
  unfold ECG.UnmarshalBinary, sampleTypeOffset, frameTypeOffset, timeStampOffset,
    dataOffset, ECGSamplingStride.
  rewrite index_0. cbn [bind]. rewrite Z.eqb_refl. cbn [negb].
  rewrite index_ok by len_side.
  change (nth_error _ (Z.to_nat 9)) with (Some ECGFrameType0).
  cbn [bind]. rewrite Z.eqb_refl. cbn [negb].
  rewrite slice_from_ok by len_side.
  change (skipn (Z.to_nat 1) ?l) with (t0 :: t1 :: t2 :: t3 :: t4 :: t5 :: t6 :: t7 :: ECGFrameType0 :: trace).
  cbn [bind]. rewrite Uint64_value. cbn [bind].
  rewrite slice_from_ok by len_side.
  change (skipn (Z.to_nat 10) _) with trace.
  cbn [bind].
  destruct (Z.rem (len trace) 3 =? 0) eqn:Hr; cbn [negb]; [|reflexivity].
  apply Z.eqb_eq in Hr.
  pose proof (samples_groups (length trace) [] trace [] (le_n _) Hr) as Hs.
  cbn [app] in Hs. change (len []) with 0 in Hs. rewrite Hs. reflexivity.
Qed.
End ECGFacts.

(** ** The loop bounds are never reached *)

Create HintDb fuel discriminated.

Lemma bind_fuel {A B} (m : outcome A) (k : A -> outcome B) :
  m <> OutOfFuel -> (forall a, k a <> OutOfFuel) -> bind m k <> OutOfFuel.
Proof. destruct m; cbn [bind]; intros Hm Hk; [apply Hk | discriminate | congruence]. Qed.

Lemma index_fuel {A} (s : list A) i : index s i <> OutOfFuel.
Proof.
  unfold index. destruct ((0 <=? i) && (i <? len s)); [|discriminate].
  destruct (nth_error s (Z.to_nat i)); discriminate.
Qed.

Lemma slice_fuel {A} (s : list A) lo hi : slice s lo hi <> OutOfFuel.
Proof.
  unfold slice. destruct ((0 <=? lo) && (lo <=? hi) && (hi <=? len s)); discriminate.
Qed.

#[local] Hint Resolve bind_fuel index_fuel slice_fuel : fuel.
#[local] Hint Extern 1 (Done _ <> OutOfFuel) => discriminate : fuel.
#[local] Hint Extern 1 (Panic _ <> OutOfFuel) => discriminate : fuel.

Lemma slice_from_shrinks {A} (s s' : list A) lo :
  slice_from s lo = Done s' -> 0 < lo -> (length s' <= length s - 1)%nat.
Proof.
  unfold slice_from, slice.
  destruct ((0 <=? lo) && (lo <=? len s) && (len s <=? len s)); [|discriminate].
  intros E Hlo. injection E as <-. rewrite length_firstn, length_skipn. lia.
Qed.

Lemma Uint16_get_all_fuel n : forall data, Uint16.get_all n data <> OutOfFuel.
Proof.
  induction n as [|n IH]; intros data; cbn [Uint16.get_all]; [discriminate|].
  unfold binary.Uint16, slice_from. auto 20 with fuel.
Qed.

Lemma Float32_get_all_fuel n : forall data, Float32.get_all n data <> OutOfFuel.
Proof.
  induction n as [|n IH]; intros data; cbn [Float32.get_all]; [discriminate|].
  unfold binary.Uint32, slice_from. auto 20 with fuel.
Qed.

#[local] Hint Resolve Uint16_get_all_fuel Float32_get_all_fuel : fuel.

Lemma Uint8_UnmarshalBinary_fuel w data : Uint8.UnmarshalBinary w data <> OutOfFuel.
Proof.
  unfold Uint8.UnmarshalBinary. destruct (len data <? headerSize); [discriminate|].
  apply bind_fuel; [apply index_fuel | intros d1].
  destruct (len data <? _); [discriminate|].
  unfold slice_from. auto 20 with fuel.
Qed.

Lemma Uint16_UnmarshalBinary_fuel w data : Uint16.UnmarshalBinary w data <> OutOfFuel.
Proof.
  unfold Uint16.UnmarshalBinary. destruct (len data <? headerSize); [discriminate|].
  apply bind_fuel; [apply index_fuel | intros d1].
  destruct (len data <? _); [discriminate|].
  unfold slice_from. auto 20 with fuel.
Qed.

Lemma Float32_UnmarshalBinary_fuel w data : Float32.UnmarshalBinary w data <> OutOfFuel.
Proof.
  unfold Float32.UnmarshalBinary. destruct (len data <? headerSize); [discriminate|].
  apply bind_fuel; [apply index_fuel | intros d1].
  destruct (len data <? _); [discriminate|].
  unfold slice_from. auto 20 with fuel.
Qed.

Lemma Size_header (s : Setting) : headerSize <= Size s.
Proof.
  destruct s as [w | w | w | w]; unfold Size, setCommand.Size, Uint8.Size, Uint8.size,
    Uint16.Size, Uint16.size, Float32.Size, Float32.size, headerSize, uint8Size,
    uint16Size, float32Size.
  - lia.
  - pose proof (len_nonneg (Uint8.Val w)). lia.
  - pose proof (len_nonneg (Uint16.Val w)). lia.
  - pose proof (len_nonneg (Float32.Val w)). lia.
Qed.

(** [parseSetting] returns or panics: with [len(data)] turns of fuel its
    loop never stops for lack of fuel. *)
Lemma parseSetting_loop_fuel fuel : forall data settings,
  (length data <= fuel)%nat -> parseSetting_loop fuel data settings <> OutOfFuel.
Proof.
  induction fuel as [|fuel IH]; intros data settings Hlen; cbn [parseSetting_loop];
    destruct (len data =? 0) eqn:E; try discriminate.
  - apply Z.eqb_neq in E. unfold len in E. lia.
  - apply Z.eqb_neq in E.
    apply bind_fuel; [apply index_fuel | intros d0].
    destruct (len settingTypes <=? byte.unsigned d0); [discriminate|].
    apply bind_fuel; [apply index_fuel | intros l].
    destruct (typ l =? 0); [discriminate|].
    apply bind_fuel.
    + destruct (typ l =? uint8Kind);
        [apply bind_fuel; [apply Uint8_UnmarshalBinary_fuel | intros [s err]; discriminate]|].
      destruct (typ l =? uint16Kind);
        [apply bind_fuel; [apply Uint16_UnmarshalBinary_fuel | intros [s err]; discriminate]|].
      destruct (typ l =? float32Kind);
        [apply bind_fuel; [apply Float32_UnmarshalBinary_fuel | intros [s err]; discriminate]|].
      discriminate.
    + intros [[set [err|]]|]; try discriminate.
      destruct (slice_from data (Size set)) as [data' | p |] eqn:Es; cbn [bind].
      * apply IH. pose proof (Size_header set) as Hs. unfold headerSize in Hs.
        apply slice_from_shrinks in Es; [|lia]. unfold len in E. lia.
      * discriminate.
      * exfalso. revert Es. apply slice_fuel.
Qed.

Lemma parseSetting_fuel data : parseSetting data <> OutOfFuel.
Proof. apply parseSetting_loop_fuel. apply le_n. Qed.

(** The sample loop of [ECG.UnmarshalBinary] returns or panics: [i] grows
    by three each turn. *)
Lemma samples_fuel fuel : forall trace i ecgTrace,
  0 <= i -> len trace - i <= Z.of_nat fuel ->
  ECG.samples fuel trace i ecgTrace <> OutOfFuel.
Proof.
  induction fuel as [|fuel IH]; intros trace i acc Hi Hlen; cbn [ECG.samples];
    destruct (i <? len trace) eqn:E; try discriminate.
  - apply Z.ltb_lt in E. lia.
  - apply bind_fuel; [apply slice_fuel | intros b].
    apply bind_fuel; [unfold leInt24; auto 20 with fuel | intros v].
    apply IH; unfold ECGSamplingStride; lia.
Qed.

Lemma ECG_UnmarshalBinary_fuel m data : ECG.UnmarshalBinary m data <> OutOfFuel.
Proof.
  unfold ECG.UnmarshalBinary.
  apply bind_fuel; [apply index_fuel | intros d0].
  destruct (negb _); [discriminate|].
  apply bind_fuel; [apply index_fuel | intros d9].
  destruct (negb _); [discriminate|].
  apply bind_fuel; [apply slice_fuel | intros ts].
  apply bind_fuel; [unfold binary.Uint64; auto 30 with fuel | intros timestamp].
  apply bind_fuel; [apply slice_fuel | intros trace].
  destruct (negb _); [discriminate|].
  apply bind_fuel; [|intros; discriminate].
  apply samples_fuel; unfold len; lia.
Qed.

(** C7: on a payload whose type byte (offset 0) and frame type byte
    (offset 9) are 0, [ECG.UnmarshalBinary] returns an error when the length
    of the data after the 10-byte header is not divisible by 3, and
    otherwise sets the trace to the 3-byte groups of that data, each read as
    a signed 24-bit little-endian integer; [leInt24] reads 01 00 00 as 1,
    FF FF FF as -1 and 00 00 80 as -8388608. *)
Theorem ECG_UnmarshalBinary_signed_24_bit_samples
    (m : ECG.t) (t0 t1 t2 t3 t4 t5 t6 t7 : byte) (trace : list byte) :
  let data :=
    ECGType :: t0 :: t1 :: t2 :: t3 :: t4 :: t5 :: t6 :: t7 :: ECGFrameType0 :: trace in
  (if Z.rem (len trace) 3 =? 0
   then exists ts, ECG.UnmarshalBinary m data
                   = Done (ECG.mk ts (int24_groups trace), None)
   else exists e, ECG.UnmarshalBinary m data = Done (m, Some e)) /\
  (forall b0 b1 b2, leInt24 [b0; b1; b2] = Done (int24 b0 b1 b2)) /\
  leInt24 [Byte.x01; Byte.x00; Byte.x00] = Done 1 /\
  leInt24 [Byte.xff; Byte.xff; Byte.xff] = Done (-1) /\
  leInt24 [Byte.x00; Byte.x00; Byte.x80] = Done (-8388608) /\
  ECG.UnmarshalBinary ECG.zero
    [Byte.x00; Byte.x00; Byte.x00; Byte.x00; Byte.x00; Byte.x00; Byte.x00; Byte.x00;
     Byte.x00; Byte.x00;
     Byte.x01; Byte.x00; Byte.x00; Byte.xff; Byte.xff; Byte.xff; Byte.x00; Byte.x00; Byte.x80]
  = Done (ECG.mk (time.mkTime epoch 0) [1; -1; -8388608], None).
Proof.
  intros data. subst data. rewrite ECG_UnmarshalBinary_frame.
  split; [| split; [| repeat split; vm_compute; reflexivity]].
  - destruct (Z.rem (len trace) 3 =? 0); cbv zeta; eauto.
  - intros b0 b1 b2. rewrite leInt24_cons, leInt24_value. reflexivity.
Qed.

(** C9, as the code has it: the timestamp bytes, read as a little-endian
    number [t] below [2^64], are converted to [int64]; the decoded
    [Timestamp] is the instant 946684800 seconds after the Unix epoch plus
    [int64(t)] nanoseconds, which is plus [t] nanoseconds when [t < 2^63]. *)
Theorem ECG_Timestamp_adds_epoch_to_int64
    (m : ECG.t) (t0 t1 t2 t3 t4 t5 t6 t7 : byte) (trace : list byte) :
  Z.rem (len trace) 3 = 0 ->
  let t := le_value [t0; t1; t2; t3; t4; t5; t6; t7] in
  binary.Uint64 [t0; t1; t2; t3; t4; t5; t6; t7] = Done t /\
  0 <= t < 2 ^ 64 /\
  exists m',
    ECG.UnmarshalBinary m
      (ECGType :: t0 :: t1 :: t2 :: t3 :: t4 :: t5 :: t6 :: t7 :: ECGFrameType0 :: trace)
    = Done (m', None) /\
    time.UnixNano (ECG.Timestamp m') = 946684800 * second + int64 t /\
    0 <= time.nsec (ECG.Timestamp m') < second /\
    (t < 2 ^ 63 -> time.UnixNano (ECG.Timestamp m') = 946684800 * second + t).
Proof.
  intros Hr t. split; [apply Uint64_value|].
  split; [apply (le_value_range [t0; t1; t2; t3; t4; t5; t6; t7])|].
  rewrite ECG_UnmarshalBinary_frame, Hr. cbn [Z.eqb]. cbv zeta.
  eexists. split; [reflexivity|]. cbn [ECG.Timestamp]. fold t.
  assert (Hnano : time.UnixNano
                    (time.Unix (Z.quot (int64 t) second + epoch) (Z.rem (int64 t) second))
                  = 946684800 * second + int64 t).
  { rewrite Unix_UnixNano. pose proof (Z.quot_rem' (int64 t) second).
    unfold epoch. lia. }
  split; [exact Hnano|]. split; [apply Unix_normalised|].
  intros Hlt. rewrite Hnano. unfold int64.
  replace (t <? 2 ^ 63) with true by (symmetry; apply Z.ltb_lt; assumption).
  reflexivity.
Qed.

Lemma ECG_Timestamp_adds_epoch_to_int64_witness :
  exists m',
    ECG.UnmarshalBinary ECG.zero
      [Byte.x00; Byte.x00; Byte.xca; Byte.x9a; Byte.x3b; Byte.x00; Byte.x00; Byte.x00;
       Byte.x00; Byte.x00; Byte.x01; Byte.x00; Byte.x00]
    = Done (m', None) /\
    time.UnixNano (ECG.Timestamp m') = 946684800 * second + 1000000000.
Proof.
  destruct (ECG_Timestamp_adds_epoch_to_int64 ECG.zero
              Byte.x00 Byte.xca Byte.x9a Byte.x3b Byte.x00 Byte.x00 Byte.x00 Byte.x00
              [Byte.x01; Byte.x00; Byte.x00])
    as (_ & _ & m' & Hm & _ & _ & Hsmall).
  - vm_compute. reflexivity.
  - exists m'. split; [exact Hm|]. apply Hsmall. vm_compute. reflexivity.
Defined.

(** C9 as stated fails from [2^63] on: the timestamp bytes
    00 00 00 00 00 00 00 80 denote [2^63], and the decoded [Timestamp] lies
    [2^63] nanoseconds before, not after, the device epoch. *)
Lemma ECG_Timestamp_counterexample :
  let ts := [Byte.x00; Byte.x00; Byte.x00; Byte.x00; Byte.x00; Byte.x00; Byte.x00; Byte.x80] in
  binary.Uint64 ts = Done (2 ^ 63) /\
  exists m',
    ECG.UnmarshalBinary ECG.zero (ECGType :: ts ++ [ECGFrameType0]) = Done (m', None) /\
    time.UnixNano (ECG.Timestamp m') = 946684800 * second - 2 ^ 63 /\
    time.UnixNano (ECG.Timestamp m') <> 946684800 * second + 2 ^ 63.
Proof.
  split; [vm_compute; reflexivity|].
  eexists. split; [vm_compute; reflexivity|].
  split; vm_compute; [reflexivity | discriminate].
Qed.

(** ** Round trip of the setting codec *)

Section RoundTrip.

Lemma byte_one : byte.unsigned (byte.of_Z 1) = 1.
Proof. rewrite byte.unsigned_of_Z. reflexivity. Qed.

Lemma uint16_bytes v :
  uint16 v ->
  Z.lor (byte.unsigned (byte.of_Z v))
        (Z.shiftl (byte.unsigned (byte.of_Z (Z.shiftr v 8))) 8) = v.
Proof.
  unfold uint16. intros Hv. rewrite !byte.unsigned_of_Z. unfold byte.wrap.
  rewrite Z.shiftr_div_pow2 by lia.
  rewrite (lor_shiftl_add _ _ 8) by (try apply Z.mod_pos_bound; lia).
  Z.div_mod_to_equations. lia.
Qed.

Lemma uint32_bytes v :
  uint32 v ->
  Z.lor (Z.lor (Z.lor (byte.unsigned (byte.of_Z v))
                      (Z.shiftl (byte.unsigned (byte.of_Z (Z.shiftr v 8))) 8))
               (Z.shiftl (byte.unsigned (byte.of_Z (Z.shiftr v 16))) 16))
        (Z.shiftl (byte.unsigned (byte.of_Z (Z.shiftr v 24))) 24) = v.
Proof.
  unfold uint32. intros Hv. rewrite !byte.unsigned_of_Z. unfold byte.wrap.
  rewrite !Z.shiftr_div_pow2 by lia.
  pose proof (Z.mod_pos_bound v (2 ^ 8) eq_refl).
  pose proof (Z.mod_pos_bound (v / 2 ^ 8) (2 ^ 8) eq_refl).
  pose proof (Z.mod_pos_bound (v / 2 ^ 16) (2 ^ 8) eq_refl).
  pose proof (Z.mod_pos_bound (v / 2 ^ 24) (2 ^ 8) eq_refl).
  rewrite (lor_shiftl_add _ _ 8) by lia.
  rewrite (lor_shiftl_add _ _ 16) by lia.
  rewrite (lor_shiftl_add _ _ 24) by lia.
  Z.div_mod_to_equations. lia.
Qed.

(** Every entry of the table that names a kind requires one element. *)
Lemma table_count_one i l :
  nth_error settingTypes i = Some l -> typ l <> 0 -> count l = 1.
Proof.
  intros E Hk.
  do 6 (destruct i as [|i]; [injection E as <-; cbn in *; congruence|]).
  destruct i; discriminate.
Qed.

Lemma len_one {A} (s : list A) : len s = 1 -> exists a, s = [a].
Proof.
  destruct s as [|a [|b s]]; intros H; try (exfalso; len_side). eauto.
Qed.
End RoundTrip.

Section RoundTripUint16.
Variables (t : SettingType) (v : Z) (l : settingInfo).
Hypothesis Hl : nth_error settingTypes (Z.to_nat (byte.unsigned t)) = Some l.
Hypothesis Hk : typ l = uint16Kind.
Hypothesis Hs : size l = uint16Size.
Hypothesis Hv : uint16 v.

Let record : list byte := [t; byte.of_Z 1; byte.of_Z v; byte.of_Z (Z.shiftr v 8)].

Lemma Uint16_write_one d0 d1 d2 d3 rest :
  Uint16.write (Uint16.mk t [v]) (d0 :: d1 :: d2 :: d3 :: rest)
  = Done (record ++ rest, 4, None).
Proof.
  assert (Hc : count l = 1) by (eapply table_count_one; [eassumption | rewrite Hk; discriminate]).
  destruct (settingTypes_index _ _ Hl) as [H1 H2].
  unfold Uint16.write, Uint16.Size, Uint16.size. cbn [Uint16.Type_ Uint16.Val].
  rewrite H1, H2. cbn [bind]. rewrite Hc, Hs.
  change (len [v]) with 1. unfold uint16Size, headerSize. cbn [Z.eqb Pos.eqb negb orb].
  replace (len (d0 :: d1 :: d2 :: d3 :: rest) <? 2 + 1 * 2) with false
    by (symmetry; apply Z.ltb_ge; len_side).
  go_eval. unfold headerSize. rewrite slice_from_2. cbn [bind].
  rewrite PutUint16_cons. cbn [bind].
  reflexivity.
Qed.

Lemma Uint16_UnmarshalBinary_one w0 rest :
  Uint16.UnmarshalBinary w0 (record ++ rest) = Done (Uint16.mk t [v], None).
Proof.
  unfold Uint16.UnmarshalBinary, Uint16.size, headerSize, uint16Size, record.
  cbn [app].
  replace (len (_ :: _ :: _ :: _ :: rest) <? 2) with false
    by (symmetry; apply Z.ltb_ge; len_side).
  rewrite index_1. cbn [bind]. rewrite byte_one.
  replace (len (_ :: _ :: _ :: _ :: rest) <? 2 + 1 * 2) with false
    by (symmetry; apply Z.ltb_ge; len_side).
  rewrite index_0, slice_from_2. cbn [bind].
  change (Z.to_nat 1) with 1%nat. cbn [Uint16.get_all].
  rewrite Uint16_cons. cbn [bind]. unfold uint16Size. rewrite slice_from_2.
  cbn [bind]. rewrite uint16_bytes by assumption. reflexivity.
Qed.

Lemma Uint16_parseSetting_one :
  parseSetting record = Done ([OfUint16 (Uint16.mk t [v])], None).
Proof.
  destruct (settingTypes_index _ _ Hl) as [H1 H2].
  unfold parseSetting. change (length record) with 4%nat.
  cbn [parseSetting_loop]. change (len record =? 0) with false. cbv iota.
  unfold record at 1. rewrite index_0. cbn [bind].
  rewrite H1, H2. cbn [bind]. rewrite Hk.
  change (uint16Kind =? 0) with false.
  change (uint16Kind =? uint8Kind) with false.
  change (uint16Kind =? uint16Kind) with true. cbv iota.
  rewrite <- (app_nil_r record) at 1.
  rewrite Uint16_UnmarshalBinary_one. cbn [bind].
  change (Size (OfUint16 (Uint16.mk t [v]))) with 4.
  unfold record. rewrite slice_from_4. cbn [bind]. reflexivity.
Qed.
End RoundTripUint16.

#[local] Arguments copy : simpl never.
#[local] Arguments len : simpl never.

Section RoundTripUint8.
Variables (t : SettingType) (v : byte) (l : settingInfo).
Hypothesis Hl : nth_error settingTypes (Z.to_nat (byte.unsigned t)) = Some l.
Hypothesis Hk : typ l = uint8Kind.
Hypothesis Hs : size l = uint8Size.

Let record : list byte := [t; byte.of_Z 1; v].

Lemma copy_one {A} (a b : A) s : copy (a :: s) [b] = (b :: s, 1).
Proof.
  unfold copy. replace (Z.min (len (a :: s)) (len [b])) with 1 by len_side.
  reflexivity.
Qed.

Lemma Uint8_write_one d0 d1 d2 rest :
  Uint8.write (Uint8.mk t [v]) (d0 :: d1 :: d2 :: rest)
  = Done (record ++ rest, 3, None).
Proof.
  assert (Hc : count l = 1) by (eapply table_count_one; [eassumption | rewrite Hk; discriminate]).
  destruct (settingTypes_index _ _ Hl) as [H1 H2].
  unfold Uint8.write, Uint8.Size, Uint8.size. cbn [Uint8.Type_ Uint8.Val].
  rewrite H1, H2. cbn [bind]. rewrite Hc, Hs.
  change (len [v]) with 1. unfold uint8Size, headerSize. cbn [Z.eqb Pos.eqb negb orb].
  replace (len (d0 :: d1 :: d2 :: rest) <? 2 + 1 * 1) with false
    by (symmetry; apply Z.ltb_ge; len_side).
  go_eval. unfold headerSize. rewrite copy_one. reflexivity.
Qed.

Lemma Uint8_UnmarshalBinary_one w0 rest :
  Uint8.UnmarshalBinary w0 (record ++ rest) = Done (Uint8.mk t [v], None).
Proof.
  unfold Uint8.UnmarshalBinary, Uint8.size, headerSize, uint8Size, record.
  cbn [app].
  replace (len (_ :: _ :: _ :: rest) <? 2) with false
    by (symmetry; apply Z.ltb_ge; len_side).
  rewrite index_1. cbn [bind]. rewrite byte_one.
  replace (len (_ :: _ :: _ :: rest) <? 2 + 1 * 1) with false
    by (symmetry; apply Z.ltb_ge; len_side).
  rewrite index_0, slice_from_2. cbn [bind].
  change (Z.to_nat 1) with 1%nat. cbn [repeat].
  unfold copy. replace (Z.min (len [Byte.x00]) (len (v :: rest))) with 1 by len_side.
  reflexivity.
Qed.

Lemma Uint8_parseSetting_one :
  parseSetting record = Done ([OfUint8 (Uint8.mk t [v])], None).
Proof.
  destruct (settingTypes_index _ _ Hl) as [H1 H2].
  unfold parseSetting. change (length record) with 3%nat.
  cbn [parseSetting_loop]. change (len record =? 0) with false. cbv iota.
  unfold record at 1. rewrite index_0. cbn [bind].
  rewrite H1, H2. cbn [bind]. rewrite Hk.
  change (uint8Kind =? 0) with false.
  change (uint8Kind =? uint8Kind) with true. cbv iota.
  rewrite <- (app_nil_r record) at 1.
  rewrite Uint8_UnmarshalBinary_one. cbn [bind].
  change (Size (OfUint8 (Uint8.mk t [v]))) with 3.
  unfold record. rewrite slice_from_ok by len_side. cbn [bind]. reflexivity.
Qed.
End RoundTripUint8.

Section RoundTripFloat32.
Variables (t : SettingType) (v : math.float32) (l : settingInfo).
Hypothesis Hl : nth_error settingTypes (Z.to_nat (byte.unsigned t)) = Some l.
Hypothesis Hk : typ l = float32Kind.
Hypothesis Hs : size l = float32Size.
Hypothesis Hv : uint32 (math.bits v).

Let record : list byte :=
  [t; byte.of_Z 1; byte.of_Z (math.bits v); byte.of_Z (Z.shiftr (math.bits v) 8);
   byte.of_Z (Z.shiftr (math.bits v) 16); byte.of_Z (Z.shiftr (math.bits v) 24)].

Lemma Float32_write_one d0 d1 d2 d3 d4 d5 rest :
  Float32.write (Float32.mk t [v]) (d0 :: d1 :: d2 :: d3 :: d4 :: d5 :: rest)
  = Done (record ++ rest, 6, None).
Proof.
  assert (Hc : count l = 1) by (eapply table_count_one; [eassumption | rewrite Hk; discriminate]).
  destruct (settingTypes_index _ _ Hl) as [H1 H2].
  unfold Float32.write, Float32.Size, Float32.size. cbn [Float32.Type_ Float32.Val].
  rewrite H1, H2. cbn [bind]. rewrite Hc, Hs.
  change (len [v]) with 1. unfold float32Size, headerSize. cbn [Z.eqb Pos.eqb negb orb].
  replace (len (d0 :: d1 :: d2 :: d3 :: d4 :: d5 :: rest) <? 2 + 1 * 4) with false
    by (symmetry; apply Z.ltb_ge; len_side).
  go_eval. unfold headerSize. rewrite slice_from_2. cbn [bind].
  rewrite PutUint32_cons. cbn [bind]. reflexivity.
Qed.

Lemma Float32_UnmarshalBinary_one w0 rest :
  Float32.UnmarshalBinary w0 (record ++ rest) = Done (Float32.mk t [v], None).
Proof.
  unfold Float32.UnmarshalBinary, Float32.size, headerSize, float32Size, record.
  cbn [app].
  replace (len (_ :: _ :: _ :: _ :: _ :: _ :: rest) <? 2) with false
    by (symmetry; apply Z.ltb_ge; len_side).
  rewrite index_1. cbn [bind]. rewrite byte_one.
  replace (len (_ :: _ :: _ :: _ :: _ :: _ :: rest) <? 2 + 1 * 4) with false
    by (symmetry; apply Z.ltb_ge; len_side).
  rewrite index_0, slice_from_2. cbn [bind].
  change (Z.to_nat 1) with 1%nat. cbn [Float32.get_all].
  rewrite Uint32_cons. cbn [bind]. unfold float32Size. rewrite slice_from_4.
  cbn [bind]. rewrite uint32_bytes by assumption.
  unfold math.Float32frombits. destruct v. reflexivity.
Qed.

Lemma Float32_parseSetting_one :
  parseSetting record = Done ([OfFloat32 (Float32.mk t [v])], None).
Proof.
  destruct (settingTypes_index _ _ Hl) as [H1 H2].
  unfold parseSetting. change (length record) with 6%nat.
  cbn [parseSetting_loop]. change (len record =? 0) with false. cbv iota.
  unfold record at 1. rewrite index_0. cbn [bind].
  rewrite H1, H2. cbn [bind]. rewrite Hk.
  change (float32Kind =? 0) with false.
  change (float32Kind =? uint8Kind) with false.
  change (float32Kind =? uint16Kind) with false.
  change (float32Kind =? float32Kind) with true. cbv iota.
  rewrite <- (app_nil_r record) at 1.
  rewrite Float32_UnmarshalBinary_one. cbn [bind].
  change (Size (OfFloat32 (Float32.mk t [v]))) with 6.
  unfold record. rewrite slice_from_ok by len_side. cbn [bind]. reflexivity.
Qed.
End RoundTripFloat32.

Section RoundTripAll.

Lemma table_entry t kind n width :
  match nth_error settingTypes (Z.to_nat (byte.unsigned t)) with
  | Some l => (typ l =? kind) && (count l =? n) && (size l =? width)
  | None => false
  end = true ->
  kind <> 0 ->
  exists l, nth_error settingTypes (Z.to_nat (byte.unsigned t)) = Some l /\
            typ l = kind /\ size l = width /\ n = 1.
Proof.
  destruct (nth_error settingTypes (Z.to_nat (byte.unsigned t))) as [l|] eqn:E;
    [|discriminate].
  intros H Hk. apply andb_prop in H. destruct H as [H Hw].
  apply andb_prop in H. destruct H as [Ht Hc].
  apply Z.eqb_eq in Ht, Hc, Hw.
  exists l. repeat split; try assumption.
  rewrite <- Hc. eapply table_count_one; [eassumption | congruence].
Qed.

Lemma four_cells {A} (s : list A) :
  4 <= len s -> exists a b c d rest, s = a :: b :: c :: d :: rest.
Proof.
  destruct s as [|a [|b [|c [|d rest]]]]; intros H; try (exfalso; len_side).
  eauto 6.
Qed.

Lemma three_cells {A} (s : list A) :
  3 <= len s -> exists a b c rest, s = a :: b :: c :: rest.
Proof.
  destruct s as [|a [|b [|c rest]]]; intros H; try (exfalso; len_side).
  eauto 6.
Qed.

Lemma six_cells {A} (s : list A) :
  6 <= len s -> exists a b c d e f rest, s = a :: b :: c :: d :: e :: f :: rest.
Proof.
  destruct s as [|a [|b [|c [|d [|e [|f rest]]]]]]; intros H;
    try (exfalso; len_side).
  eauto 8.
Qed.
End RoundTripAll.

(** C8: for every setting whose [SettingType] is in the table and whose
    kind, element count and element width are those the table requires,
    [write] into a buffer of at least [Size()] bytes succeeds and returns
    [Size()], and [UnmarshalBinary] of the setting's type, run on the buffer
    or on its written prefix, gives back the same type tag and values; so
    does [parseSetting] on the written prefix. *)
Theorem write_then_UnmarshalBinary_round_trip (s : Setting) (dst : list byte) :
  matches_table s = true ->
  values_in_range s ->
  Size s <= len dst ->
  exists dst',
    write s dst = Done (dst', Size s, None) /\
    unmarshals_to dst' s /\
    unmarshals_to (firstn (Z.to_nat (Size s)) dst') s /\
    parseSetting (firstn (Z.to_nat (Size s)) dst') = Done ([s], None).
Proof.
  destruct s as [w | [t val] | [t val] | [t val]];
    cbn [matches_table values_in_range Size write unmarshals_to
         Uint8.Type_ Uint8.Val Uint16.Type_ Uint16.Val Float32.Type_ Float32.Val];
    intros Hm Hv Hsz; [discriminate | | | ].
  - apply table_entry in Hm; [|discriminate].
    destruct Hm as (l & Hl & Hk & Hs & Hn).
    destruct (len_one _ Hn) as [v ->].
    change (Uint8.Size (Uint8.mk t [v])) with 3 in *.
    destruct (three_cells _ Hsz) as (d0 & d1 & d2 & rest & ->).
    eexists. split; [eapply Uint8_write_one; eassumption|].
    split; [intros w0; eapply Uint8_UnmarshalBinary_one; eassumption|].
    change (firstn (Z.to_nat 3) (?r ++ rest)) with r.
    split; [|eapply Uint8_parseSetting_one; eassumption].
    intros w0.
    rewrite <- (app_nil_r [t; byte.of_Z 1; v]).
    eapply Uint8_UnmarshalBinary_one; eassumption.
  - apply table_entry in Hm; [|discriminate].
    destruct Hm as (l & Hl & Hk & Hs & Hn).
    destruct (len_one _ Hn) as [v ->].
    assert (Hv1 : uint16 v) by (inversion Hv; assumption).
    change (Uint16.Size (Uint16.mk t [v])) with 4 in *.
    destruct (four_cells _ Hsz) as (d0 & d1 & d2 & d3 & rest & ->).
    eexists. split; [eapply Uint16_write_one; eassumption|].
    split; [intros w0; eapply Uint16_UnmarshalBinary_one; eassumption|].
    change (firstn (Z.to_nat 4) (?r ++ rest)) with r.
    split; [|eapply Uint16_parseSetting_one; eassumption].
    intros w0.
    rewrite <- (app_nil_r [t; byte.of_Z 1; byte.of_Z v; byte.of_Z (Z.shiftr v 8)]).
    eapply Uint16_UnmarshalBinary_one; eassumption.
  - apply table_entry in Hm; [|discriminate].
    destruct Hm as (l & Hl & Hk & Hs & Hn).
    destruct (len_one _ Hn) as [v ->].
    assert (Hv1 : uint32 (math.bits v)) by (inversion Hv; assumption).
    change (Float32.Size (Float32.mk t [v])) with 6 in *.
    destruct (six_cells _ Hsz) as (d0 & d1 & d2 & d3 & d4 & d5 & rest & ->).
    eexists. split; [eapply Float32_write_one; eassumption|].
    split; [intros w0; eapply Float32_UnmarshalBinary_one; eassumption|].
    change (firstn (Z.to_nat 6) (?r ++ rest)) with r.
    split; [|eapply Float32_parseSetting_one; eassumption].
    intros w0.
    rewrite <- (app_nil_r [t; byte.of_Z 1; byte.of_Z (math.bits v);
                           byte.of_Z (Z.shiftr (math.bits v) 8);
                           byte.of_Z (Z.shiftr (math.bits v) 16);
                           byte.of_Z (Z.shiftr (math.bits v) 24)]).
    eapply Float32_UnmarshalBinary_one; eassumption.
Qed.

Lemma write_then_UnmarshalBinary_round_trip_witness :
  let s := OfUint16 (Uint16.mk SampleRateSetting [130]) in
  let dst := repeat Byte.xff 5 in
  exists dst',
    write s dst = Done (dst', 4, None) /\
    (forall w0, Uint16.UnmarshalBinary w0 (firstn 4 dst')
                = Done (Uint16.mk SampleRateSetting [130], None)).
Proof.
  intros s dst.
  destruct (write_then_UnmarshalBinary_round_trip s dst) as (dst' & Hw & _ & Hu & _).
  - vm_compute. reflexivity.
  - repeat constructor; vm_compute; congruence.
  - vm_compute. discriminate.
  - exists dst'. split; [exact Hw | exact Hu].
Defined.

(** * Further properties *)

(** ** The ring buffer: invariants and composition *)

Section RingMore.
Context {T : Type}.
Implicit Types (r : Buffer T) (src dst : list T).

Lemma copy_len dst src : len (fst (copy dst src)) = len dst.
Proof.
  unfold copy. cbn [fst]. rewrite len_app, len_firstn, len_skipn.
  pose proof (len_nonneg dst). pose proof (len_nonneg src). lia.
Qed.

Lemma copy_all dst src : len src = len dst -> fst (copy dst src) = src.
Proof.
  intros H. unfold copy. cbn [fst]. rewrite H, Z.min_id.
  rewrite firstn_all2, skipn_all2 by (unfold len in *; lia).
  apply app_nil_r.
Qed.

Lemma valid_span_len r : wf r -> len (valid_span r) = Len r.
Proof.
  intros [Hh Ht]. unfold valid_span, Len.
  destruct (head r <=? tail r) eqn:E;
    [apply Z.leb_le in E | apply Z.leb_gt in E].
  - rewrite len_firstn, len_skipn. lia.
  - rewrite len_app, len_firstn, len_skipn. lia.
Qed.
End RingMore.

Lemma Len_in_range {T : Type} (r : Buffer T) :
  wf r -> Len r = len (valid_span r) /\ 0 <= Len r <= ring.Size r.
Proof.
  intros Hwf. split; [symmetry; apply valid_span_len; assumption|].
  destruct Hwf as [Hh Ht]. unfold Len, ring.Size.
  destruct (head r <=? tail r) eqn:E;
    [apply Z.leb_le in E | apply Z.leb_gt in E]; lia.
Qed.

Lemma Write_wf {T : Type} (r : Buffer T) (src : list T) :
  wf r -> exists r', Write r src = Done r' /\ wf r' /\ ring.Size r' = ring.Size r.
Proof.
  intros [Hh Ht]. unfold Write, ring.Size, wf.
  pose proof (len_nonneg src) as Hs. pose proof (len_nonneg (data r)) as Hd.
  destruct (len (data r) <=? len src) eqn:E;
    [apply Z.leb_le in E | apply Z.leb_gt in E].
  - rewrite slice_from_ok by lia. cbn [bind]. eexists. split; [reflexivity|].
    cbn [data head tail]. rewrite copy_len. lia.
  - rewrite slice_from_ok by lia. cbn [bind].
    set (d := skipn (Z.to_nat (tail r)) (data r)).
    assert (Hdl : len d = len (data r) - tail r) by (unfold d; rewrite len_skipn; lia).
    pose proof (copy_len d src) as Hc.
    destruct (copy d src) as [d' n] eqn:Ec. cbn [fst] in Hc.
    assert (Hn : n = Z.min (len d) (len src)) by (unfold copy in Ec; congruence).
    assert (H1 : len (splice (data r) (tail r) d') = len (data r))
      by (unfold splice; rewrite len_app, len_firstn; lia).
    destruct (len src <=? n) eqn:E2;
      [apply Z.leb_le in E2 | apply Z.leb_gt in E2].
    + eexists. split; [reflexivity|]. cbn [data head tail]. lia.
    + rewrite slice_from_ok by lia. cbn [bind].
      set (s := skipn (Z.to_nat n) src).
      pose proof (copy_len (splice (data r) (tail r) d') s) as Hc2.
      destruct (copy (splice (data r) (tail r) d') s) as [data2 t] eqn:Ec2.
      cbn [fst] in Hc2.
      assert (Ht2 : t = Z.min (len (splice (data r) (tail r) d')) (len s))
        by (unfold copy in Ec2; congruence).
      assert (Hsl : len s = len src - n) by (unfold s; rewrite len_skipn; lia).
      eexists. split; [reflexivity|]. cbn [data head tail].
      destruct (head r <? t) eqn:E3;
        [apply Z.ltb_lt in E3 | apply Z.ltb_ge in E3]; lia.
Qed.

Lemma Write_overflow {T : Type} (r : Buffer T) (src : list T) :
  ring.Size r <= len src ->
  let newest := skipn (Z.to_nat (len src - ring.Size r)) src in
  Write r src = Done (mkBuffer newest 0 (ring.Size r)) /\
  valid_span (mkBuffer newest 0 (ring.Size r)) = newest.
Proof.
  intros H newest. unfold ring.Size in *. pose proof (len_nonneg (data r)) as Hd.
  assert (Hn : len newest = len (data r)) by (unfold newest; rewrite len_skipn; lia).
  split.
  - unfold Write. replace (len (data r) <=? len src) with true
      by (symmetry; apply Z.leb_le; assumption).
    rewrite slice_from_ok by lia. cbn [bind]. fold newest.
    rewrite copy_all by assumption. reflexivity.
  - unfold valid_span. cbn [head tail data].
    replace (0 <=? len (data r)) with true by (symmetry; apply Z.leb_le; lia).
    cbn [Z.to_nat skipn]. apply firstn_all2. unfold len in *. lia.
Qed.

Lemma Write_fits {T : Type} (r : Buffer T) (src : list T) :
  wf r -> head r <= tail r ->
  len src < ring.Size r -> tail r + len src <= ring.Size r ->
  exists r',
    Write r src = Done r' /\
    head r' = head r /\ tail r' = tail r + len src /\
    ring.Size r' = ring.Size r /\
    valid_span r' = valid_span r ++ src.
Proof.
  intros [Hh Ht] Hle Hlt Hfit. unfold ring.Size in *.
  pose proof (len_nonneg src) as Hs.
  unfold Write.
  replace (len (data r) <=? len src) with false by (symmetry; apply Z.leb_gt; lia).
  rewrite slice_from_ok by lia. cbn [bind]. unfold copy.
  rewrite len_skipn.
  replace (Z.min (Z.max 0 (len (data r) - Z.of_nat (Z.to_nat (tail r)))) (len src))
    with (len src) by lia.
  replace (len src <=? len src) with true by (symmetry; apply Z.leb_le; lia).
  eexists. split; [reflexivity|]. cbn [head tail data].
  repeat split.
  - unfold splice. rewrite !len_app, !len_firstn, !len_skipn. lia.
  - unfold valid_span. cbn [head tail data].
    replace (head r <=? tail r + len src) with true by (symmetry; apply Z.leb_le; lia).
    replace (head r <=? tail r) with true by (symmetry; apply Z.leb_le; lia).
    unfold splice.
    rewrite (firstn_all2 (n := Z.to_nat (len src))) by (unfold len; lia).
    rewrite skipn_app, length_firstn.
    replace (Z.to_nat (head r) - Nat.min (Z.to_nat (tail r)) (length (data r)))%nat
      with 0%nat by (unfold len in *; lia).
    cbn [skipn].
    rewrite firstn_app.
    assert (Hl : length (skipn (Z.to_nat (head r)) (firstn (Z.to_nat (tail r)) (data r)))
                 = Z.to_nat (tail r - head r))
      by (rewrite length_skipn, length_firstn; unfold len in *; lia).
    rewrite Hl.
    rewrite (firstn_all2 (n := Z.to_nat (tail r + len src - head r)))
      by (rewrite Hl; lia).
    replace (Z.to_nat (tail r + len src - head r) - Z.to_nat (tail r - head r))%nat
      with (length src) by (unfold len in *; lia).
    rewrite firstn_app, firstn_all, Nat.sub_diag. cbn [firstn].
    rewrite app_nil_r. f_equal.
    rewrite firstn_skipn_comm. f_equal. f_equal. lia.
Qed.

Lemma Advance_within {T : Type} (r : Buffer T) (n : Z) :
  wf r -> 0 <= n <= Len r ->
  let r' := Advance r n in
  wf r' /\ data r' = data r /\ tail r' = tail r /\
  Len r' = Len r - n /\
  valid_span r' = skipn (Z.to_nat n) (valid_span r).
Proof.
  intros [Hh Ht] Hn. unfold Len in Hn. unfold Advance.
  destruct (head r <? tail r) eqn:E;
    [apply Z.ltb_lt in E | apply Z.ltb_ge in E].
  - replace (head r <=? tail r) with true in Hn by (symmetry; apply Z.leb_le; lia).
    replace (Z.min n (tail r - head r)) with n by lia.
    cbv zeta. unfold wf, Len, valid_span. cbn [head tail data].
    replace (head r <=? tail r) with true by (symmetry; apply Z.leb_le; lia).
    replace (head r + n <=? tail r) with true by (symmetry; apply Z.leb_le; lia).
    repeat split; try lia.
    rewrite skipn_firstn_comm, skipn_skipn. f_equal; [lia | f_equal; lia].
  - destruct (head r <=? tail r) eqn:E2;
      [apply Z.leb_le in E2 | apply Z.leb_gt in E2].
    + (* head = tail: nothing to discard *)
      assert (n = 0) as -> by lia. assert (Heq : head r = tail r) by lia.
      replace (0 <=? len (data r) - head r) with true by (symmetry; apply Z.leb_le; lia).
      cbv zeta. unfold wf, Len, valid_span. cbn [head tail data].
      rewrite Z.add_0_r.
      replace (head r <=? tail r) with true by (symmetry; apply Z.leb_le; lia).
      repeat split; try lia.
    + destruct (n <=? len (data r) - head r) eqn:E3;
        [apply Z.leb_le in E3 | apply Z.leb_gt in E3];
        cbv zeta; unfold wf, Len, valid_span; cbn [head tail data].
      * replace (head r <=? tail r) with false by (symmetry; apply Z.leb_gt; lia).
        replace (head r + n <=? tail r) with false by (symmetry; apply Z.leb_gt; lia).
        repeat split; try lia.
        rewrite skipn_app, skipn_skipn, length_skipn.
        replace (Z.to_nat n - (length (data r) - Z.to_nat (head r)))%nat with 0%nat
          by (unfold len in *; lia).
        cbn [skipn]. f_equal. f_equal. lia.
      * replace (head r <=? tail r) with false by (symmetry; apply Z.leb_gt; lia).
        replace (n - (len (data r) - head r) <=? tail r) with true
          by (symmetry; apply Z.leb_le; lia).
        repeat split; try lia.
        rewrite skipn_app, length_skipn.
        rewrite (skipn_all2 (n := Z.to_nat n))
          by (rewrite length_skipn; unfold len in *; lia).
        cbn [app]. rewrite skipn_firstn_comm. f_equal; [unfold len in *; lia|].
        f_equal. unfold len in *. lia.
Qed.

Lemma Read_within {T : Type} (r : Buffer T) (dst : list T) :
  wf r -> head r <> tail r ->
  let n := Z.min (len dst) (Len r) in
  exists r',
    Read r dst
    = Done (r', firstn (Z.to_nat n) (valid_span r) ++ skipn (Z.to_nat n) dst, n) /\
    wf r' /\ data r' = data r /\ tail r' = tail r /\
    Len r' = Len r - n /\
    valid_span r' = skipn (Z.to_nat n) (valid_span r).
Proof.
  intros Hwf Hne n.
  assert (HC : CopyTo r dst
               = Done (r, firstn (Z.to_nat n) (valid_span r) ++ skipn (Z.to_nat n) dst, n)).
  { destruct (Z.lt_trichotomy (head r) (tail r)) as [Hlt | [Heq | Hgt]];
      [apply CopyTo_unwrapped | contradiction | apply CopyTo_wrapped]; assumption. }
  unfold Read. rewrite HC. cbn [bind].
  exists (Advance r n). split; [reflexivity|].
  apply Advance_within; [assumption|].
  pose proof (Len_in_range r Hwf) as [_ Hb]. pose proof (len_nonneg dst).
  unfold n. lia.
Qed.

(** X1: in a buffer whose cursors lie within the backing array, [Len()] is
    the length of the span from [head] to [tail] and lies between 0 and
    [Size()]. *)
Theorem Len_bounds {T : Type} (r : Buffer T) :
  wf r -> Len r = len (valid_span r) /\ 0 <= Len r <= ring.Size r.
Proof.
  intros. eapply Len_in_range; eassumption.
Qed.

Lemma Len_bounds_witness :
  let r := mkBuffer [5; 2; 3; 4] 2 1 in
  Len r = len (valid_span r) /\ 0 <= Len r <= ring.Size r.
Proof.
  intros r. apply (Len_bounds r). unfold wf, len. cbn. lia.
Defined.

(** X2: [Write] on a buffer whose cursors lie within the backing array
    never panics, keeps the cursors within the array and keeps the
    capacity. *)
Theorem Write_keeps_wf {T : Type} (r : Buffer T) (src : list T) :
  wf r -> exists r', Write r src = Done r' /\ wf r' /\ ring.Size r' = ring.Size r.
Proof.
  intros. eapply Write_wf; eassumption.
Qed.

Lemma Write_keeps_wf_witness :
  let r := mkBuffer [1; 2; 3; 0] 0 3 in
  exists r', Write r [4; 5; 6] = Done r' /\ wf r' /\ ring.Size r' = ring.Size r.
Proof.
  intros r. apply (Write_keeps_wf r [4; 5; 6]). unfold wf, len. cbn. lia.
Defined.

(** X3: a [Write] of at least as many elements as the capacity leaves the
    last [Size()] elements of the source in the backing array, with head 0
    and tail [Size()], whatever the buffer held; they are its valid span. *)
Theorem Write_overflow_keeps_newest {T : Type} (r : Buffer T) (src : list T) :
  ring.Size r <= len src ->
  let newest := skipn (Z.to_nat (len src - ring.Size r)) src in
  Write r src = Done (mkBuffer newest 0 (ring.Size r)) /\
  valid_span (mkBuffer newest 0 (ring.Size r)) = newest.
Proof.
  intros. eapply Write_overflow; eassumption.
Qed.

Lemma Write_overflow_keeps_newest_witness :
  Write (NewBuffer 0 4) [1; 2; 3; 4; 5] = Done (mkBuffer [2; 3; 4; 5] 0 4) /\
  valid_span (mkBuffer [2; 3; 4; 5] 0 4) = [2; 3; 4; 5].
Proof.
  apply (Write_overflow_keeps_newest (NewBuffer 0 4) [1; 2; 3; 4; 5]).
  vm_compute. discriminate.
Defined.



(** X5: [Advance(n)] with [n] between 0 and [Len()] discards exactly the
    [n] oldest elements: the backing array and the tail stay, the cursors
    stay within the array, [Len()] drops by [n] and the valid span loses
    its first [n] elements. *)
Theorem Advance_discards_oldest {T : Type} (r : Buffer T) (n : Z) :
  wf r -> 0 <= n <= Len r ->
  let r' := Advance r n in
  wf r' /\ data r' = data r /\ tail r' = tail r /\
  Len r' = Len r - n /\
  valid_span r' = skipn (Z.to_nat n) (valid_span r).
Proof.
  intros. eapply Advance_within; eassumption.
Qed.

Lemma Advance_discards_oldest_witness :
  let r := mkBuffer [5; 2; 3; 4] 2 1 in
  Len (Advance r 3) = 0 /\ valid_span (Advance r 2) = [5].
Proof.
  intros r.
  assert (Hwf : wf r) by (unfold wf, len; cbn; lia).
  split.
  - destruct (Advance_discards_oldest r 3 Hwf) as (_ & _ & _ & H & _).
    + vm_compute. intuition discriminate.
    + exact H.
  - destruct (Advance_discards_oldest r 2 Hwf) as (_ & _ & _ & _ & H).
    + vm_compute. intuition discriminate.
    + exact H.
Defined.

(** X6: on a buffer with [head != tail] whose cursors lie within the
    array, [Read] copies the [min(len(dst), Len())] oldest elements into
    [dst], returns that count and consumes exactly those elements: [Len()]
    drops by the count and the rest of the valid span stays, in order. *)
Theorem Read_consumes_what_it_copies {T : Type} (r : Buffer T) (dst : list T) :
  wf r -> head r <> tail r ->
  let n := Z.min (len dst) (Len r) in
  exists r',
    Read r dst
    = Done (r', firstn (Z.to_nat n) (valid_span r) ++ skipn (Z.to_nat n) dst, n) /\
    wf r' /\ data r' = data r /\ tail r' = tail r /\
    Len r' = Len r - n /\
    valid_span r' = skipn (Z.to_nat n) (valid_span r).
Proof.
  intros. eapply Read_within; eassumption.
Qed.

Lemma Read_consumes_what_it_copies_witness :
  exists r',
    Read (mkBuffer [5; 2; 3; 4] 2 1) [0; 0] = Done (r', [3; 4], 2) /\
    Len r' = 1 /\ valid_span r' = [5].
Proof.
  destruct (Read_consumes_what_it_copies (mkBuffer [5; 2; 3; 4] 2 1) [0; 0])
    as (r' & Hr & _ & _ & _ & Hl & Hv).
  - unfold wf, len. cbn. lia.
  - cbn. discriminate.
  - exists r'. repeat split; assumption.
Defined.

(** X7: after one non-empty [Write] into a new buffer of positive
    capacity, a [Read] into a destination that is long enough returns the
    last [min(len(src), capacity)] elements of the source, in order, and
    leaves [Len()] at 0. *)
Theorem Write_then_Read_new_buffer {T : Type} (zero : T) (cap : nat)
    (src dst : list T) :
  (0 < cap)%nat -> src <> [] ->
  let k := Z.min (len src) (Z.of_nat cap) in
  k <= len dst ->
  exists r',
    (r1 <- Write (NewBuffer zero cap) src ;; Read r1 dst)
    = Done (r', skipn (Z.to_nat (len src - k)) src ++ skipn (Z.to_nat k) dst, k) /\
    Len r' = 0.
Proof.
  intros Hcap Hsrc k Hk.
  assert (Hs : 0 < len src) by (destruct src; [congruence | rewrite len_cons; pose proof (len_nonneg src); lia]).
  assert (Hsize : ring.Size (NewBuffer zero cap) = Z.of_nat cap)
    by (unfold ring.Size, NewBuffer, len; cbn [data]; rewrite repeat_length; reflexivity).
  assert (Hwf : wf (NewBuffer zero cap))
    by (unfold wf; fold (ring.Size (NewBuffer zero cap)); rewrite Hsize; cbn [head tail NewBuffer]; lia).
  destruct (Z_le_gt_dec (Z.of_nat cap) (len src)) as [Hge | Hlt].
  - (* the source fills the buffer *)
    destruct (Write_overflow (NewBuffer zero cap) src) as [Hw Hv];
      [rewrite Hsize; assumption|].
    rewrite Hsize in Hw, Hv. rewrite Hw. cbn [bind].
    set (r1 := mkBuffer (skipn (Z.to_nat (len src - Z.of_nat cap)) src) 0 (Z.of_nat cap)) in *.
    assert (Hl1 : len (data r1) = Z.of_nat cap)
      by (unfold r1; cbn [data]; rewrite len_skipn; lia).
    assert (Hwf1 : wf r1) by (unfold wf; rewrite Hl1; cbn [head tail r1]; lia).
    destruct (Read_within r1 dst Hwf1) as (r' & Hr & _ & _ & _ & Hl & _);
      [cbn [head tail r1]; lia|].
    assert (HLen : Len r1 = Z.of_nat cap)
      by (unfold Len; cbn [head tail r1];
          replace (0 <=? Z.of_nat cap) with true by (symmetry; apply Z.leb_le; lia); lia).
    rewrite HLen in Hr, Hl.
    replace (Z.min (len dst) (Z.of_nat cap)) with k in Hr, Hl by (unfold k in *; lia).
    assert (Hkc : k = Z.of_nat cap) by (unfold k; lia).
    exists r'. split; [|lia]. rewrite Hr, Hv, Hkc.
    rewrite firstn_all2; [reflexivity|].
    unfold len in Hl1. cbn [data r1] in Hl1. lia.
  - (* the source fits *)
    destruct (Write_fits (NewBuffer zero cap) src Hwf) as (r1 & Hw & Hh & Ht & Hsz & Hv);
      [cbn [head tail NewBuffer]; lia | rewrite Hsize; lia
      | rewrite Hsize; cbn [tail NewBuffer]; lia |].
    rewrite Hw. cbn [bind].
    destruct (Write_wf (NewBuffer zero cap) src Hwf) as (r1' & Hw' & Hwf1 & _).
    assert (r1' = r1) as -> by congruence.
    cbn [head tail NewBuffer] in Hh, Ht.
    assert (Hspan : valid_span r1 = src).
    { rewrite Hv. unfold valid_span. cbn [head tail NewBuffer]. reflexivity. }
    destruct (Read_within r1 dst Hwf1) as (r' & Hr & _ & _ & _ & Hl & _);
      [lia|].
    assert (HLen : Len r1 = len src)
      by (rewrite <- (valid_span_len r1 Hwf1), Hspan; reflexivity).
    rewrite HLen in Hr, Hl.
    assert (Hkc : k = len src) by (unfold k; lia).
    replace (Z.min (len dst) (len src)) with k in Hr, Hl by lia.
    exists r'. split; [|lia]. rewrite Hr, Hspan, Hkc, Z.sub_diag.
    cbn [Z.to_nat skipn].
    rewrite firstn_all2; [reflexivity|]. unfold len. lia.
Qed.

Lemma Write_then_Read_new_buffer_witness :
  exists r',
    (r1 <- Write (NewBuffer 0 4) [1; 2; 3; 4; 5] ;; Read r1 [9; 9; 9; 9; 9])
    = Done (r', [2; 3; 4; 5; 9], 4) /\ Len r' = 0.
Proof.
  apply (Write_then_Read_new_buffer 0 4%nat [1; 2; 3; 4; 5] [9; 9; 9; 9; 9]).
  - lia.
  - discriminate.
  - vm_compute. discriminate.
Defined.

(** ** The setting codec: what [write] and [UnmarshalBinary] return *)

Section WriteFacts.

(** In the table, the element width determines the kind. *)
Lemma table_size_kind i l :
  nth_error settingTypes i = Some l ->
  (size l = uint8Size -> typ l = uint8Kind) /\
  (size l = uint16Size -> typ l = uint16Kind) /\
  (size l = float32Size -> typ l = float32Kind).
Proof.
  intros E.
  do 6 (destruct i as [|i];
        [injection E as <-; repeat split; intros H; solve [reflexivity | discriminate H]|]).
  destruct i; discriminate.
Qed.

Lemma settingTypes_none t :
  nth_error settingTypes (Z.to_nat (byte.unsigned t)) = None ->
  (len settingTypes <=? byte.unsigned t) = true.
Proof.
  intros E. apply nth_error_None in E. pose proof (byte.unsigned_range t).
  apply Z.leb_le. unfold len. lia.
Qed.

Lemma setCommand_write_result w dst :
  setCommand.write w dst
  = if len dst <? 2 then Done (dst, 0, Some ErrDstTooShort)
    else Done (encoding (OfCommand w) ++ skipn 2 dst, 2, None).
Proof.
  unfold setCommand.write. cbv zeta.
  destruct (len dst <? 2) eqn:E; [reflexivity|]. apply Z.ltb_ge in E.
  destruct dst as [|a [|b rest]]; try (exfalso; len_side).
  go_eval. reflexivity.
Qed.

Lemma Uint8_write_result w dst :
  Uint8.write w dst
  = if matches_table (OfUint8 w) then
      if len dst <? Uint8.Size w then Done (dst, 0, Some ErrDstTooShort)
      else Done (encoding (OfUint8 w) ++ skipn (Z.to_nat (Uint8.Size w)) dst,
                 Uint8.Size w, None)
    else Done (dst, 0, Some (ErrInvalidSettingType (Uint8.Type_ w))).
Proof.
  destruct w as [t val]. cbn [matches_table Uint8.Type_ Uint8.Val].
  destruct (nth_error settingTypes (Z.to_nat (byte.unsigned t))) as [l|] eqn:El.
  - destruct ((typ l =? uint8Kind) && (count l =? len val) && (size l =? uint8Size)) eqn:Em.
    + pose proof (table_entry t uint8Kind (len val) uint8Size) as H.
      rewrite El in H. destruct (H Em) as (l' & Hl' & Hk & Hs & Hn); [discriminate|].
      injection Hl' as <-. destruct (len_one _ Hn) as [v ->].
      change (Uint8.Size (Uint8.mk t [v])) with 3.
      destruct (len dst <? 3) eqn:E; [|apply Z.ltb_ge in E].
      * destruct (settingTypes_index _ _ El) as [H1 H2].
        assert (Hc : count l = 1) by (eapply table_count_one; [eassumption | rewrite Hk; discriminate]).
        unfold Uint8.write, Uint8.Size, Uint8.size. cbn [Uint8.Type_ Uint8.Val].
        rewrite H1, H2. cbn [bind]. rewrite Hc, Hs.
        change (len [v]) with 1. unfold uint8Size, headerSize.
        cbn [Z.eqb Pos.eqb negb orb]. change (2 + 1 * 1) with 3. rewrite E. reflexivity.
      * destruct (three_cells _ E) as (d0 & d1 & d2 & rest & ->).
        erewrite Uint8_write_one by eassumption. reflexivity.
    + destruct (settingTypes_index _ _ El) as [H1 H2].
      unfold Uint8.write. cbn [Uint8.Type_ Uint8.Val]. rewrite H1, H2. cbn [bind].
      destruct (negb (count l =? len val) || negb (size l =? uint8Size)) eqn:Ec;
        [reflexivity|].
      apply orb_false_elim in Ec. destruct Ec as [Ec Es].
      apply negb_false_iff in Ec, Es. rewrite Ec, Es in Em.
      apply Z.eqb_eq in Es.
      destruct (table_size_kind _ _ El) as (Hk & _ & _).
      rewrite (Hk Es) in Em. discriminate.
  - unfold Uint8.write. cbn [Uint8.Type_ Uint8.Val].
    rewrite (settingTypes_none _ El). reflexivity.
Qed.

Lemma Uint16_write_result w dst :
  Uint16.write w dst
  = if matches_table (OfUint16 w) then
      if len dst <? Uint16.Size w then Done (dst, 0, Some ErrDstTooShort)
      else Done (encoding (OfUint16 w) ++ skipn (Z.to_nat (Uint16.Size w)) dst,
                 Uint16.Size w, None)
    else Done (dst, 0, Some (ErrInvalidSettingType (Uint16.Type_ w))).
Proof.
  destruct w as [t val]. cbn [matches_table Uint16.Type_ Uint16.Val].
  destruct (nth_error settingTypes (Z.to_nat (byte.unsigned t))) as [l|] eqn:El.
  - destruct ((typ l =? uint16Kind) && (count l =? len val) && (size l =? uint16Size)) eqn:Em.
    + pose proof (table_entry t uint16Kind (len val) uint16Size) as H.
      rewrite El in H. destruct (H Em) as (l' & Hl' & Hk & Hs & Hn); [discriminate|].
      injection Hl' as <-. destruct (len_one _ Hn) as [v ->].
      change (Uint16.Size (Uint16.mk t [v])) with 4.
      destruct (len dst <? 4) eqn:E; [|apply Z.ltb_ge in E].
      * destruct (settingTypes_index _ _ El) as [H1 H2].
        assert (Hc : count l = 1) by (eapply table_count_one; [eassumption | rewrite Hk; discriminate]).
        unfold Uint16.write, Uint16.Size, Uint16.size. cbn [Uint16.Type_ Uint16.Val].
        rewrite H1, H2. cbn [bind]. rewrite Hc, Hs.
        change (len [v]) with 1. unfold uint16Size, headerSize.
        cbn [Z.eqb Pos.eqb negb orb]. change (2 + 1 * 2) with 4. rewrite E. reflexivity.
      * destruct (four_cells _ E) as (d0 & d1 & d2 & d3 & rest & ->).
        erewrite Uint16_write_one by eassumption. reflexivity.
    + destruct (settingTypes_index _ _ El) as [H1 H2].
      unfold Uint16.write. cbn [Uint16.Type_ Uint16.Val]. rewrite H1, H2. cbn [bind].
      destruct (negb (count l =? len val) || negb (size l =? uint16Size)) eqn:Ec;
        [reflexivity|].
      apply orb_false_elim in Ec. destruct Ec as [Ec Es].
      apply negb_false_iff in Ec, Es. rewrite Ec, Es in Em.
      apply Z.eqb_eq in Es.
      destruct (table_size_kind _ _ El) as (_ & Hk & _).
      rewrite (Hk Es) in Em. discriminate.
  - unfold Uint16.write. cbn [Uint16.Type_ Uint16.Val].
    rewrite (settingTypes_none _ El). reflexivity.
Qed.

Lemma Float32_write_result w dst :
  Float32.write w dst
  = if matches_table (OfFloat32 w) then
      if len dst <? Float32.Size w then Done (dst, 0, Some ErrDstTooShort)
      else Done (encoding (OfFloat32 w) ++ skipn (Z.to_nat (Float32.Size w)) dst,
                 Float32.Size w, None)
    else Done (dst, 0, Some (ErrInvalidSettingType (Float32.Type_ w))).
Proof.
  destruct w as [t val]. cbn [matches_table Float32.Type_ Float32.Val].
  destruct (nth_error settingTypes (Z.to_nat (byte.unsigned t))) as [l|] eqn:El.
  - destruct ((typ l =? float32Kind) && (count l =? len val) && (size l =? float32Size)) eqn:Em.
    + pose proof (table_entry t float32Kind (len val) float32Size) as H.
      rewrite El in H. destruct (H Em) as (l' & Hl' & Hk & Hs & Hn); [discriminate|].
      injection Hl' as <-. destruct (len_one _ Hn) as [v ->].
      change (Float32.Size (Float32.mk t [v])) with 6.
      destruct (len dst <? 6) eqn:E; [|apply Z.ltb_ge in E].
      * destruct (settingTypes_index _ _ El) as [H1 H2].
        assert (Hc : count l = 1) by (eapply table_count_one; [eassumption | rewrite Hk; discriminate]).
        unfold Float32.write, Float32.Size, Float32.size. cbn [Float32.Type_ Float32.Val].
        rewrite H1, H2. cbn [bind]. rewrite Hc, Hs.
        change (len [v]) with 1. unfold float32Size, headerSize.
        cbn [Z.eqb Pos.eqb negb orb]. change (2 + 1 * 4) with 6. rewrite E. reflexivity.
      * destruct (six_cells _ E) as (d0 & d1 & d2 & d3 & d4 & d5 & rest & ->).
        erewrite Float32_write_one by eassumption. reflexivity.
    + destruct (settingTypes_index _ _ El) as [H1 H2].
      unfold Float32.write. cbn [Float32.Type_ Float32.Val]. rewrite H1, H2. cbn [bind].
      destruct (negb (count l =? len val) || negb (size l =? float32Size)) eqn:Ec;
        [reflexivity|].
      apply orb_false_elim in Ec. destruct Ec as [Ec Es].
      apply negb_false_iff in Ec, Es. rewrite Ec, Es in Em.
      apply Z.eqb_eq in Es.
      destruct (table_size_kind _ _ El) as (_ & _ & Hk).
      rewrite (Hk Es) in Em. discriminate.
  - unfold Float32.write. cbn [Float32.Type_ Float32.Val].
    rewrite (settingTypes_none _ El). reflexivity.
Qed.

(** What [write] returns, for every setting and destination. *)
Lemma write_cases (s : Setting) (dst : list byte) :
  write s dst
  = if encodable s then
      if len dst <? Size s then Done (dst, 0, Some ErrDstTooShort)
      else Done (encoding s ++ skipn (Z.to_nat (Size s)) dst, Size s, None)
    else Done (dst, 0, option_map ErrInvalidSettingType (setting_type s)).
Proof.
  destruct s as [w | w | w | w]; cbn [write encodable Size setting_type option_map].
  - apply setCommand_write_result.
  - apply Uint8_write_result.
  - apply Uint16_write_result.
  - apply Float32_write_result.
Qed.
End WriteFacts.

(** X8: [write] never panics.  For a [setCommand] or a setting that
    matches the table it returns "dst too short" when the destination is
    shorter than [Size()], and otherwise puts the wire bytes of the setting
    at the front of the destination, leaves the bytes after them as they
    were and returns [Size()]; for every other setting it returns "invalid
    setting type".  On an error the destination is unchanged and the count
    is 0. *)
Theorem write_result (s : Setting) (dst : list byte) :
  write s dst
  = if encodable s then
      if len dst <? Size s then Done (dst, 0, Some ErrDstTooShort)
      else Done (encoding s ++ skipn (Z.to_nat (Size s)) dst, Size s, None)
    else Done (dst, 0, option_map ErrInvalidSettingType (setting_type s)).
Proof.
  destruct (encodable s) eqn:E; rewrite write_cases, E; reflexivity.
Qed.

Section UnmarshalFacts.

Lemma Uint8_UnmarshalBinary_cases w data :
  (short_record uint8Size data = true /\
   Uint8.UnmarshalBinary w data = Done (w, Some ErrUnexpectedEOF)) \/
  (short_record uint8Size data = false /\
   exists t c rest val,
     data = t :: c :: rest /\
     Uint8.UnmarshalBinary w data = Done (Uint8.mk t val, None) /\
     len val = byte.unsigned c).
Proof.
  destruct data as [|t [|c rest]].
  - left. split; reflexivity.
  - left. split; reflexivity.
  - cbn [short_record]. unfold headerSize, uint8Size.
    destruct (len (t :: c :: rest) <? 2 + byte.unsigned c * 1) eqn:E.
    + left. split; [reflexivity|].
      unfold Uint8.UnmarshalBinary, Uint8.size, headerSize, uint8Size.
      replace (len (t :: c :: rest) <? 2) with false by (symmetry; apply Z.ltb_ge; len_side).
      rewrite index_1. cbn [bind]. rewrite E. reflexivity.
    + right. split; [reflexivity|]. apply Z.ltb_ge in E.
      destruct (Uint8_UnmarshalBinary_any_count w t c rest) as (val & Hu & Hl);
        [len_side|].
      exists t, c, rest, val. auto.
Qed.

Lemma Uint16_UnmarshalBinary_cases w data :
  (short_record uint16Size data = true /\
   Uint16.UnmarshalBinary w data = Done (w, Some ErrUnexpectedEOF)) \/
  (short_record uint16Size data = false /\
   exists t c rest val,
     data = t :: c :: rest /\
     Uint16.UnmarshalBinary w data = Done (Uint16.mk t val, None) /\
     len val = byte.unsigned c).
Proof.
  destruct data as [|t [|c rest]].
  - left. split; reflexivity.
  - left. split; reflexivity.
  - cbn [short_record]. unfold headerSize, uint16Size.
    destruct (len (t :: c :: rest) <? 2 + byte.unsigned c * 2) eqn:E.
    + left. split; [reflexivity|].
      unfold Uint16.UnmarshalBinary, Uint16.size, headerSize, uint16Size.
      replace (len (t :: c :: rest) <? 2) with false by (symmetry; apply Z.ltb_ge; len_side).
      rewrite index_1. cbn [bind]. rewrite E. reflexivity.
    + right. split; [reflexivity|]. apply Z.ltb_ge in E.
      destruct (Uint16_UnmarshalBinary_any_count w t c rest) as (val & Hu & Hl);
        [len_side|].
      exists t, c, rest, val. auto.
Qed.

Lemma Float32_UnmarshalBinary_cases w data :
  (short_record float32Size data = true /\
   Float32.UnmarshalBinary w data = Done (w, Some ErrUnexpectedEOF)) \/
  (short_record float32Size data = false /\
   exists t c rest val,
     data = t :: c :: rest /\
     Float32.UnmarshalBinary w data = Done (Float32.mk t val, None) /\
     len val = byte.unsigned c).
Proof.
  destruct data as [|t [|c rest]].
  - left. split; reflexivity.
  - left. split; reflexivity.
  - cbn [short_record]. unfold headerSize, float32Size.
    destruct (len (t :: c :: rest) <? 2 + byte.unsigned c * 4) eqn:E.
    + left. split; [reflexivity|].
      unfold Float32.UnmarshalBinary, Float32.size, headerSize, float32Size.
      replace (len (t :: c :: rest) <? 2) with false by (symmetry; apply Z.ltb_ge; len_side).
      rewrite index_1. cbn [bind]. rewrite E. reflexivity.
    + right. split; [reflexivity|]. apply Z.ltb_ge in E.
      destruct (Float32_UnmarshalBinary_any_count w t c rest) as (val & Hu & Hl);
        [len_side|].
      exists t, c, rest, val. auto.
Qed.

(** One turn of [parseSetting]'s loop never panics, and the loop returns. *)
Lemma parseSetting_loop_returns fuel : forall data settings,
  (length data <= fuel)%nat ->
  exists ss err, parseSetting_loop fuel data settings = Done (ss, err).
Proof.
  induction fuel as [|fuel IH]; intros data settings Hlen; cbn [parseSetting_loop];
    destruct (len data =? 0) eqn:E; eauto.
  - apply Z.eqb_neq in E. unfold len in E. lia.
  - destruct data as [|d0 rest]; [discriminate|].
    rewrite index_0. cbn [bind].
    destruct (len settingTypes <=? byte.unsigned d0) eqn:Et; eauto.
    apply Z.leb_gt in Et. pose proof (byte.unsigned_range d0) as Hr.
    destruct (nth_error settingTypes (Z.to_nat (byte.unsigned d0))) as [l|] eqn:El;
      [|apply nth_error_None in El; unfold len in Et; lia].
    rewrite (index_nth_error _ _ _ (proj1 Hr) El). cbn [bind].
    destruct (typ l =? 0); eauto.
    assert (Hgo : forall (set : Setting) (c : byte) (tl : list byte) (w : Z),
               0 <= w -> rest = c :: tl ->
               len (d0 :: rest) >= headerSize + byte.unsigned c * w ->
               Size set = headerSize + byte.unsigned c * w ->
               exists ss err,
                 (data0 <- slice_from (d0 :: rest) (Size set) ;;
                  parseSetting_loop fuel data0 (settings ++ [set])) = Done (ss, err)).
    { intros set c tl w Hw -> Hge Hsz. pose proof (byte.unsigned_range c).
      unfold headerSize in *.
      rewrite slice_from_ok by (rewrite Hsz; nia). cbn [bind].
      apply IH. rewrite length_skipn. cbn [length] in *. rewrite Hsz. nia. }
    destruct (typ l =? uint8Kind).
    { destruct (Uint8_UnmarshalBinary_cases Uint8.zero (d0 :: rest))
        as [[_ Hu] | (Hs & t & c & tl & val & Hd & Hu & Hl)];
        rewrite Hu; cbn [bind]; eauto.
      injection Hd as -> ->. cbn [short_record] in Hs. apply Z.ltb_ge in Hs.
      apply (Hgo _ c tl uint8Size); [discriminate | reflexivity | lia |].
      cbn [Size]. unfold Uint8.Size, Uint8.size. cbn [Uint8.Val]. rewrite Hl. reflexivity. }
    destruct (typ l =? uint16Kind).
    { destruct (Uint16_UnmarshalBinary_cases Uint16.zero (d0 :: rest))
        as [[_ Hu] | (Hs & t & c & tl & val & Hd & Hu & Hl)];
        rewrite Hu; cbn [bind]; eauto.
      injection Hd as -> ->. cbn [short_record] in Hs. apply Z.ltb_ge in Hs.
      apply (Hgo _ c tl uint16Size); [discriminate | reflexivity | lia |].
      cbn [Size]. unfold Uint16.Size, Uint16.size. cbn [Uint16.Val]. rewrite Hl. reflexivity. }
    destruct (typ l =? float32Kind).
    { destruct (Float32_UnmarshalBinary_cases Float32.zero (d0 :: rest))
        as [[_ Hu] | (Hs & t & c & tl & val & Hd & Hu & Hl)];
        rewrite Hu; cbn [bind]; eauto.
      injection Hd as -> ->. cbn [short_record] in Hs. apply Z.ltb_ge in Hs.
      apply (Hgo _ c tl float32Size); [discriminate | reflexivity | lia |].
      cbn [Size]. unfold Float32.Size, Float32.size. cbn [Float32.Val]. rewrite Hl. reflexivity. }
    cbn [bind]. eauto.
Qed.

Lemma parseSetting_returns data :
  exists ss err, parseSetting data = Done (ss, err).
Proof. apply parseSetting_loop_returns. apply le_n. Qed.
End UnmarshalFacts.

(** X9: none of the three [UnmarshalBinary] panics.  On a record without
    the two header bytes, or with fewer bytes than its declared count
    needs, it returns [io.ErrUnexpectedEOF] and leaves the receiver as it
    was; on any other record it returns no error, takes the type tag from
    the first byte and decodes as many values as the second byte
    declares. *)
Theorem UnmarshalBinary_short_or_decoded (data : list byte) :
  (forall w, exists w' err,
      Uint8.UnmarshalBinary w data = Done (w', err) /\
      if short_record uint8Size data then w' = w /\ err = Some ErrUnexpectedEOF
      else err = None /\ hd_error data = Some (Uint8.Type_ w') /\
           option_map byte.unsigned (nth_error data 1) = Some (len (Uint8.Val w'))) /\
  (forall w, exists w' err,
      Uint16.UnmarshalBinary w data = Done (w', err) /\
      if short_record uint16Size data then w' = w /\ err = Some ErrUnexpectedEOF
      else err = None /\ hd_error data = Some (Uint16.Type_ w') /\
           option_map byte.unsigned (nth_error data 1) = Some (len (Uint16.Val w'))) /\
  (forall w, exists w' err,
      Float32.UnmarshalBinary w data = Done (w', err) /\
      if short_record float32Size data then w' = w /\ err = Some ErrUnexpectedEOF
      else err = None /\ hd_error data = Some (Float32.Type_ w') /\
           option_map byte.unsigned (nth_error data 1) = Some (len (Float32.Val w'))).
Proof.
  repeat split; intros w.
  - destruct (Uint8_UnmarshalBinary_cases w data)
      as [[Hs Hu] | (Hs & t & c & tl & val & -> & Hu & Hl)];
      rewrite Hu; do 2 eexists; (split; [reflexivity|]); rewrite Hs; auto.
    cbn. rewrite Hl. auto.
  - destruct (Uint16_UnmarshalBinary_cases w data)
      as [[Hs Hu] | (Hs & t & c & tl & val & -> & Hu & Hl)];
      rewrite Hu; do 2 eexists; (split; [reflexivity|]); rewrite Hs; auto.
    cbn. rewrite Hl. auto.
  - destruct (Float32_UnmarshalBinary_cases w data)
      as [[Hs Hu] | (Hs & t & c & tl & val & -> & Hu & Hl)];
      rewrite Hu; do 2 eexists; (split; [reflexivity|]); rewrite Hs; auto.
    cbn. rewrite Hl. auto.
Qed.

(** X10: [parseSetting] never panics: on every sequence of bytes it
    returns a list of settings and possibly an error. *)
Theorem parseSetting_never_panics (data : list byte) :
  exists ss err, parseSetting data = Done (ss, err).
Proof.
  destruct (parseSetting_returns data) as (ss & err & H).
  exists ss, err. exact H.
Qed.

(** ** The setting codec: sequences of records *)

Section StepUint8.
Variables (t : SettingType) (v : byte) (l : settingInfo).
Hypothesis Hl : nth_error settingTypes (Z.to_nat (byte.unsigned t)) = Some l.
Hypothesis Hk : typ l = uint8Kind.
Hypothesis Hs : size l = uint8Size.

Lemma Uint8_parseSetting_step fuel rest settings :
  parseSetting_loop (S fuel) ([t; byte.of_Z 1; v] ++ rest) settings
  = parseSetting_loop fuel rest (settings ++ [OfUint8 (Uint8.mk t [v])]).
Proof.
  destruct (settingTypes_index _ _ Hl) as [H1 H2].
  cbn [parseSetting_loop].
  replace (len ([t; byte.of_Z 1; v] ++ rest) =? 0) with false
    by (symmetry; apply Z.eqb_neq; cbn [app]; len_side).
  rewrite Uint8_UnmarshalBinary_one.
  cbn [app]. rewrite index_0. cbn [bind].
  rewrite H1, H2. cbn [bind]. rewrite Hk.
  change (uint8Kind =? 0) with false.
  change (uint8Kind =? uint8Kind) with true. cbv iota. cbn [bind].
  change (Size (OfUint8 (Uint8.mk t [v]))) with 3.
  rewrite slice_from_ok by len_side. reflexivity.
Qed.
End StepUint8.

Section StepUint16.
Variables (t : SettingType) (v : Z) (l : settingInfo).
Hypothesis Hl : nth_error settingTypes (Z.to_nat (byte.unsigned t)) = Some l.
Hypothesis Hk : typ l = uint16Kind.
Hypothesis Hs : size l = uint16Size.
Hypothesis Hv : uint16 v.

Lemma Uint16_parseSetting_step fuel rest settings :
  parseSetting_loop (S fuel)
    ([t; byte.of_Z 1; byte.of_Z v; byte.of_Z (Z.shiftr v 8)] ++ rest) settings
  = parseSetting_loop fuel rest (settings ++ [OfUint16 (Uint16.mk t [v])]).
Proof.
  destruct (settingTypes_index _ _ Hl) as [H1 H2].
  cbn [parseSetting_loop].
  replace (len ([t; byte.of_Z 1; byte.of_Z v; byte.of_Z (Z.shiftr v 8)] ++ rest) =? 0)
    with false by (symmetry; apply Z.eqb_neq; cbn [app]; len_side).
  rewrite Uint16_UnmarshalBinary_one by assumption.
  cbn [app]. rewrite index_0. cbn [bind].
  rewrite H1, H2. cbn [bind]. rewrite Hk.
  change (uint16Kind =? 0) with false.
  change (uint16Kind =? uint8Kind) with false.
  change (uint16Kind =? uint16Kind) with true. cbv iota. cbn [bind].
  change (Size (OfUint16 (Uint16.mk t [v]))) with 4.
  rewrite slice_from_4. reflexivity.
Qed.
End StepUint16.

Section StepFloat32.
Variables (t : SettingType) (v : math.float32) (l : settingInfo).
Hypothesis Hl : nth_error settingTypes (Z.to_nat (byte.unsigned t)) = Some l.
Hypothesis Hk : typ l = float32Kind.
Hypothesis Hs : size l = float32Size.
Hypothesis Hv : uint32 (math.bits v).

Lemma Float32_parseSetting_step fuel rest settings :
  parseSetting_loop (S fuel)
    ([t; byte.of_Z 1; byte.of_Z (math.bits v); byte.of_Z (Z.shiftr (math.bits v) 8);
      byte.of_Z (Z.shiftr (math.bits v) 16); byte.of_Z (Z.shiftr (math.bits v) 24)]
     ++ rest) settings
  = parseSetting_loop fuel rest (settings ++ [OfFloat32 (Float32.mk t [v])]).
Proof.
  destruct (settingTypes_index _ _ Hl) as [H1 H2].
  cbn [parseSetting_loop].
  replace (len (_ ++ rest) =? 0)
    with false by (symmetry; apply Z.eqb_neq; cbn [app]; len_side).
  rewrite Float32_UnmarshalBinary_one by assumption.
  cbn [app]. rewrite index_0. cbn [bind].
  rewrite H1, H2. cbn [bind]. rewrite Hk.
  change (float32Kind =? 0) with false.
  change (float32Kind =? uint8Kind) with false.
  change (float32Kind =? uint16Kind) with false.
  change (float32Kind =? float32Kind) with true. cbv iota. cbn [bind].
  change (Size (OfFloat32 (Float32.mk t [v]))) with 6.
  rewrite slice_from_ok by len_side. reflexivity.
Qed.
End StepFloat32.

Section Sequences.

(** One turn of the loop on the wire bytes of a setting that matches the
    table. *)
Lemma parseSetting_step s fuel rest settings :
  matches_table s = true -> values_in_range s ->
  parseSetting_loop (S fuel) (encoding s ++ rest) settings
  = parseSetting_loop fuel rest (settings ++ [s]).
Proof.
  destruct s as [w | [t val] | [t val] | [t val]];
    cbn [matches_table values_in_range encoding
         Uint8.Type_ Uint8.Val Uint16.Type_ Uint16.Val Float32.Type_ Float32.Val];
    intros Hm Hv; [discriminate | | | ];
    (apply table_entry in Hm; [|discriminate]);
    destruct Hm as (l & Hl & Hk & Hs & Hn);
    destruct (len_one _ Hn) as [v ->].
  - eapply Uint8_parseSetting_step; eassumption.
  - eapply Uint16_parseSetting_step; try eassumption. inversion Hv; assumption.
  - eapply Float32_parseSetting_step; try eassumption. inversion Hv; assumption.
Qed.

Lemma encoding_nonempty s : (1 <= length (encoding s))%nat.
Proof. destruct s; cbn [encoding length]; lia. Qed.

Lemma parseSetting_loop_records ss : forall fuel rest settings,
  Forall (fun s => matches_table s = true /\ values_in_range s) ss ->
  parseSetting_loop (length ss + fuel) (flat_map encoding ss ++ rest) settings
  = parseSetting_loop fuel rest (settings ++ ss).
Proof.
  induction ss as [|s ss IH]; intros fuel rest settings Hall.
  - cbn [flat_map app length Nat.add]. rewrite app_nil_r. reflexivity.
  - inversion Hall as [|s' ss' [Hm Hv] Hrest]; subst.
    cbn [flat_map length Nat.add]. rewrite <- app_assoc.
    rewrite parseSetting_step by assumption.
    rewrite IH by assumption. rewrite <- app_assoc. reflexivity.
Qed.

Lemma records_length ss : (length ss <= length (flat_map encoding ss))%nat.
Proof.
  induction ss as [|s ss IH]; [apply le_n|].
  cbn [flat_map length]. rewrite length_app.
  pose proof (encoding_nonempty s). lia.
Qed.

Lemma parseSetting_records ss rest :
  Forall (fun s => matches_table s = true /\ values_in_range s) ss ->
  parseSetting (flat_map encoding ss ++ rest)
  = parseSetting_loop (length (flat_map encoding ss) - length ss + length rest) rest ss.
Proof.
  intros Hall. unfold parseSetting. rewrite length_app.
  pose proof (records_length ss) as Hle.
  replace (length (flat_map encoding ss) + length rest)%nat
    with (length ss + (length (flat_map encoding ss) - length ss + length rest))%nat by lia.
  rewrite parseSetting_loop_records by assumption. reflexivity.
Qed.
End Sequences.

(** X11: [parseSetting] of the concatenated wire bytes of settings that
    match the table returns those settings, in order, and no error. *)
Theorem parseSetting_of_records (ss : list Setting) :
  Forall (fun s => matches_table s = true /\ values_in_range s) ss ->
  parseSetting (flat_map encoding ss) = Done (ss, None).
Proof.
  intros Hall. rewrite <- (app_nil_r (flat_map encoding ss)).
  rewrite parseSetting_records by assumption.
  destruct (_ + _)%nat; reflexivity.
Qed.

Lemma parseSetting_of_records_witness :
  parseSetting (flat_map encoding
                  [ OfUint16 (Uint16.mk SampleRateSetting [130]);
                    OfUint8 (Uint8.mk ChannelsSetting [Byte.x03]) ])
  = Done ([ OfUint16 (Uint16.mk SampleRateSetting [130]);
            OfUint8 (Uint8.mk ChannelsSetting [Byte.x03]) ], None).
Proof.
  apply parseSetting_of_records.
  repeat constructor; vm_compute; congruence.
Defined.

(** X12: when the bytes after some well-formed records start with a byte
    that is not a setting type of the table, [parseSetting] returns the
    settings decoded so far together with the "unknown setting type" error
    for that byte. *)
Theorem parseSetting_unknown_type (ss : list Setting) (b : byte) (rest : list byte) :
  Forall (fun s => matches_table s = true /\ values_in_range s) ss ->
  known_type b = false ->
  parseSetting (flat_map encoding ss ++ b :: rest)
  = Done (ss, Some (ErrUnknownSettingType b)).
Proof.
  intros Hall Hb. rewrite parseSetting_records by assumption.
  cbn [length]. rewrite Nat.add_succ_r. cbn [parseSetting_loop].
  replace (len (b :: rest) =? 0) with false by (symmetry; apply Z.eqb_neq; len_side).
  rewrite index_0. cbn [bind]. unfold known_type in Hb.
  destruct (nth_error settingTypes (Z.to_nat (byte.unsigned b))) as [l|] eqn:El.
  - destruct (settingTypes_index _ _ El) as [H1 H2]. rewrite H1, H2. cbn [bind].
    apply negb_false_iff in Hb. rewrite Hb. reflexivity.
  - rewrite (settingTypes_none _ El). reflexivity.
Qed.

Lemma parseSetting_unknown_type_witness :
  parseSetting (flat_map encoding [OfUint16 (Uint16.mk SampleRateSetting [130])]
                ++ [Byte.x03; Byte.x01; Byte.x00])
  = Done ([OfUint16 (Uint16.mk SampleRateSetting [130])],
          Some (ErrUnknownSettingType Byte.x03)).
Proof.
  apply parseSetting_unknown_type.
  - repeat constructor; vm_compute; congruence.
  - vm_compute. reflexivity.
Defined.

(** ** The command message *)

Section CommandFacts.

Lemma settingSize_from ss : forall a,
  fold_left (fun n t => n + Size t) ss a = a + settingSize ss.
Proof.
  unfold settingSize. induction ss as [|s ss IH]; intros a; cbn [fold_left]; [lia|].
  rewrite IH, (IH (0 + Size s)). lia.
Qed.

Lemma settingSize_cons s ss : settingSize (s :: ss) = Size s + settingSize ss.
Proof. unfold settingSize at 1. cbn [fold_left]. rewrite settingSize_from. lia. Qed.

Lemma settingSize_app ss1 ss2 :
  settingSize (ss1 ++ ss2) = settingSize ss1 + settingSize ss2.
Proof.
  induction ss1 as [|s ss1 IH]; [reflexivity|].
  cbn [app]. rewrite !settingSize_cons, IH. lia.
Qed.

Lemma settingSize_nonneg ss : 0 <= settingSize ss.
Proof.
  induction ss as [|s ss IH]; [unfold settingSize; cbn; lia|].
  rewrite settingSize_cons. pose proof (Size_header s). unfold headerSize in *. lia.
Qed.

Lemma flat_map_len {A} (f : A -> list byte) (k : Z) (l : list A) :
  (forall a, len (f a) = k) -> len (flat_map f l) = k * len l.
Proof.
  intros Hf. induction l as [|a l IH]; [unfold len; cbn; lia|].
  cbn [flat_map]. rewrite len_app, Hf, IH, len_cons. lia.
Qed.

Lemma encoding_len s : len (encoding s) = Size s.
Proof.
  destruct s as [w | w | w | w]; cbn [encoding Size].
  - reflexivity.
  - unfold Uint8.Size, Uint8.size, headerSize, uint8Size. rewrite !len_cons. lia.
  - unfold Uint16.Size, Uint16.size, headerSize, uint16Size. rewrite !len_cons.
    rewrite (flat_map_len _ 2) by reflexivity. lia.
  - unfold Float32.Size, Float32.size, headerSize, float32Size. rewrite !len_cons.
    rewrite (flat_map_len _ 4) by reflexivity. lia.
Qed.

(** Overwriting [enc] at offset [off] of [msg]. *)
Lemma overwrite_parts (msg enc : list byte) (off : Z) :
  0 <= off -> off + len enc <= len msg ->
  let msg' := firstn (Z.to_nat off) msg ++ enc
               ++ skipn (Z.to_nat (len enc)) (skipn (Z.to_nat off) msg) in
  len msg' = len msg /\
  firstn (Z.to_nat (off + len enc)) msg' = firstn (Z.to_nat off) msg ++ enc /\
  forall k, 0 <= k ->
    skipn (Z.to_nat (off + len enc + k)) msg' = skipn (Z.to_nat (off + len enc + k)) msg.
Proof.
  intros Hoff Hfit msg'. pose proof (len_nonneg enc) as He.
  assert (Hl1 : length (firstn (Z.to_nat off) msg) = Z.to_nat off)
    by (rewrite length_firstn; unfold len in *; lia).
  assert (Hl2 : length (firstn (Z.to_nat off) msg ++ enc) = Z.to_nat (off + len enc))
    by (rewrite length_app, Hl1; unfold len; lia).
  split; [|split].
  - unfold msg'. rewrite !len_app, len_firstn, !len_skipn. lia.
  - unfold msg'. rewrite app_assoc, firstn_app, Hl2, Nat.sub_diag, firstn_all2 by lia.
    cbn [firstn]. apply app_nil_r.
  - intros k Hk. unfold msg'. rewrite app_assoc, skipn_app, Hl2.
    rewrite skipn_all2 by lia. cbn [app]. rewrite !skipn_skipn. f_equal. unfold len. lia.
Qed.

Lemma write_all_records ss : forall msg off,
  forallb encodable ss = true ->
  0 <= off -> off + settingSize ss <= len msg ->
  write_all ss msg off
  = Done (firstn (Z.to_nat off) msg ++ flat_map encoding ss
            ++ skipn (Z.to_nat (off + settingSize ss)) msg,
          off + settingSize ss, None).
Proof.
  induction ss as [|s ss IH]; intros msg off Hall Hoff Hfit.
  - cbn [write_all flat_map app]. change (settingSize []) with 0.
    rewrite Z.add_0_r, firstn_skipn. reflexivity.
  - cbn [forallb] in Hall. apply andb_prop in Hall. destruct Hall as [Hs Hall].
    rewrite settingSize_cons in *. pose proof (settingSize_nonneg ss) as Hss.
    pose proof (Size_header s) as Hh. unfold headerSize in Hh.
    cbn [write_all]. rewrite slice_from_ok by lia. cbn [bind].
    rewrite write_cases, Hs.
    replace (len (skipn (Z.to_nat off) msg) <? Size s) with false
      by (symmetry; apply Z.ltb_ge; rewrite len_skipn; lia).
    cbn [bind]. unfold splice.
    destruct (overwrite_parts msg (encoding s) off Hoff) as (Hlen & Hpre & Hsuf);
      [rewrite encoding_len; lia|].
    rewrite encoding_len in *.
    rewrite IH; [|assumption | lia | rewrite Hlen; lia].
    rewrite Hpre, (Hsuf (settingSize ss)) by assumption.
    cbn [flat_map]. rewrite <- !app_assoc, Z.add_assoc. reflexivity.
Qed.

Lemma write_all_invalid ss1 s ss2 t : forall msg off,
  forallb encodable ss1 = true -> encodable s = false -> setting_type s = Some t ->
  0 <= off -> off + settingSize ss1 <= len msg ->
  exists msg' off',
    write_all (ss1 ++ s :: ss2) msg off = Done (msg', off', Some (ErrInvalidSettingType t)).
Proof.
  induction ss1 as [|s1 ss1 IH]; intros msg off Hall Hs Ht Hoff Hfit.
  - change (settingSize []) with 0 in Hfit.
    cbn [app write_all]. rewrite slice_from_ok by lia. cbn [bind].
    rewrite write_cases, Hs, Ht. cbn [bind option_map]. eauto.
  - cbn [forallb] in Hall. apply andb_prop in Hall. destruct Hall as [Hs1 Hall].
    rewrite settingSize_cons in *. pose proof (settingSize_nonneg ss1) as Hss.
    pose proof (Size_header s1) as Hh. unfold headerSize in Hh.
    cbn [app write_all]. rewrite slice_from_ok by lia. cbn [bind].
    rewrite write_cases, Hs1.
    replace (len (skipn (Z.to_nat off) msg) <? Size s1) with false
      by (symmetry; apply Z.ltb_ge; rewrite len_skipn; lia).
    cbn [bind]. unfold splice.
    destruct (overwrite_parts msg (encoding s1) off Hoff) as (Hlen & _ & _);
      [rewrite encoding_len; lia|].
    rewrite encoding_len in *.
    apply IH; try assumption; [lia | rewrite Hlen; lia].
Qed.

Lemma sendCommand_records dev com rec measure ss :
  forallb encodable ss = true ->
  sendCommand dev com rec measure ss
  = match dev (encoding (OfCommand (setCommand.mk com rec measure))
               ++ flat_map encoding ss) with
    | CtxDone e resp => Done (resp, Some (ErrContext e))
    | Notified buf => Done (buf, None)
    end.
Proof.
  intros Hall. unfold sendCommand. pose proof (settingSize_nonneg ss) as Hss.
  change (settingSize [OfCommand setCommand.zero]) with 2.
  set (msg0 := repeat Byte.x00 (Z.to_nat (2 + settingSize ss))).
  assert (Hl0 : len msg0 = 2 + settingSize ss)
    by (unfold msg0, len; rewrite repeat_length; lia).
  rewrite slice_from_ok by lia. cbn [bind Z.to_nat skipn].
  rewrite setCommand_write_result.
  replace (len msg0 <? 2) with false by (symmetry; apply Z.ltb_ge; lia).
  cbn [bind]. unfold splice. cbn [Z.to_nat firstn app].
  set (cmd := OfCommand (setCommand.mk com rec measure)).
  set (msg := encoding cmd ++ skipn 2 msg0).
  assert (Hl : len msg = 2 + settingSize ss).
  { unfold msg. rewrite len_app, len_skipn, Hl0, encoding_len.
    change (Size cmd) with 2. lia. }
  rewrite write_all_records by (try assumption; lia). cbn [bind].
  replace (firstn (Z.to_nat (0 + 2)) msg) with (encoding cmd) by reflexivity.
  rewrite skipn_all2 by (unfold len in Hl; lia).
  rewrite app_nil_r. reflexivity.
Qed.

Lemma sendCommand_invalid dev com rec measure ss1 s ss2 t :
  forallb encodable ss1 = true -> encodable s = false -> setting_type s = Some t ->
  sendCommand dev com rec measure (ss1 ++ s :: ss2)
  = Done ([], Some (ErrInvalidSettingType t)).
Proof.
  intros Hall Hs Ht. unfold sendCommand.
  pose proof (settingSize_nonneg ss1) as Hss1.
  pose proof (settingSize_nonneg (s :: ss2)) as Hss2.
  change (settingSize [OfCommand setCommand.zero]) with 2.
  rewrite settingSize_app.
  set (msg0 := repeat Byte.x00 (Z.to_nat (2 + (settingSize ss1 + settingSize (s :: ss2))))).
  assert (Hl0 : len msg0 = 2 + (settingSize ss1 + settingSize (s :: ss2)))
    by (unfold msg0, len; rewrite repeat_length; lia).
  rewrite slice_from_ok by lia. cbn [bind Z.to_nat skipn].
  rewrite setCommand_write_result.
  replace (len msg0 <? 2) with false by (symmetry; apply Z.ltb_ge; lia).
  cbn [bind]. unfold splice. cbn [Z.to_nat firstn app].
  set (msg := encoding _ ++ skipn 2 msg0).
  assert (Hl : len msg = 2 + (settingSize ss1 + settingSize (s :: ss2))).
  { unfold msg. rewrite len_app, len_skipn, Hl0, encoding_len.
    change (Size (OfCommand _)) with 2. lia. }
  destruct (write_all_invalid ss1 s ss2 t msg (0 + 2) Hall Hs Ht) as (msg' & off' & Hw);
    [lia | lia |].
  rewrite Hw. reflexivity.
Qed.
End CommandFacts.

(** X13: when every setting matches the table, [sendCommand] writes one
    message, the two command bytes followed by the wire bytes of the
    settings in order, and returns what the exchange gives: the response
    and no error, or what was received and the context's error. *)
Theorem sendCommand_message (dev : exchange) (com : Command) (rec : RecordingType)
    (measure : MeasureType) (ss : list Setting) :
  forallb matches_table ss = true ->
  sendCommand dev com rec measure ss
  = match dev (encoding (OfCommand (setCommand.mk com rec measure))
               ++ flat_map encoding ss) with
    | CtxDone e resp => Done (resp, Some (ErrContext e))
    | Notified buf => Done (buf, None)
    end.
Proof.
  intros Hall. apply sendCommand_records.
  apply forallb_forall. intros s Hs.
  rewrite forallb_forall in Hall. specialize (Hall s Hs).
  destruct s; [reflexivity | exact Hall | exact Hall | exact Hall].
Qed.

Lemma sendCommand_message_witness :
  sendCommand (fun msg => Notified msg) MeasureStart Online ECGType
    [ OfUint16 (Uint16.mk SampleRateSetting [130]);
      OfUint16 (Uint16.mk ResolutionSetting [14]) ]
  = Done ([Byte.x02; Byte.x00; Byte.x00; Byte.x01; Byte.x82; Byte.x00;
           Byte.x01; Byte.x01; Byte.x0e; Byte.x00], None).
Proof.
  rewrite sendCommand_message; [|vm_compute; reflexivity].
  vm_compute. reflexivity.
Defined.

(** X14: when a setting does not match the table (and those before it
    do), [sendCommand] returns "invalid setting type" for it and an empty
    response, whatever the settings after it are and whatever exchange it
    is given: the result is the same for every device and context. *)
Theorem sendCommand_rejects_before_sending (dev : exchange) (com : Command)
    (rec : RecordingType) (measure : MeasureType)
    (ss1 : list Setting) (s : Setting) (ss2 : list Setting) (t : SettingType) :
  forallb matches_table ss1 = true ->
  matches_table s = false -> setting_type s = Some t ->
  sendCommand dev com rec measure (ss1 ++ s :: ss2)
  = Done ([], Some (ErrInvalidSettingType t)).
Proof.
  intros Hall Hs Ht. apply sendCommand_invalid; try assumption.
  - apply forallb_forall. intros s1 Hs1.
    rewrite forallb_forall in Hall. specialize (Hall s1 Hs1).
    destruct s1; [reflexivity | exact Hall | exact Hall | exact Hall].
  - destruct s; [discriminate Ht | exact Hs | exact Hs | exact Hs].
Qed.

Lemma sendCommand_rejects_before_sending_witness :
  sendCommand (fun msg => Notified msg) MeasureStart Online ECGType
    ([OfUint16 (Uint16.mk SampleRateSetting [130])]
     ++ OfUint8 (Uint8.mk ResolutionSetting [Byte.x0e]) :: [])
  = Done ([], Some (ErrInvalidSettingType ResolutionSetting)).
Proof.
  apply sendCommand_rejects_before_sending.
  - vm_compute. reflexivity.
  - vm_compute. reflexivity.
  - reflexivity.
Defined.

(** ** The settings query *)

Section QueryFacts.

Lemma querySettings_cases dev com rec measure :
  let resp := match dev (encoding (OfCommand (setCommand.mk com rec measure))) with
              | CtxDone _ r => r
              | Notified b => b
              end in
  querySettings dev com rec measure
  = match resp with
    | b0 :: b1 :: b2 :: b3 :: b4 :: payload =>
        if negb (byte.unsigned b0 =? 240) || negb (byte.unsigned b1 =? byte.unsigned com)
        then Done ([], Some (ErrInvalidResponse resp))
        else if negb (byte.unsigned b3 =? 0)
             then Done ([], Some (ErrInvalidResponse [b0; b1; b2; b3; b4]))
             else parseSetting payload
    | _ => Done ([], Some (ErrShortResponse resp))
    end.
Proof.
  intros resp. unfold querySettings.
  change (settingSize [OfCommand setCommand.zero]) with 2.
  change (repeat Byte.x00 (Z.to_nat 2)) with [Byte.x00; Byte.x00].
  rewrite slice_from_ok by len_side. cbn [bind Z.to_nat skipn].
  rewrite setCommand_write_result.
  replace (len [Byte.x00; Byte.x00] <? 2) with false by reflexivity.
  cbn [bind]. unfold splice. cbn [Z.to_nat firstn skipn app].
  rewrite app_nil_r.
  assert (Hresp : (let '(settings, _) :=
                     match dev (encoding (OfCommand (setCommand.mk com rec measure))) with
                     | CtxDone e r => (r, Some (ErrContext e))
                     | Notified buf => (buf, None)
                     end in settings) = resp)
    by (unfold resp; destruct (dev _); reflexivity).
  destruct (dev (encoding (OfCommand (setCommand.mk com rec measure)))) as [e r | buf];
    cbv beta iota zeta in Hresp |- *; subst resp.
  all: match goal with |- context [len ?l <? 5] => destruct l as [|b0 [|b1 [|b2 [|b3 [|b4 payload]]]]] end;
    try reflexivity.
  all: replace (len (b0 :: b1 :: b2 :: b3 :: b4 :: payload) <? 5) with false
         by (symmetry; apply Z.ltb_ge; len_side).
  all: rewrite index_0; cbn [bind].
  all: destruct (byte.unsigned b0 =? 240); cbn [negb orb bind]; [|reflexivity].
  all: rewrite index_1; cbn [bind].
  all: destruct (byte.unsigned b1 =? byte.unsigned com); cbn [negb]; [|reflexivity].
  all: rewrite index_ok by len_side;
       change (nth_error _ (Z.to_nat 3)) with (Some b3); cbn [bind].
  all: destruct (byte.unsigned b3 =? 0); cbn [negb].
  all: first [ rewrite slice_from_ok by len_side; reflexivity
             | rewrite slice_to_ok by len_side; reflexivity ].
Qed.

Lemma preface_byte (rec : RecordingType) (measure : MeasureType) :
  byte.unsigned rec <= 1 -> byte.unsigned measure < 128 ->
  byte.unsigned
    (byte.of_Z (Z.lor (byte.wrap (Z.shiftl (byte.unsigned rec) 7)) (byte.unsigned measure)))
  = 128 * byte.unsigned rec + byte.unsigned measure.
Proof.
  intros Hr Hm. pose proof (byte.unsigned_range rec). pose proof (byte.unsigned_range measure).
  rewrite byte.unsigned_of_Z. unfold byte.wrap.
  rewrite Z.shiftl_mul_pow2 by lia.
  rewrite (Z.mod_small (byte.unsigned rec * 2 ^ 7)) by lia.
  rewrite Z.lor_comm. rewrite <- (Z.shiftl_mul_pow2 _ 7) by lia.
  rewrite (lor_shiftl_add _ _ 7) by lia.
  rewrite Z.mod_small by lia. lia.
Qed.
End QueryFacts.

(** X15: what [querySettings] returns is decided by the bytes the
    callback has stored, whether the context was done or not: fewer than
    five bytes give "short response"; a first byte other than 0xF0 or a
    second byte other than the command gives "invalid response" with the
    whole response; a non-zero fourth byte gives "invalid response" with
    the first five bytes; otherwise the result is [parseSetting] of the
    bytes from offset 5.  The third and the fifth byte are not examined,
    and the context's error is never returned. *)
Theorem querySettings_response (dev : exchange) (com : Command) (rec : RecordingType)
    (measure : MeasureType) :
  let resp := match dev (encoding (OfCommand (setCommand.mk com rec measure))) with
              | CtxDone _ r => r
              | Notified b => b
              end in
  querySettings dev com rec measure
  = match resp with
    | b0 :: b1 :: b2 :: b3 :: b4 :: payload =>
        if negb (byte.unsigned b0 =? 240) || negb (byte.unsigned b1 =? byte.unsigned com)
        then Done ([], Some (ErrInvalidResponse resp))
        else if negb (byte.unsigned b3 =? 0)
             then Done ([], Some (ErrInvalidResponse [b0; b1; b2; b3; b4]))
             else parseSetting payload
    | _ => Done ([], Some (ErrShortResponse resp))
    end.
Proof.
  intros resp. subst resp. rewrite querySettings_cases. reflexivity.
Qed.

(** X16: into a destination of at least two bytes, [setCommand.write]
    puts the command byte and one byte that packs the recording type and
    the measurement type, and leaves the rest; for a recording type of 0 or
    1 and a measurement type below 128 the packed byte is 128 times the
    recording type plus the measurement type, so both can be read back. *)
Theorem setCommand_write_packs (w : setCommand.t) (dst : list byte) :
  2 <= len dst ->
  byte.unsigned (setCommand.Record_ w) <= 1 ->
  byte.unsigned (setCommand.Measure w) < 128 ->
  exists b,
    setCommand.write w dst = Done (setCommand.Command_ w :: b :: skipn 2 dst, 2, None) /\
    byte.unsigned b
    = 128 * byte.unsigned (setCommand.Record_ w) + byte.unsigned (setCommand.Measure w) /\
    byte.unsigned b / 128 = byte.unsigned (setCommand.Record_ w) /\
    byte.unsigned b mod 128 = byte.unsigned (setCommand.Measure w).
Proof.
  intros Hd Hr Hm. pose proof (byte.unsigned_range (setCommand.Measure w)).
  pose proof (byte.unsigned_range (setCommand.Record_ w)).
  rewrite setCommand_write_result.
  replace (len dst <? 2) with false by (symmetry; apply Z.ltb_ge; lia).
  eexists. split; [reflexivity|].
  rewrite preface_byte by assumption.
  split; [reflexivity|]. split.
  - Z.div_mod_to_equations. lia.
  - Z.div_mod_to_equations. lia.
Qed.

Lemma setCommand_write_packs_witness :
  exists b,
    setCommand.write (setCommand.mk MeasureStart Offline AccType) [Byte.x00; Byte.x00; Byte.xff]
    = Done ([MeasureStart; b; Byte.xff], 2, None) /\
    byte.unsigned b = 130.
Proof.
  destruct (setCommand_write_packs (setCommand.mk MeasureStart Offline AccType)
              [Byte.x00; Byte.x00; Byte.xff]) as (b & Hw & Hb & _).
  - vm_compute. discriminate.
  - vm_compute. discriminate.
  - vm_compute. reflexivity.
  - exists b. split; [exact Hw | exact Hb].
Defined.

(** ** The ECG decoder: errors, bounds and sample range *)

Section ECGMore.

Lemma signed24_range u : 0 <= u < 2 ^ 24 -> - 2 ^ 23 <= signed24 u < 2 ^ 23.
Proof.
  intros H. unfold signed24.
  destruct (u <? 2 ^ 23) eqn:E; [apply Z.ltb_lt in E | apply Z.ltb_ge in E]; lia.
Qed.

Lemma int24_range a b c : - 2 ^ 23 <= int24 a b c < 2 ^ 23.
Proof.
  pose proof (byte.unsigned_range a). pose proof (byte.unsigned_range b).
  pose proof (byte.unsigned_range c).
  unfold int24. apply signed24_range. lia.
Qed.

Lemma int24_groups_facts n : forall trace,
  (length trace <= n)%nat -> Z.rem (len trace) 3 = 0 ->
  3 * len (int24_groups trace) = len trace /\
  Forall (fun v => - 2 ^ 23 <= v < 2 ^ 23) (int24_groups trace).
Proof.
  induction n as [|n IH]; intros trace Hn Hr.
  - destruct trace; [split; [reflexivity | constructor] | cbn [length] in Hn; lia].
  - destruct trace as [|a [|b [|c trace]]];
      [split; [reflexivity | constructor]
      | vm_compute in Hr; discriminate | vm_compute in Hr; discriminate |].
    cbn [int24_groups]. pose proof (len_nonneg trace).
    destruct (IH trace) as [Hl Hf].
    + cbn [length] in Hn. lia.
    + apply rem3_step; [assumption|].
      rewrite !len_cons in Hr. replace (len trace + 3) with (len trace + 1 + 1 + 1) by lia.
      assumption.
    + split; [rewrite !len_cons; lia|].
      constructor; [apply int24_range | assumption].
Qed.

Lemma ECG_wrong_sample_type m b rest :
  byte.unsigned b <> 0 ->
  ECG.UnmarshalBinary m (b :: rest) = Done (m, Some (ErrExpectedSampleTypeECG b)).
Proof.
  intros Hb. unfold ECG.UnmarshalBinary, sampleTypeOffset. rewrite index_0. cbn [bind].
  replace (byte.unsigned b =? byte.unsigned ECGType) with false
    by (symmetry; apply Z.eqb_neq; exact Hb).
  reflexivity.
Qed.

Lemma ECG_wrong_frame_type m t0 t1 t2 t3 t4 t5 t6 t7 f trace :
  byte.unsigned f <> 0 ->
  ECG.UnmarshalBinary m
    (ECGType :: t0 :: t1 :: t2 :: t3 :: t4 :: t5 :: t6 :: t7 :: f :: trace)
  = Done (m, Some (ErrExpectedFrameTypeECG f)).
Proof.
  intros Hf. unfold ECG.UnmarshalBinary, sampleTypeOffset, frameTypeOffset.
  rewrite index_0. cbn [bind]. rewrite Z.eqb_refl. cbn [negb].
  rewrite index_ok by len_side.
  change (nth_error _ (Z.to_nat 9)) with (Some f). cbn [bind].
  replace (byte.unsigned f =? byte.unsigned ECGFrameType0) with false
    by (symmetry; apply Z.eqb_neq; exact Hf).
  reflexivity.
Qed.

Lemma ten_cells {A} (s : list A) :
  10 <= len s ->
  exists a0 a1 a2 a3 a4 a5 a6 a7 a8 a9 rest,
    s = a0 :: a1 :: a2 :: a3 :: a4 :: a5 :: a6 :: a7 :: a8 :: a9 :: rest.
Proof.
  destruct s as [|a0 [|a1 [|a2 [|a3 [|a4 [|a5 [|a6 [|a7 [|a8 [|a9 rest]]]]]]]]]];
    intros H; try (exfalso; len_side).
  do 11 eexists. reflexivity.
Qed.

Lemma byte_zero b : byte.unsigned b = 0 -> b = Byte.x00.
Proof. intros H. apply byte.unsigned_inj. rewrite H. reflexivity. Qed.

Lemma ECG_returns_iff m data :
  (exists r, ECG.UnmarshalBinary m data = Done r) <->
  (10 <= len data \/ exists b rest, data = b :: rest /\ byte.unsigned b <> 0).
Proof.
  split.
  - intros [r Hr]. destruct data as [|b rest]; [discriminate Hr|].
    destruct (Z.eq_dec (byte.unsigned b) 0) as [Hb | Hb]; [|right; eauto].
    left. destruct (Z_lt_le_dec (len (b :: rest)) 10) as [Hlt | Hge]; [|assumption].
    exfalso. revert Hr. unfold ECG.UnmarshalBinary, sampleTypeOffset, frameTypeOffset.
    rewrite index_0. cbn [bind]. rewrite Hb. cbn [Z.eqb negb].
    rewrite index_out by lia. discriminate.
  - intros [Hlen | (b & rest & -> & Hb)].
    + destruct (ten_cells _ Hlen) as (d0 & t0 & t1 & t2 & t3 & t4 & t5 & t6 & t7 & f & trace & ->).
      destruct (Z.eq_dec (byte.unsigned d0) 0) as [Hd | Hd];
        [|rewrite ECG_wrong_sample_type by assumption; eauto].
      apply byte_zero in Hd. subst d0.
      destruct (Z.eq_dec (byte.unsigned f) 0) as [Hf | Hf];
        [|rewrite ECG_wrong_frame_type by assumption; eauto].
      apply byte_zero in Hf. subst f.
      change Byte.x00 with ECGType at 1. change Byte.x00 with ECGFrameType0.
      rewrite ECG_UnmarshalBinary_frame.
      destruct (Z.rem (len trace) 3 =? 0); eauto.
    + rewrite ECG_wrong_sample_type by assumption. eauto.
Qed.
End ECGMore.

(** X17: [ECG.UnmarshalBinary] reports a wrong type byte, a wrong frame
    type byte and a trace whose length is not a multiple of 3 as errors
    that carry the offending byte (or the remainder), and leaves the
    receiver as it was. *)
Theorem ECG_UnmarshalBinary_errors (m : ECG.t) :
  (forall (b : byte) (rest : list byte),
      byte.unsigned b <> 0 ->
      ECG.UnmarshalBinary m (b :: rest) = Done (m, Some (ErrExpectedSampleTypeECG b))) /\
  (forall (t0 t1 t2 t3 t4 t5 t6 t7 f : byte) (trace : list byte),
      byte.unsigned f <> 0 ->
      ECG.UnmarshalBinary m
        (ECGType :: t0 :: t1 :: t2 :: t3 :: t4 :: t5 :: t6 :: t7 :: f :: trace)
      = Done (m, Some (ErrExpectedFrameTypeECG f))) /\
  (forall (t0 t1 t2 t3 t4 t5 t6 t7 : byte) (trace : list byte),
      Z.rem (len trace) 3 <> 0 ->
      ECG.UnmarshalBinary m
        (ECGType :: t0 :: t1 :: t2 :: t3 :: t4 :: t5 :: t6 :: t7 :: ECGFrameType0 :: trace)
      = Done (m, Some (ErrSamplesNotFactorOf3 (Z.rem (len trace) 3)))).
Proof.
  split; [|split].
  - intros. apply ECG_wrong_sample_type. assumption.
  - intros. apply ECG_wrong_frame_type. assumption.
  - intros t0 t1 t2 t3 t4 t5 t6 t7 trace Hr. rewrite ECG_UnmarshalBinary_frame.
    destruct (_ =? 0) eqn:E; [|reflexivity].
    apply Z.eqb_eq in E. exfalso. exact (Hr E).
Qed.

Lemma ECG_UnmarshalBinary_errors_witness :
  ECG.UnmarshalBinary ECG.zero [Byte.x02; Byte.x00]
  = Done (ECG.zero, Some (ErrExpectedSampleTypeECG Byte.x02)) /\
  ECG.UnmarshalBinary ECG.zero
    [Byte.x00; Byte.x00; Byte.x00; Byte.x00; Byte.x00; Byte.x00; Byte.x00; Byte.x00;
     Byte.x00; Byte.x00; Byte.x01; Byte.x02]
  = Done (ECG.zero, Some (ErrSamplesNotFactorOf3 2)).
Proof.
  destruct (ECG_UnmarshalBinary_errors ECG.zero) as (H1 & _ & H3). split.
  - apply H1. vm_compute. discriminate.
  - apply (H3 Byte.x00 Byte.x00 Byte.x00 Byte.x00 Byte.x00 Byte.x00 Byte.x00 Byte.x00
             [Byte.x01; Byte.x02]).
    vm_compute. discriminate.
Defined.

(** X18: when [ECG.UnmarshalBinary] decodes a frame, the trace has one
    sample for every three bytes after the header and every sample lies in
    the signed 24-bit range, from -8388608 to 8388607. *)
Theorem ECG_trace_length_and_range
    (m : ECG.t) (t0 t1 t2 t3 t4 t5 t6 t7 : byte) (trace : list byte) :
  Z.rem (len trace) 3 = 0 ->
  exists m',
    ECG.UnmarshalBinary m
      (ECGType :: t0 :: t1 :: t2 :: t3 :: t4 :: t5 :: t6 :: t7 :: ECGFrameType0 :: trace)
    = Done (m', None) /\
    3 * len (ECG.Trace m') = len trace /\
    Forall (fun v => -8388608 <= v <= 8388607) (ECG.Trace m').
Proof.
  intros Hr. rewrite ECG_UnmarshalBinary_frame, Hr. cbn [Z.eqb]. cbv zeta.
  eexists. split; [reflexivity|]. cbn [ECG.Trace].
  destruct (int24_groups_facts (length trace) trace (le_n _) Hr) as [Hl Hf].
  split; [exact Hl|].
  eapply Forall_impl; [|exact Hf]. cbv beta. intros v Hv. lia.
Qed.

Lemma ECG_trace_length_and_range_witness :
  exists m',
    ECG.UnmarshalBinary ECG.zero
      [Byte.x00; Byte.x00; Byte.x00; Byte.x00; Byte.x00; Byte.x00; Byte.x00; Byte.x00;
       Byte.x00; Byte.x00; Byte.x00; Byte.x00; Byte.x80]
    = Done (m', None) /\
    3 * len (ECG.Trace m') = 3.
Proof.
  destruct (ECG_trace_length_and_range ECG.zero
              Byte.x00 Byte.x00 Byte.x00 Byte.x00 Byte.x00 Byte.x00 Byte.x00 Byte.x00
              [Byte.x00; Byte.x00; Byte.x80]) as (m' & Hm & Hl & _).
  - vm_compute. reflexivity.
  - exists m'. split; [exact Hm | exact Hl].
Defined.

(** X19: [ECG.UnmarshalBinary] returns, with a value or an error, exactly
    on the payloads that have at least the ten header bytes or that start
    with a non-zero type byte; on every other payload (the empty one, and
    those shorter than ten bytes that start with 0) it panics. *)
Theorem ECG_UnmarshalBinary_returns_iff (m : ECG.t) (data : list byte) :
  (exists r, ECG.UnmarshalBinary m data = Done r) <->
  (10 <= len data \/ exists b rest, data = b :: rest /\ byte.unsigned b <> 0).
Proof.
  split; intros H; apply (ECG_returns_iff m data); exact H.
Qed.

(** ** The accelerometer decoder *)

#[local] Arguments int8 : simpl never.
#[local] Arguments int16 : simpl never.
#[local] Arguments leInt24 : simpl never.
#[local] Arguments binary.Uint16 : simpl never.
#[local] Arguments binary.Uint64 : simpl never.
#[local] Arguments le_value : simpl never.

Section AccFacts.
Variables (m : Acc.t) (t0 t1 t2 t3 t4 t5 t6 t7 : byte).

Lemma leInt24_prefix a b c rest : leInt24 (a :: b :: c :: rest) = Done (int24 a b c).
Proof.
  unfold leInt24. rewrite !index_ok by len_side.
  change (nth_error (a :: b :: c :: rest) (Z.to_nat 2)) with (Some c).
  change (nth_error (a :: b :: c :: rest) (Z.to_nat 0)) with (Some a).
  change (nth_error (a :: b :: c :: rest) (Z.to_nat 1)) with (Some b).
  cbn [bind]. rewrite leInt24_value. reflexivity.
Qed.

Lemma Uint16_prefix a b rest : binary.Uint16 (a :: b :: rest) = Done (le_value [a; b]).
Proof.
  rewrite Uint16_cons. f_equal. pose proof (byte.unsigned_range a).
  rewrite (lor_shiftl_add _ _ 8) by lia. unfold le_value. cbn [fold_right]. lia.
Qed.

(** Evaluation of the decoder on a payload given by its cells. *)
Ltac acc_eval :=
  repeat (first
    [ progress go_eval
    | rewrite Uint16_prefix
    | rewrite leInt24_prefix
    | rewrite Uint64_value ]).

Lemma Acc_frame0 x y z rest :
  Acc.UnmarshalBinary m
    (AccType :: t0 :: t1 :: t2 :: t3 :: t4 :: t5 :: t6 :: t7 :: AccFrameType0
       :: x :: y :: z :: rest)
  = let t := int64 (le_value [t0; t1; t2; t3; t4; t5; t6; t7]) in
    Done (Acc.mk (time.Unix (Z.quot t second + epoch) (Z.rem t second))
                 (int8 x) (int8 y) (int8 z), None).
Proof.
  unfold Acc.UnmarshalBinary, sampleTypeOffset, frameTypeOffset, timeStampOffset.
  rewrite index_0. cbn [bind]. rewrite Z.eqb_refl. cbn [negb].
  rewrite (index_ok _ 9) by len_side.
  change (nth_error _ (Z.to_nat 9)) with (Some AccFrameType0). cbn [bind].
  rewrite Z.eqb_refl. unfold dataOffset. acc_eval. reflexivity.
Qed.

Lemma Acc_frame1 x0 x1 y0 y1 z0 z1 rest :
  Acc.UnmarshalBinary m
    (AccType :: t0 :: t1 :: t2 :: t3 :: t4 :: t5 :: t6 :: t7 :: AccFrameType1
       :: x0 :: x1 :: y0 :: y1 :: z0 :: z1 :: rest)
  = let t := int64 (le_value [t0; t1; t2; t3; t4; t5; t6; t7]) in
    Done (Acc.mk (time.Unix (Z.quot t second + epoch) (Z.rem t second))
                 (int16 (le_value [x0; x1])) (int16 (le_value [y0; y1]))
                 (int16 (le_value [z0; z1])), None).
Proof.
  unfold Acc.UnmarshalBinary, sampleTypeOffset, frameTypeOffset, timeStampOffset.
  rewrite index_0. cbn [bind]. rewrite Z.eqb_refl. cbn [negb].
  rewrite (index_ok _ 9) by len_side.
  change (nth_error _ (Z.to_nat 9)) with (Some AccFrameType1). cbn [bind].
  change (byte.unsigned AccFrameType1 =? byte.unsigned AccFrameType0) with false.
  rewrite Z.eqb_refl. unfold dataOffset, uint16Size. acc_eval. reflexivity.
Qed.

Lemma Acc_frame2 x0 x1 x2 y0 y1 y2 z0 z1 z2 rest :
  Acc.UnmarshalBinary m
    (AccType :: t0 :: t1 :: t2 :: t3 :: t4 :: t5 :: t6 :: t7 :: AccFrameType2
       :: x0 :: x1 :: x2 :: y0 :: y1 :: y2 :: z0 :: z1 :: z2 :: rest)
  = let t := int64 (le_value [t0; t1; t2; t3; t4; t5; t6; t7]) in
    Done (Acc.mk (time.Unix (Z.quot t second + epoch) (Z.rem t second))
                 (int24 x0 x1 x2) (int24 y0 y1 y2) (int24 z0 z1 z2), None).
Proof.
  unfold Acc.UnmarshalBinary, sampleTypeOffset, frameTypeOffset, timeStampOffset.
  rewrite index_0. cbn [bind]. rewrite Z.eqb_refl. cbn [negb].
  rewrite (index_ok _ 9) by len_side.
  change (nth_error _ (Z.to_nat 9)) with (Some AccFrameType2). cbn [bind].
  change (byte.unsigned AccFrameType2 =? byte.unsigned AccFrameType0) with false.
  change (byte.unsigned AccFrameType2 =? byte.unsigned AccFrameType1) with false.
  rewrite Z.eqb_refl. unfold dataOffset, int24Size. acc_eval. reflexivity.
Qed.

Lemma Acc_wrong_sample_type b rest :
  byte.unsigned b <> 2 ->
  Acc.UnmarshalBinary m (b :: rest) = Done (m, Some (Acc.ErrExpectedSampleTypeAcc b)).
Proof.
  intros Hb. unfold Acc.UnmarshalBinary, sampleTypeOffset. rewrite index_0. cbn [bind].
  replace (byte.unsigned b =? byte.unsigned AccType) with false
    by (symmetry; apply Z.eqb_neq; exact Hb).
  reflexivity.
Qed.

Lemma Acc_wrong_frame_type f body :
  3 <= byte.unsigned f ->
  Acc.UnmarshalBinary m
    (AccType :: t0 :: t1 :: t2 :: t3 :: t4 :: t5 :: t6 :: t7 :: f :: body)
  = Done (m, Some (Acc.ErrExpectedFrameTypeAcc f)).
Proof.
  intros Hf. unfold Acc.UnmarshalBinary, sampleTypeOffset, frameTypeOffset.
  rewrite index_0. cbn [bind]. rewrite Z.eqb_refl. cbn [negb].
  rewrite (index_ok _ 9) by len_side.
  change (nth_error _ (Z.to_nat 9)) with (Some f). cbn [bind].
  replace (byte.unsigned f =? byte.unsigned AccFrameType0) with false
    by (symmetry; apply Z.eqb_neq; change (byte.unsigned AccFrameType0) with 0; lia).
  replace (byte.unsigned f =? byte.unsigned AccFrameType1) with false
    by (symmetry; apply Z.eqb_neq; change (byte.unsigned AccFrameType1) with 1; lia).
  replace (byte.unsigned f =? byte.unsigned AccFrameType2) with false
    by (symmetry; apply Z.eqb_neq; change (byte.unsigned AccFrameType2) with 2; lia).
  reflexivity.
Qed.
End AccFacts.

Lemma int8_range b : -128 <= int8 b <= 127.
Proof.
  pose proof (byte.unsigned_range b). unfold int8.
  destruct (byte.unsigned b <? 128) eqn:E; [apply Z.ltb_lt in E | apply Z.ltb_ge in E]; lia.
Qed.

Lemma int16_range a b : -32768 <= int16 (le_value [a; b]) <= 32767.
Proof.
  pose proof (le_value_range [a; b]) as H. change (2 ^ (8 * len [a; b])) with 65536 in H.
  unfold int16.
  destruct (le_value [a; b] <? 2 ^ 15) eqn:E;
    [apply Z.ltb_lt in E | apply Z.ltb_ge in E]; lia.
Qed.

(** X20: on a payload with type byte 2, [Acc.UnmarshalBinary] reads the
    first sample after the ten header bytes and ignores what follows it:
    frame type 0 gives X, Y, Z from one byte each, frame type 1 from two
    bytes each and frame type 2 from three bytes each, least significant
    byte first and sign-extended, so the components lie in the signed 8,
    16 and 24-bit ranges; the timestamp is converted as for ECG. *)
Theorem Acc_UnmarshalBinary_decodes (m : Acc.t) (t0 t1 t2 t3 t4 t5 t6 t7 : byte) :
  let t := int64 (le_value [t0; t1; t2; t3; t4; t5; t6; t7]) in
  let stamp := time.Unix (Z.quot t second + epoch) (Z.rem t second) in
  let header f body :=
    AccType :: t0 :: t1 :: t2 :: t3 :: t4 :: t5 :: t6 :: t7 :: f :: body in
  (forall (x y z : byte) (rest : list byte),
      Acc.UnmarshalBinary m (header AccFrameType0 (x :: y :: z :: rest))
      = Done (Acc.mk stamp (int8 x) (int8 y) (int8 z), None)
      /\ -128 <= int8 x <= 127) /\
  (forall (x0 x1 y0 y1 z0 z1 : byte) (rest : list byte),
      Acc.UnmarshalBinary m
        (header AccFrameType1 (x0 :: x1 :: y0 :: y1 :: z0 :: z1 :: rest))
      = Done (Acc.mk stamp (int16 (le_value [x0; x1])) (int16 (le_value [y0; y1]))
                     (int16 (le_value [z0; z1])), None)
      /\ -32768 <= int16 (le_value [x0; x1]) <= 32767) /\
  (forall (x0 x1 x2 y0 y1 y2 z0 z1 z2 : byte) (rest : list byte),
      Acc.UnmarshalBinary m
        (header AccFrameType2
           (x0 :: x1 :: x2 :: y0 :: y1 :: y2 :: z0 :: z1 :: z2 :: rest))
      = Done (Acc.mk stamp (int24 x0 x1 x2) (int24 y0 y1 y2) (int24 z0 z1 z2), None)
      /\ -8388608 <= int24 x0 x1 x2 <= 8388607) /\
  int8 Byte.x7f = 127 /\ int8 Byte.x80 = -128.
Proof.
  intros t stamp header. repeat split.
  - apply Acc_frame0.
  - apply int8_range.
  - apply int8_range.
  - apply Acc_frame1.
  - apply int16_range.
  - apply int16_range.
  - apply Acc_frame2.
  - pose proof (int24_range x0 x1 x2). lia.
  - pose proof (int24_range x0 x1 x2). lia.
Qed.

(** X21: [Acc.UnmarshalBinary] reports a type byte other than 2 and a
    frame type byte of 3 or more as errors that carry the byte, whatever
    follows, and leaves the receiver as it was. *)
Theorem Acc_UnmarshalBinary_errors (m : Acc.t) :
  (forall (b : byte) (rest : list byte),
      byte.unsigned b <> 2 ->
      Acc.UnmarshalBinary m (b :: rest)
      = Done (m, Some (Acc.ErrExpectedSampleTypeAcc b))) /\
  (forall (t0 t1 t2 t3 t4 t5 t6 t7 f : byte) (body : list byte),
      3 <= byte.unsigned f ->
      Acc.UnmarshalBinary m
        (AccType :: t0 :: t1 :: t2 :: t3 :: t4 :: t5 :: t6 :: t7 :: f :: body)
      = Done (m, Some (Acc.ErrExpectedFrameTypeAcc f))).
Proof.
  split.
  - intros. apply Acc_wrong_sample_type. assumption.
  - intros. apply Acc_wrong_frame_type. assumption.
Qed.

Lemma Acc_UnmarshalBinary_errors_witness :
  Acc.UnmarshalBinary Acc.zero [Byte.x00; Byte.x01]
  = Done (Acc.zero, Some (Acc.ErrExpectedSampleTypeAcc Byte.x00)) /\
  Acc.UnmarshalBinary Acc.zero
    [Byte.x02; Byte.x00; Byte.x00; Byte.x00; Byte.x00; Byte.x00; Byte.x00; Byte.x00;
     Byte.x00; Byte.x03]
  = Done (Acc.zero, Some (Acc.ErrExpectedFrameTypeAcc Byte.x03)).
Proof.
  destruct (Acc_UnmarshalBinary_errors Acc.zero) as [H1 H2]. split.
  - apply H1. vm_compute. discriminate.
  - apply (H2 Byte.x00 Byte.x00 Byte.x00 Byte.x00 Byte.x00 Byte.x00 Byte.x00 Byte.x00
             Byte.x03 []).
    vm_compute. discriminate.
Defined.

Lemma byte_of_value (b c : byte) : byte.unsigned b = byte.unsigned c -> b = c.
Proof. apply byte.unsigned_inj. Qed.

(** X22: with type byte 2 and frame type 0, 1 or 2, [Acc.UnmarshalBinary]
    panics when fewer than 3, 6 or 9 bytes follow the ten header bytes:
    the sample is read without a length check. *)
Theorem Acc_UnmarshalBinary_short_sample_panics
    (m : Acc.t) (t0 t1 t2 t3 t4 t5 t6 t7 f : byte) (body : list byte) :
  byte.unsigned f <= 2 ->
  len body < 3 * (byte.unsigned f + 1) ->
  exists p,
    Acc.UnmarshalBinary m
      (AccType :: t0 :: t1 :: t2 :: t3 :: t4 :: t5 :: t6 :: t7 :: f :: body)
    = Panic p.
Proof.
  intros Hf Hlen. pose proof (byte.unsigned_range f) as Hr.
  assert (Hcases : f = Byte.x00 \/ f = Byte.x01 \/ f = Byte.x02).
  { destruct (Z.eq_dec (byte.unsigned f) 0) as [H0 | H0];
      [left; apply byte_of_value; exact H0|].
    destruct (Z.eq_dec (byte.unsigned f) 1) as [H1 | H1];
      [right; left; apply byte_of_value; exact H1|].
    right; right. apply byte_of_value. change (byte.unsigned Byte.x02) with 2. lia. }
  destruct Hcases as [-> | [-> | ->]].
  - change (byte.unsigned Byte.x00) with 0 in Hlen.
    destruct body as [|b0 [|b1 [|b2 body]]]; try (exfalso; len_side);
      eexists; vm_compute; reflexivity.
  - change (byte.unsigned Byte.x01) with 1 in Hlen.
    destruct body as [|b0 [|b1 [|b2 [|b3 [|b4 [|b5 body]]]]]]; try (exfalso; len_side);
      eexists; vm_compute; reflexivity.
  - change (byte.unsigned Byte.x02) with 2 in Hlen.
    destruct body as [|b0 [|b1 [|b2 [|b3 [|b4 [|b5 [|b6 [|b7 [|b8 body]]]]]]]]];
      try (exfalso; len_side); eexists; vm_compute; reflexivity.
Qed.

Lemma Acc_UnmarshalBinary_short_sample_panics_witness :
  exists p,
    Acc.UnmarshalBinary Acc.zero
      [Byte.x02; Byte.x00; Byte.x00; Byte.x00; Byte.x00; Byte.x00; Byte.x00; Byte.x00;
       Byte.x00; Byte.x01; Byte.x7f; Byte.x80; Byte.x01]
    = Panic p.
Proof.
  apply (Acc_UnmarshalBinary_short_sample_panics Acc.zero
           Byte.x00 Byte.x00 Byte.x00 Byte.x00 Byte.x00 Byte.x00 Byte.x00 Byte.x00
           Byte.x01 [Byte.x7f; Byte.x80; Byte.x01]).
  - vm_compute. discriminate.
  - vm_compute. reflexivity.
Defined.

(** ** The listener: registration and routing *)

Section ListenerMore.
Context {W H : Type} {HI : @Handler W H}.
Variables (dev : exchange) (l : Listener W) (h : H).
Variables (com : Command) (measureTyp : MeasureType) (settings : list Setting)
          (handle : option (handler W)).
Hypothesis HH : Handle h = (com, measureTyp, settings, handle).

Lemma SetHandler_rejects :
  len (handlers l) <= byte.unsigned measureTyp ->
  SetHandler dev l h = (l, Done ([], Some (ErrInvalidMeasurementType measureTyp))).
Proof.
  intros Hm. unfold SetHandler. rewrite HH.
  replace (len (handlers l) <=? byte.unsigned measureTyp) with true
    by (symmetry; apply Z.leb_le; assumption).
  reflexivity.
Qed.

Lemma SetHandler_handlers :
  byte.unsigned measureTyp < len (handlers l) ->
  exists hs,
    store (handlers l) (byte.unsigned measureTyp) handle = Done hs /\
    SetHandler dev l h
    = (mkListener (features l) hs, sendCommand dev com Online measureTyp settings).
Proof.
  intros Hm. pose proof (byte.unsigned_range measureTyp) as Hr.
  unfold SetHandler. rewrite HH.
  replace (len (handlers l) <=? byte.unsigned measureTyp) with false
    by (symmetry; apply Z.leb_gt; assumption).
  rewrite store_ok by lia. eexists. split; reflexivity.
Qed.

Lemma dispatch_routed :
  byte.unsigned measureTyp < len (handlers l) ->
  let l' := fst (SetHandler dev l h) in
  (forall rest w,
      dispatch l' (measureTyp :: rest) w
      = match handle with
        | Some f => f (measureTyp :: rest) w
        | None => Done w
        end) /\
  (forall b rest w,
      b <> measureTyp -> dispatch l' (b :: rest) w = dispatch l (b :: rest) w).
Proof.
  intros Hm l'. destruct (SetHandler_handlers Hm) as (hs & Hst & HS).
  subst l'. rewrite HS. cbn [fst]. split.
  - intros rest w. unfold dispatch, sampleTypeOffset.
    replace (len (measureTyp :: rest) =? 0) with false
      by (symmetry; apply Z.eqb_neq; rewrite len_cons; pose proof (len_nonneg rest); lia).
    rewrite index_0. cbn [bind handlers].
    rewrite (index_store_same _ _ _ _ Hst). reflexivity.
  - intros b rest w Hb. unfold dispatch, sampleTypeOffset.
    replace (len (b :: rest) =? 0) with false
      by (symmetry; apply Z.eqb_neq; rewrite len_cons; pose proof (len_nonneg rest); lia).
    rewrite index_0. cbn [bind handlers].
    rewrite (index_store_other _ _ (byte.unsigned b) _ _ Hst); [reflexivity|].
    intros E. apply Hb. apply byte.unsigned_inj. exact E.
Qed.
End ListenerMore.

(** X23: [SetHandler] for a measurement type at or beyond the length of
    the [handlers] array returns "invalid measurement type" and an empty
    response and leaves the listener as it was, whatever exchange it is
    given. *)
Theorem SetHandler_out_of_range {W H : Type} {HI : @Handler W H}
    (dev : exchange) (l : Listener W) (h : H)
    (com : Command) (measureTyp : MeasureType) (settings : list Setting)
    (handle : option (handler W)) :
  Handle h = (com, measureTyp, settings, handle) ->
  len (handlers l) <= byte.unsigned measureTyp ->
  SetHandler dev l h = (l, Done ([], Some (ErrInvalidMeasurementType measureTyp))).
Proof.
  intros HH Hm. eapply SetHandler_rejects; eassumption.
Qed.

Lemma SetHandler_out_of_range_witness :
  let l := mkListener (Byte.x0f, Byte.x05) (@no_handlers monitor.world) in
  let Handle_unit : @Handler monitor.world unit :=
    fun _ => (MeasureStart, Byte.x0d, [], None) in
  @SetHandler monitor.world unit Handle_unit (fun _ => Notified []) l tt
  = (l, Done ([], Some (ErrInvalidMeasurementType Byte.x0d))).
Proof.
  intros l Handle_unit.
  apply (@SetHandler_out_of_range monitor.world unit Handle_unit
           (fun _ => Notified []) l tt MeasureStart Byte.x0d [] None).
  - reflexivity.
  - vm_compute. discriminate.
Defined.

(** X24: after [SetHandler] for a measurement type within the array, a
    notification whose first byte is that type is passed to the function
    [Handle] returned, or dropped when that function is nil; a
    notification with any other first byte is handled as before the
    call. *)
Theorem dispatch_after_SetHandler {W H : Type} {HI : @Handler W H}
    (dev : exchange) (l : Listener W) (h : H)
    (com : Command) (measureTyp : MeasureType) (settings : list Setting)
    (handle : option (handler W)) :
  Handle h = (com, measureTyp, settings, handle) ->
  byte.unsigned measureTyp < len (handlers l) ->
  let l' := fst (SetHandler dev l h) in
  (forall rest w,
      dispatch l' (measureTyp :: rest) w
      = match handle with
        | Some f => f (measureTyp :: rest) w
        | None => Done w
        end) /\
  (forall b rest w,
      b <> measureTyp -> dispatch l' (b :: rest) w = dispatch l (b :: rest) w).
Proof.
  intros HH Hm. eapply dispatch_routed; eassumption.
Qed.

Lemma dispatch_after_SetHandler_witness :
  let l := mkListener (Byte.x0f, Byte.x05) (@no_handlers monitor.world) in
  let w := monitor.mkWorld true (NewBuffer 0 390) None in
  let started := fst (SetHandler (fun _ => Notified [])
                        l (Some monitor.ecgHandler : ECGHandler monitor.world)) in
  let stopped := fst (SetHandler (fun _ => Notified [])
                        started (None : ECGHandler monitor.world)) in
  dispatch started [ECGType] w = monitor.ecgHandler [ECGType] w /\
  dispatch stopped [ECGType] w = Done w.
Proof.
  intros l w started stopped. split.
  - apply (proj1 (dispatch_after_SetHandler (fun _ => Notified []) l
                    (Some monitor.ecgHandler : ECGHandler monitor.world)
                    MeasureStart ECGType
                    [ OfUint16 (Uint16.mk SampleRateSetting [ECGSampleFreq]);
                      OfUint16 (Uint16.mk ResolutionSetting [ECGResolution]) ]
                    (Some monitor.ecgHandler) eq_refl ltac:(vm_compute; reflexivity))).
  - apply (proj1 (dispatch_after_SetHandler (fun _ => Notified []) started
                    (None : ECGHandler monitor.world)
                    MeasureStop ECGType [] None eq_refl ltac:(vm_compute; reflexivity))).
Defined.

(** X25: with a non-nil function, [SetHandler] for an [AccHandler] sends
    the 14-byte start message 02 02, 00 01 and the sample rate, 01 01 and
    16, 02 01 and the range (the 16-bit values least significant byte
    first), and for an [ECGHandler] the 10-byte start message 02 00,
    00 01 82 00, 01 01 0E 00; with a nil function each sends the two-byte
    stop message.  The call returns what the exchange gives. *)
Theorem SetHandler_messages {W : Type} (dev : exchange) (l : Listener W)
    (freq range : Z) (f : handler W) :
  len (handlers l) = measurementTypes ->
  let reply msg := match dev msg with
                   | CtxDone e resp => Done (resp, Some (ErrContext e))
                   | Notified buf => Done (buf, None)
                   end in
  snd (SetHandler dev l (mkAccHandler freq range (Some f)))
  = reply [ Byte.x02; Byte.x02;
            Byte.x00; Byte.x01; byte.of_Z freq; byte.of_Z (Z.shiftr freq 8);
            Byte.x01; Byte.x01; Byte.x10; Byte.x00;
            Byte.x02; Byte.x01; byte.of_Z range; byte.of_Z (Z.shiftr range 8) ] /\
  snd (SetHandler dev l (mkAccHandler freq range None)) = reply [Byte.x03; Byte.x02] /\
  snd (SetHandler dev l (Some f : ECGHandler W))
  = reply [ Byte.x02; Byte.x00;
            Byte.x00; Byte.x01; Byte.x82; Byte.x00;
            Byte.x01; Byte.x01; Byte.x0e; Byte.x00 ] /\
  snd (SetHandler dev l (None : ECGHandler W)) = reply [Byte.x03; Byte.x00].
Proof.
  intros Hlen reply.
  assert (Hacc : byte.unsigned AccType < len (handlers l))
    by (rewrite Hlen; reflexivity).
  assert (Hecg : byte.unsigned ECGType < len (handlers l))
    by (rewrite Hlen; reflexivity).
  repeat split.
  - destruct (@SetHandler_handlers W (AccHandler W) AccHandler_Handle dev l (mkAccHandler freq range (Some f))
               MeasureStart AccType
               [ OfUint16 (Uint16.mk SampleRateSetting [freq]);
                 OfUint16 (Uint16.mk ResolutionSetting [16]);
                 OfUint16 (Uint16.mk RangeUnitSetting [range]) ]
               (Some f) eq_refl Hacc) as (hs & _ & ->).
    cbn [snd]. rewrite sendCommand_records by reflexivity. reflexivity.
  - destruct (@SetHandler_handlers W (AccHandler W) AccHandler_Handle dev l (mkAccHandler freq range None)
               MeasureStop AccType [] None eq_refl Hacc) as (hs & _ & ->).
    cbn [snd]. rewrite sendCommand_records by reflexivity. reflexivity.
  - destruct (@SetHandler_handlers W (ECGHandler W) ECGHandler_Handle dev l (Some f)
               MeasureStart ECGType
               [ OfUint16 (Uint16.mk SampleRateSetting [ECGSampleFreq]);
                 OfUint16 (Uint16.mk ResolutionSetting [ECGResolution]) ]
               (Some f) eq_refl Hecg) as (hs & _ & ->).
    cbn [snd]. rewrite sendCommand_records by reflexivity. reflexivity.
  - destruct (@SetHandler_handlers W (ECGHandler W) ECGHandler_Handle dev l None
               MeasureStop ECGType [] None eq_refl Hecg) as (hs & _ & ->).
    cbn [snd]. rewrite sendCommand_records by reflexivity. reflexivity.
Qed.

Lemma SetHandler_messages_witness :
  let l := mkListener (Byte.x0f, Byte.x05) (@no_handlers monitor.world) in
  snd (SetHandler (fun msg => Notified msg) l
         (mkAccHandler 200 8 (Some monitor.ecgHandler)))
  = Done ([ Byte.x02; Byte.x02;
            Byte.x00; Byte.x01; Byte.xc8; Byte.x00;
            Byte.x01; Byte.x01; Byte.x10; Byte.x00;
            Byte.x02; Byte.x01; Byte.x08; Byte.x00 ], None).
Proof.
  intros l.
  destruct (SetHandler_messages (fun msg => Notified msg) l 200 8 monitor.ecgHandler)
    as (Hacc & _).
  - vm_compute. reflexivity.
  - rewrite Hacc. vm_compute. reflexivity.
Defined.

(** ** Heart rate measurements *)

Section RateFacts.
Implicit Types (a b : byte) (hrb eb rrb rest : list byte).

Lemma flag_format (d0 : byte) : Z.land (byte.unsigned d0) 1 = if flag d0 1 then 1 else 0.
Proof. destruct d0; reflexivity. Qed.

Lemma flag_contact (d0 : byte) : (Z.land (byte.unsigned d0) 6 =? 6) = flag d0 2 && flag d0 4.
Proof. destruct d0; reflexivity. Qed.

Lemma intervals_pairs fuel : forall (pre rest : list byte) (acc : list Z),
  (length rest <= fuel)%nat ->
  heart.intervals fuel (pre ++ rest) (len pre) acc
  = if Z.even (len rest) then Done (acc ++ rr_intervals rest)
    else Panic IndexOutOfRange.
Proof.
  assert (Hstop : forall f (pre : list byte) acc,
             heart.intervals f (pre ++ []) (len pre) acc = Done (acc ++ rr_intervals [])).
  { intros f pre acc. rewrite app_nil_r. cbn [rr_intervals]. rewrite app_nil_r.
    destruct f; cbn [heart.intervals]; rewrite Z.ltb_irrefl; reflexivity. }
  induction fuel as [|fuel IH]; intros pre rest acc Hf.
  - destruct rest; [apply Hstop | cbn [length] in Hf; lia].
  - destruct rest as [|a [|b rest]]; [apply Hstop | | ].
    + cbn [heart.intervals]. pose proof (len_nonneg pre).
      replace (len pre <? len (pre ++ [a])) with true
        by (symmetry; apply Z.ltb_lt; rewrite len_app, len_cons; unfold len; cbn; lia).
      rewrite slice_from_ok by (rewrite len_app, len_cons; unfold len; cbn; lia).
      unfold len at 1. rewrite Nat2Z.id, skipn_app, skipn_all, Nat.sub_diag.
      cbn [app skipn bind]. unfold binary.Uint16.
      rewrite index_out by (unfold len; cbn; lia). reflexivity.
    + cbn [heart.intervals rr_intervals].
      pose proof (len_nonneg pre). pose proof (len_nonneg rest).
      replace (len pre <? len (pre ++ a :: b :: rest)) with true
        by (symmetry; apply Z.ltb_lt; rewrite len_app, !len_cons; lia).
      rewrite slice_from_ok by (rewrite len_app, !len_cons; lia).
      unfold len at 1. rewrite Nat2Z.id, skipn_app, skipn_all, Nat.sub_diag.
      cbn [app skipn bind]. rewrite Uint16_prefix. cbn [bind].
      replace (pre ++ a :: b :: rest) with ((pre ++ [a; b]) ++ rest)
        by (rewrite <- app_assoc; reflexivity).
      replace (len pre + 2) with (len (pre ++ [a; b]))
        by (rewrite len_app; reflexivity).
      rewrite IH by (cbn [length] in Hf; lia).
      rewrite !len_cons.
      replace (len rest + 1 + 1) with (Z.succ (Z.succ (len rest))) by lia.
      rewrite Z.even_succ_succ.
      destruct (Z.even (len rest)); [|reflexivity].
      rewrite <- app_assoc. reflexivity.
Qed.

Lemma intervals_all rrb :
  heart.intervals (length rrb) rrb 0 []
  = if Z.even (len rrb) then Done (rr_intervals rrb) else Panic IndexOutOfRange.
Proof. exact (intervals_pairs (length rrb) [] rrb [] (le_n _)). Qed.

Lemma rr_intervals_range rrb :
  Forall (fun d => 0 <= d < 64 * second) (rr_intervals rrb).
Proof.
  assert (Hpair : forall a b, 0 <= Z.quot (le_value [a; b] * second) 1024 < 64 * second).
  { intros a b. pose proof (byte.unsigned_range a). pose proof (byte.unsigned_range b).
    unfold le_value, second. cbn [fold_right].
    rewrite Z.quot_div_nonneg by lia.
    split; [apply Z.div_pos; lia | apply Z.div_lt_upper_bound; lia]. }
  assert (Hall : forall n rrb, (length rrb <= n)%nat ->
             Forall (fun d => 0 <= d < 64 * second) (rr_intervals rrb)).
  { induction n as [|n IH]; intros l Hl.
    - destruct l; [constructor | cbn [length] in Hl; lia].
    - destruct l as [|a [|b l]]; [constructor | constructor | ].
      cbn [rr_intervals]. constructor; [apply Hpair|].
      apply IH. cbn [length] in Hl. lia. }
  apply (Hall (length rrb)). apply le_n.
Qed.

Lemma rr_intervals_length rrb :
  len (rr_intervals rrb) = len rrb / 2.
Proof.
  assert (Hall : forall n rrb, (length rrb <= n)%nat ->
             len (rr_intervals rrb) = len rrb / 2).
  { induction n as [|n IH]; intros l Hl.
    - destruct l; [reflexivity | cbn [length] in Hl; lia].
    - destruct l as [|a [|b l]]; [reflexivity | reflexivity | ].
      cbn [rr_intervals]. rewrite !len_cons, IH by (cbn [length] in Hl; lia).
      pose proof (len_nonneg l). Z.div_mod_to_equations. lia. }
  apply (Hall (length rrb)). apply le_n.
Qed.

Variable m : heart.Rate.

Lemma Rate_no_contact (d0 : byte) rest :
  flag d0 4 = true -> flag d0 2 = false ->
  heart.UnmarshalBinary m (d0 :: rest)
  = Done (heart.mkRate 0 [] 0 false false true, Some heart.ErrNoSensorContact).
Proof.
  intros H4 H2. unfold heart.UnmarshalBinary. rewrite index_0. cbn [bind].
  rewrite flag_contact. fold (flag d0 4). rewrite H4, H2. reflexivity.
Qed.

Lemma Rate_layout (d0 : byte) hrb eb rrb :
  flag d0 4 && negb (flag d0 2) = false ->
  len hrb = (if flag d0 1 then 2 else 1) ->
  len eb = (if flag d0 8 then 2 else 0) ->
  heart.UnmarshalBinary m (d0 :: hrb ++ eb ++ rrb)
  = if flag d0 16 && Z.odd (len rrb) then Panic IndexOutOfRange
    else Done (heart.mkRate (le_value hrb)
                 (if flag d0 16 then rr_intervals rrb else [])
                 (if flag d0 8 then le_value eb else -1)
                 (flag d0 8) (flag d0 2 && flag d0 4) (flag d0 4), None).
Proof.
  intros Hc Hh He. unfold heart.UnmarshalBinary. rewrite index_0. cbn [bind].
  rewrite flag_contact, flag_format.
  fold (flag d0 4). fold (flag d0 8). fold (flag d0 16).
  replace (flag d0 4 && negb (flag d0 2 && flag d0 4)) with false
    by (destruct (flag d0 4), (flag d0 2); cbn in *; congruence).
  rewrite <- Z.negb_even.
  destruct (flag d0 1), (flag d0 8), (flag d0 16);
    destruct hrb as [|a [|b [|c hrb]]]; try (exfalso; len_side);
    destruct eb as [|e0 [|e1 [|e2 eb]]]; try (exfalso; len_side);
    cbn [app Z.eqb Pos.eqb]; go_eval;
    repeat (first [ rewrite Uint16_prefix | progress go_eval ]);
    try rewrite intervals_all;
    try (destruct (Z.even (len rrb))); cbn [bind negb andb]; try reflexivity;
    unfold le_value; cbn [fold_right]; rewrite ?Z.mul_0_r, ?Z.add_0_r; reflexivity.
Qed.
End RateFacts.

(** X26: for a flags byte with the contact-supported bit (4) set and the
    contact bit (2) clear, [Rate.UnmarshalBinary] returns "no sensor
    contact" and a [Rate] whose only set field is [ContactSupported],
    whatever follows the flags byte and whatever the receiver held. *)
Theorem Rate_UnmarshalBinary_no_contact (m : heart.Rate) (d0 : byte) (rest : list byte) :
  flag d0 4 = true -> flag d0 2 = false ->
  heart.UnmarshalBinary m (d0 :: rest)
  = Done (heart.mkRate 0 [] 0 false false true, Some heart.ErrNoSensorContact).
Proof.
  intros H4 H2. eapply Rate_no_contact; eassumption.
Qed.

Lemma Rate_UnmarshalBinary_no_contact_witness :
  heart.UnmarshalBinary (heart.mkRate 60 [second] 5 true true true) [Byte.x14]
  = Done (heart.mkRate 0 [] 0 false false true, Some heart.ErrNoSensorContact).
Proof.
  apply (Rate_UnmarshalBinary_no_contact _ Byte.x14 []); reflexivity.
Defined.

(** X27: a measurement laid out as its flags byte says (one heart rate
    byte, or two when bit 1 is set; two energy bytes when bit 8 is set;
    then the RR bytes) and not flagged "contact supported but absent"
    decodes to the little-endian heart rate, the energy or -1, the flag
    fields, and, when bit 16 is set, one RR duration per byte pair; with
    bit 16 set and an odd number of RR bytes the call panics. *)
Theorem Rate_UnmarshalBinary_layout (m : heart.Rate) (d0 : byte)
    (hrb eb rrb : list byte) :
  flag d0 4 && negb (flag d0 2) = false ->
  len hrb = (if flag d0 1 then 2 else 1) ->
  len eb = (if flag d0 8 then 2 else 0) ->
  heart.UnmarshalBinary m (d0 :: hrb ++ eb ++ rrb)
  = if flag d0 16 && Z.odd (len rrb) then Panic IndexOutOfRange
    else Done (heart.mkRate (le_value hrb)
                 (if flag d0 16 then rr_intervals rrb else [])
                 (if flag d0 8 then le_value eb else -1)
                 (flag d0 8) (flag d0 2 && flag d0 4) (flag d0 4), None).
Proof.
  intros Hc Hh He. eapply Rate_layout; eassumption.
Qed.

Lemma Rate_UnmarshalBinary_layout_witness :
  heart.UnmarshalBinary heart.zero
    (Byte.x1e :: [Byte.x48] ++ [Byte.x2c; Byte.x01] ++ [Byte.x00; Byte.x04; Byte.x00; Byte.x02])
  = Done (heart.mkRate 72 [1000000000; 500000000] 300 true true true, None).
Proof.
  apply (Rate_UnmarshalBinary_layout heart.zero Byte.x1e
           [Byte.x48] [Byte.x2c; Byte.x01] [Byte.x00; Byte.x04; Byte.x00; Byte.x02]);
    reflexivity.
Defined.

(** X28: the RR durations [Rate.UnmarshalBinary] produces are one per
    pair of RR bytes, and each lies between 0 and 64 seconds
    (exclusive): the 16-bit count of 1/1024 s cannot reach 64 s. *)
Theorem Rate_RR_count_and_range (m m' : heart.Rate) (d0 : byte)
    (hrb eb rrb : list byte) :
  flag d0 4 && negb (flag d0 2) = false ->
  len hrb = (if flag d0 1 then 2 else 1) ->
  len eb = (if flag d0 8 then 2 else 0) ->
  flag d0 16 = true ->
  heart.UnmarshalBinary m (d0 :: hrb ++ eb ++ rrb) = Done (m', None) ->
  len (heart.RR m') = len rrb / 2 /\
  Forall (fun d => 0 <= d < 64 * second) (heart.RR m').
Proof.
  intros Hc Hh He Hr. rewrite (Rate_layout m d0 hrb eb rrb Hc Hh He), Hr.
  cbn [andb]. destruct (Z.odd (len rrb)); [discriminate|].
  intros E. injection E as <-. cbn [heart.RR].
  split; [apply rr_intervals_length | apply rr_intervals_range].
Qed.

Lemma Rate_RR_count_and_range_witness :
  let m' := heart.mkRate 72 [1000000000; 500000000] (-1) false false false in
  len (heart.RR m') = len [Byte.x00; Byte.x04; Byte.x00; Byte.x02] / 2 /\
  Forall (fun d => 0 <= d < 64 * second) (heart.RR m').
Proof.
  intros m'.
  apply (Rate_RR_count_and_range heart.zero m' Byte.x10
           [Byte.x48] [] [Byte.x00; Byte.x04; Byte.x00; Byte.x02]);
    reflexivity.
Defined.

Lemma Rate_flags_only (m : heart.Rate) (d0 : byte) :
  flag d0 4 && negb (flag d0 2) = false ->
  heart.UnmarshalBinary m [d0] = Panic IndexOutOfRange.
Proof.
  intros Hc. unfold heart.UnmarshalBinary. rewrite index_0. cbn [bind].
  rewrite flag_contact, flag_format. fold (flag d0 4).
  replace (flag d0 4 && negb (flag d0 2 && flag d0 4)) with false
    by (destruct (flag d0 4), (flag d0 2); cbn in *; congruence).
  destruct (flag d0 1); cbn [Z.eqb Pos.eqb].
  - rewrite slice_from_ok by (unfold len; cbn; lia).
    nat_consts. cbn [skipn bind]. unfold binary.Uint16.
    rewrite index_out by (unfold len; cbn; lia). reflexivity.
  - rewrite index_out by (unfold len; cbn; lia). reflexivity.
Qed.

(** X29: [Rate.UnmarshalBinary] does not check the payload's length: it
    panics with an index out of range on an empty payload, and on a
    payload that is a flags byte alone unless that byte reports
    "contact supported but absent". *)
Theorem Rate_UnmarshalBinary_truncated_panics (m : heart.Rate) (d0 : byte) :
  flag d0 4 && negb (flag d0 2) = false ->
  heart.UnmarshalBinary m [] = Panic IndexOutOfRange /\
  heart.UnmarshalBinary m [d0] = Panic IndexOutOfRange.
Proof.
  intros Hc. split; [reflexivity | apply Rate_flags_only; assumption].
Qed.

Lemma Rate_UnmarshalBinary_truncated_panics_witness :
  heart.UnmarshalBinary heart.zero [] = Panic IndexOutOfRange /\
  heart.UnmarshalBinary heart.zero [Byte.x16] = Panic IndexOutOfRange.
Proof.
  apply (Rate_UnmarshalBinary_truncated_panics heart.zero Byte.x16). reflexivity.
Defined.
